(** * EXAMEN: the WebXR asset-slot coordinator of [src/main.js] and [app.js]

    A shallow embedding of the asset lifecycle code (attach, preload,
    timeout and fallback loading, disposal), of the select handler and of
    the hit-test initialisation, followed by the properties of the
    specification that concern them.

    Conventions of the embedding.
    - JavaScript runs one task at a time.  Every function is embedded as a
      state transformer for the code that runs up to its first [await];
      what runs after the [await] is a separate transformer, executed by
      the loader event that settles the awaited promise.
    - three.js objects carry the integer [id] that three.js gives every
      [Object3D]; the scene is the list of ids of the model roots among
      its children (lights, floor, reticle and controller never change).
    - Calls on the collaborators (scene, loaders, GPU resources) are
      recorded in [calls], most recent first.
    - Numbers that are coordinates are JavaScript numbers: binary64
      floats, with the rounding of every operation; the debug log ([log],
      [updateLogDisplay]) is not part of the state. *)

From Stdlib Require Import PrimFloat.
From Stdlib Require Import ZArith List Bool Lia.
From stdpp Require Import base gmap list strings.
Import ListNotations.

Local Open Scope Z_scope.

(** Decimal constants are read as JavaScript reads them: as the nearest
    binary64 float. *)
Set Warnings "-inexact-float".

(** ** three.js values *)

Record Vector3 := { vx : float; vy : float; vz : float }.
Record Quaternion := { qx : float; qy : float; qz : float; qw : float }.

Definition vec0 : Vector3 := {| vx := 0; vy := 0; vz := 0 |}.
Definition quat_identity : Quaternion := {| qx := 0; qy := 0; qz := 0; qw := 1 |}.
Definition vec_uniform (k : float) : Vector3 := {| vx := k; vy := k; vz := k |}.

(** [Vector3.distanceToSquared] and [Vector3.distanceTo] of three.js:
    [dx * dx + dy * dy + dz * dz] with [dx = this.x - v.x] and so on,
    and [Math.sqrt] of it, every operation rounded as JavaScript rounds. *)
Definition distanceToSquared (a b : Vector3) : float :=
  let dx := (vx a - vx b)%float in
  let dy := (vy a - vy b)%float in
  let dz := (vz a - vz b)%float in
  (dx * dx + dy * dy + dz * dz)%float.

Definition distanceTo (a b : Vector3) : float :=
  PrimFloat.sqrt (distanceToSquared a b).

(** [a.distanceTo(b) < d] and [a.distanceTo(b) > d], as JavaScript
    compares two numbers (both are false when the distance is NaN). *)
Definition distance_lt (a b : Vector3) (d : float) : bool :=
  (distanceTo a b <? d)%float.
Definition distance_gt (a b : Vector3) (d : float) : bool :=
  (d <? distanceTo a b)%float.

(** A [Matrix4] as far as the code reads it: its translation column
    ([setFromMatrixPosition]) and its rotation part ([extractRotation]
    followed by [setFromRotationMatrix]). *)
Record Matrix4 := { m_position : Vector3; m_rotation : Quaternion }.

(** GPU-side resources are identified by number. *)
Record Material := { mat_id : nat; mat_map : option nat }.

Inductive MaterialSlot :=
| NoMaterial
| OneMaterial (m : Material)
| ManyMaterials (ms : list Material).

(** The scene graph under a model root: only meshes own resources. *)
Inductive Node :=
| Group (children : list Node)
| Mesh (geometry : nat) (material : MaterialSlot) (children : list Node).

Definition Clip := string.

(** A model root.  [mixer] is [userData.mixer]: the clip its
    [AnimationMixer] plays, when there is one. *)
Record Object3D := {
  oid : nat;
  position : Vector3;
  quaternion : Quaternion;
  scale : Vector3;
  mixer : option Clip;
  graph : Node
}.

Record GLTF := { gltf_scene : Object3D; gltf_animations : list Clip }.

(** What a decoder produces before three.js numbers the root object. *)
Record Decoded := { d_graph : Node; d_animations : list Clip }.

Definition fresh_object (id : nat) (d : Decoded) : Object3D :=
  {| oid := id; position := vec0; quaternion := quat_identity;
     scale := vec_uniform 1; mixer := None; graph := d_graph d |}.

(** [Object3D.clone()]: a new root (new id) with the transform copied.
    [Mesh.copy] assigns [geometry] and [material] by reference (a material
    array is sliced), so the clone's graph names the same resources as the
    source's.  [userData] is copied through JSON; a template never holds a
    mixer. *)
Definition clone (id : nat) (o : Object3D) : Object3D :=
  {| oid := id; position := position o; quaternion := quaternion o;
     scale := scale o; mixer := None; graph := graph o |}.

Definition with_pose (p : Vector3) (q : Quaternion) (sc : Vector3) (o : Object3D)
  : Object3D :=
  {| oid := oid o; position := p; quaternion := q; scale := sc;
     mixer := mixer o; graph := graph o |}.

Definition with_mixer (c : option Clip) (o : Object3D) : Object3D :=
  {| oid := oid o; position := position o; quaternion := quaternion o;
     scale := scale o; mixer := c; graph := graph o |}.

(** ** The resource disposer ([disposeModel]) *)

Inductive ResCall :=
| GeometryDispose (g : nat)
| TextureDispose (t : nat)
| MaterialDispose (m : nat).

Definition dispose_material (m : Material) : list ResCall :=
  match mat_map m with
  | Some t => [TextureDispose t; MaterialDispose (mat_id m)]
  | None => [MaterialDispose (mat_id m)]
  end.

Definition dispose_slot (ms : MaterialSlot) : list ResCall :=
  match ms with
  | NoMaterial => []
  | OneMaterial m => dispose_material m
  | ManyMaterials l => flat_map dispose_material l
  end.

(** [model.traverse(cb)] visits a node, then its children in order. *)
Fixpoint traverse_dispose (n : Node) : list ResCall :=
  match n with
  | Group cs => flat_map traverse_dispose cs
  | Mesh g ms cs =>
      GeometryDispose g :: dispose_slot ms ++ flat_map traverse_dispose cs
  end.

Definition disposeModel (model : Object3D) : list ResCall :=
  traverse_dispose (graph model).

(** ** Recorded calls on the collaborators

    [DisposeModel id rs]: [disposeModel] ran on the model with root [id]
    and made the [dispose()] calls [rs], in this order. *)
Inductive Call :=
| SceneAdd (id : nat)
| SceneRemove (id : nat)
| DisposeModel (id : nat) (released : list ResCall)
| LoaderLoad (url : option string)
| FallbackLoad (url : option string).

Definition detached (cs : list Call) (i : nat) : Prop := In (SceneRemove i) cs.
Definition disposed (cs : list Call) (i : nat) : Prop :=
  exists rs, In (DisposeModel i rs) cs.

(** [P] holds, at every [scene.add], of every model added before it.
    ([cs] is most recent first.) *)
Fixpoint before_each_add (P : list Call -> nat -> Prop) (cs : list Call) : Prop :=
  match cs with
  | [] => True
  | SceneAdd _ :: earlier =>
      (forall i, In (SceneAdd i) earlier -> P earlier i)
      /\ before_each_add P earlier
  | _ :: earlier => before_each_add P earlier
  end.

(** When a model is added to the scene, every model added earlier has been
    removed from the scene and disposed. *)
Definition slot_discipline (cs : list Call) : Prop :=
  before_each_add (fun cs i => detached cs i /\ disposed cs i) cs.

(** The same without the disposal. *)
Definition detach_discipline (cs : list Call) : Prop :=
  before_each_add detached cs.

(** The same questions as tests on a recorded list. *)
Definition is_remove_of (i : nat) (c : Call) : bool :=
  match c with
  | SceneRemove j => (i =? j)%nat
  | _ => false
  end.

Definition is_dispose_of (i : nat) (c : Call) : bool :=
  match c with
  | DisposeModel j _ => (i =? j)%nat
  | _ => false
  end.

(** The models [disposeModel] ran on, most recent first. *)
Definition disposed_ids (cs : list Call) : list nat :=
  flat_map (fun c => match c with
                     | DisposeModel i _ => [i]
                     | _ => []
                     end) cs.

(** Removal and disposal come together: every [scene.remove] is followed
    at once by [disposeModel] on the same model, and [disposeModel] runs
    nowhere else.  ([cs] is most recent first.) *)
Fixpoint paired (cs : list Call) : Prop :=
  match cs with
  | [] => True
  | DisposeModel i _ :: SceneRemove j :: earlier => i = j /\ paired earlier
  | DisposeModel _ _ :: _ => False
  | SceneRemove _ :: _ => False
  | _ :: earlier => paired earlier
  end.

(** The meshes of a graph, and the [geometry.dispose()] calls of a list. *)
Fixpoint mesh_count (n : Node) : nat :=
  match n with
  | Group cs => list_sum (map mesh_count cs)
  | Mesh _ _ cs => S (list_sum (map mesh_count cs))
  end.

Definition is_geometry_call (c : ResCall) : bool :=
  match c with
  | GeometryDispose _ => true
  | _ => false
  end.

Definition geometry_calls (rs : list ResCall) : nat :=
  length (filter (fun c => is_geometry_call c = true) rs).

(** The materials of a graph, in traversal order. *)
Definition slot_materials (ms : MaterialSlot) : list Material :=
  match ms with
  | NoMaterial => []
  | OneMaterial m => [m]
  | ManyMaterials l => l
  end.

Fixpoint materials (n : Node) : list Material :=
  match n with
  | Group cs => flat_map materials cs
  | Mesh _ ms cs => slot_materials ms ++ flat_map materials cs
  end.

(** In a list of [dispose()] calls, every texture is released right
    before a material: [after_texture b rs] reads [rs] knowing whether the
    call before it released a texture. *)
Fixpoint after_texture (pending : bool) (rs : list ResCall) : Prop :=
  match rs with
  | [] => pending = false
  | TextureDispose _ :: rest => pending = false /\ after_texture true rest
  | MaterialDispose _ :: rest => after_texture false rest
  | GeometryDispose _ :: rest => pending = false /\ after_texture false rest
  end.

Definition textures_before_materials (rs : list ResCall) : Prop :=
  after_texture false rs.

(** [scene.remove(o)], and [scene.add(o)], which first detaches [o] from
    its parent and then appends it. *)
Definition scene_remove (id : nat) (l : list nat) : list nat :=
  filter (fun i => i ≠ id) l.

Definition scene_add (id : nat) (l : list nat) : list nat :=
  scene_remove id l ++ [id].

(** ** [src/main.js]: state *)

Module Main.

(** [statusEl.textContent] and [statusEl.className]. *)
Inductive LoadError := ErrTimeout | ErrBothLoaders.

Inductive StatusText :=
| TxtInitial
| TxtWebModeActive               (* 'Modo web activo en ...' *)
| TxtWebMode                     (* 'Modo web activo. Usa los controles ...' *)
| TxtARActive                    (* 'AR activo. Apunta la camara al suelo ...' *)
| TxtRoutineKey (m : Z)          (* 'Rutina m seleccionada (Tecla m)' *)
| TxtRoutineSelected (m : Z)     (* 'Rutina m seleccionada.' *)
| TxtTooClose                    (* 'Modelo muy cerca. Aleja un poco la camara.' *)
| TxtTooFar                      (* 'Modelo muy lejos. Acerca un poco la camara.' *)
| TxtPlaced                      (* 'Modelo colocado en AR. Toca para cambiar rutina.' *)
| TxtPointAtSurface              (* 'Apunta la camara a una superficie plana' *)
| TxtCycling (m : Z)             (* 'Cambiando a rutina m...' *)
| TxtLoading (m : Z)             (* 'Cargando rutina m...' *)
| TxtProgress (m : Z) (fallback : bool) (percent : Z)
| TxtActive (m : Z)              (* 'Rutina m activa.' *)
| TxtError (m : Z) (e : LoadError).

Inductive StatusClass := ClsNone | ClsLoading | ClsError.

(** What the XR runtime and the frame loop provide to the coordinator. *)
Record XR := {
  isPresenting : bool;           (* renderer.xr.isPresenting *)
  camera_position : Vector3;
  reticle_visible : bool;
  reticle_matrix : Matrix4
}.

(** One call of [loadModelWithTimeout], together with the arguments of the
    [loadModelForCurrentMode] call that awaits it. *)
Inductive PromiseState := Pending | Fulfilled | Rejected.
Inductive TimerState := Armed | Cleared | Fired.
Inductive OpState := Idle | InFlight | Done | Failed.

Record Request := {
  rq_url : option string;
  rq_position : Vector3;
  rq_quaternion : Quaternion;
  rq_scale : Vector3;
  rq_promise : PromiseState;
  rq_timer : TimerState;
  rq_primary : OpState;          (* loader.load *)
  rq_fallback : OpState          (* fallbackLoader.load *)
}.

(** One [loader.load] issued by [preloadModel]. *)
Record Preload := { pl_mode : Z; pl_op : OpState }.

Record State := {
  currentMode : Z;
  loadingModels : gmap Z bool;
  preloadedModels : gmap Z GLTF;
  currentModel : option Object3D;
  scene : list nat;
  isARMode : bool;
  isDesktop : bool;
  xr : XR;
  statusText : StatusText;
  statusClass : StatusClass;
  requests : list Request;
  preloads : list Preload;
  nextId : nat;                  (* three.js object id counter *)
  calls : list Call
}.

Definition set_currentMode (v : Z) (s : State) : State :=
  {| currentMode := v; loadingModels := loadingModels s;
     preloadedModels := preloadedModels s; currentModel := currentModel s;
     scene := scene s; isARMode := isARMode s; isDesktop := isDesktop s;
     xr := xr s; statusText := statusText s; statusClass := statusClass s;
     requests := requests s; preloads := preloads s; nextId := nextId s;
     calls := calls s |}.

Definition set_loadingModels (v : gmap Z bool) (s : State) : State :=
  {| currentMode := currentMode s; loadingModels := v;
     preloadedModels := preloadedModels s; currentModel := currentModel s;
     scene := scene s; isARMode := isARMode s; isDesktop := isDesktop s;
     xr := xr s; statusText := statusText s; statusClass := statusClass s;
     requests := requests s; preloads := preloads s; nextId := nextId s;
     calls := calls s |}.

Definition set_preloadedModels (v : gmap Z GLTF) (s : State) : State :=
  {| currentMode := currentMode s; loadingModels := loadingModels s;
     preloadedModels := v; currentModel := currentModel s;
     scene := scene s; isARMode := isARMode s; isDesktop := isDesktop s;
     xr := xr s; statusText := statusText s; statusClass := statusClass s;
     requests := requests s; preloads := preloads s; nextId := nextId s;
     calls := calls s |}.

Definition set_currentModel (v : option Object3D) (s : State) : State :=
  {| currentMode := currentMode s; loadingModels := loadingModels s;
     preloadedModels := preloadedModels s; currentModel := v;
     scene := scene s; isARMode := isARMode s; isDesktop := isDesktop s;
     xr := xr s; statusText := statusText s; statusClass := statusClass s;
     requests := requests s; preloads := preloads s; nextId := nextId s;
     calls := calls s |}.

Definition set_scene (v : list nat) (s : State) : State :=
  {| currentMode := currentMode s; loadingModels := loadingModels s;
     preloadedModels := preloadedModels s; currentModel := currentModel s;
     scene := v; isARMode := isARMode s; isDesktop := isDesktop s;
     xr := xr s; statusText := statusText s; statusClass := statusClass s;
     requests := requests s; preloads := preloads s; nextId := nextId s;
     calls := calls s |}.

Definition set_isARMode (v : bool) (s : State) : State :=
  {| currentMode := currentMode s; loadingModels := loadingModels s;
     preloadedModels := preloadedModels s; currentModel := currentModel s;
     scene := scene s; isARMode := v; isDesktop := isDesktop s;
     xr := xr s; statusText := statusText s; statusClass := statusClass s;
     requests := requests s; preloads := preloads s; nextId := nextId s;
     calls := calls s |}.

Definition set_xr (v : XR) (s : State) : State :=
  {| currentMode := currentMode s; loadingModels := loadingModels s;
     preloadedModels := preloadedModels s; currentModel := currentModel s;
     scene := scene s; isARMode := isARMode s; isDesktop := isDesktop s;
     xr := v; statusText := statusText s; statusClass := statusClass s;
     requests := requests s; preloads := preloads s; nextId := nextId s;
     calls := calls s |}.

Definition set_statusText (v : StatusText) (s : State) : State :=
  {| currentMode := currentMode s; loadingModels := loadingModels s;
     preloadedModels := preloadedModels s; currentModel := currentModel s;
     scene := scene s; isARMode := isARMode s; isDesktop := isDesktop s;
     xr := xr s; statusText := v; statusClass := statusClass s;
     requests := requests s; preloads := preloads s; nextId := nextId s;
     calls := calls s |}.

Definition set_statusClass (v : StatusClass) (s : State) : State :=
  {| currentMode := currentMode s; loadingModels := loadingModels s;
     preloadedModels := preloadedModels s; currentModel := currentModel s;
     scene := scene s; isARMode := isARMode s; isDesktop := isDesktop s;
     xr := xr s; statusText := statusText s; statusClass := v;
     requests := requests s; preloads := preloads s; nextId := nextId s;
     calls := calls s |}.

Definition set_requests (v : list Request) (s : State) : State :=
  {| currentMode := currentMode s; loadingModels := loadingModels s;
     preloadedModels := preloadedModels s; currentModel := currentModel s;
     scene := scene s; isARMode := isARMode s; isDesktop := isDesktop s;
     xr := xr s; statusText := statusText s; statusClass := statusClass s;
     requests := v; preloads := preloads s; nextId := nextId s;
     calls := calls s |}.

Definition set_preloads (v : list Preload) (s : State) : State :=
  {| currentMode := currentMode s; loadingModels := loadingModels s;
     preloadedModels := preloadedModels s; currentModel := currentModel s;
     scene := scene s; isARMode := isARMode s; isDesktop := isDesktop s;
     xr := xr s; statusText := statusText s; statusClass := statusClass s;
     requests := requests s; preloads := v; nextId := nextId s;
     calls := calls s |}.

Definition set_nextId (v : nat) (s : State) : State :=
  {| currentMode := currentMode s; loadingModels := loadingModels s;
     preloadedModels := preloadedModels s; currentModel := currentModel s;
     scene := scene s; isARMode := isARMode s; isDesktop := isDesktop s;
     xr := xr s; statusText := statusText s; statusClass := statusClass s;
     requests := requests s; preloads := preloads s; nextId := v;
     calls := calls s |}.

Definition record (c : Call) (s : State) : State :=
  {| currentMode := currentMode s; loadingModels := loadingModels s;
     preloadedModels := preloadedModels s; currentModel := currentModel s;
     scene := scene s; isARMode := isARMode s; isDesktop := isDesktop s;
     xr := xr s; statusText := statusText s; statusClass := statusClass s;
     requests := requests s; preloads := preloads s; nextId := nextId s;
     calls := c :: calls s |}.

Definition set_reticle_visible (b : bool) (x : XR) : XR :=
  {| isPresenting := isPresenting x; camera_position := camera_position x;
     reticle_visible := b; reticle_matrix := reticle_matrix x |}.

(** ** Configuration *)

(** [MODELS]: [window.CONFIG.MODELS], or the identical table in main.js. *)
Definition MODELS (mode : Z) : option string :=
  if mode =? 1 then Some "./assets/models/modelo-final.glb"%string
  else if mode =? 2 then Some "./assets/models/movimiento2.glb"%string
  else if mode =? 3 then Some "./assets/models/movimiento3.glb"%string
  else None.

(** [window.CONFIG.MODEL]. *)
Definition minDistance : float := 0.5.
Definition maxDistance : float := 10.
Definition defaultScale : Vector3 := vec_uniform 0.3.

(** ** The asset slot coordinator *)

(** [loadingModels[mode]] as a condition. *)
Definition is_loading (s : State) (mode : Z) : bool :=
  match loadingModels s !! mode with
  | Some true => true
  | _ => false
  end.

(** Lines 840-845: detach and dispose the current model. *)
Definition remove_previous (s : State) : State :=
  match currentModel s with
  | Some m =>
      set_currentModel None
        (record (DisposeModel (oid m) (disposeModel m))
           (record (SceneRemove (oid m))
              (set_scene (scene_remove (oid m) (scene s)) s)))
  | None => s
  end.

(** Lines 869-888, with [o] the object just assigned to [currentModel]. *)
Definition placed (p : Vector3) (q : Quaternion) (sc : Vector3)
    (o : Object3D) (animations : list Clip) : Object3D :=
  match animations with
  | clip :: _ => with_mixer (Some clip) (with_pose p q sc o)
  | [] => with_pose p q sc o
  end.

Definition place (p : Vector3) (q : Quaternion) (sc : Vector3)
    (o : Object3D) (animations : list Clip) (s : State) : State :=
  set_statusClass ClsNone
    (set_statusText (TxtActive (currentMode s))
       (set_currentModel (Some (placed p q sc o animations))
          (record (SceneAdd (oid o))
             (set_scene (scene_add (oid o) (scene s)) s)))).

(** The [finally] block: it reads the global [currentMode] when it runs. *)
Definition finally (s : State) : State :=
  set_loadingModels (<[currentMode s := false]> (loadingModels s)) s.

(** The [catch] block. *)
Definition catch (e : LoadError) (s : State) : State :=
  set_statusClass ClsError (set_statusText (TxtError (currentMode s) e) s).

(** [loadModelWithTimeout(url, 30000)] up to the promise it returns: the
    timer is armed and the Draco loader is started. *)
Definition loadModelWithTimeout (url : option string)
    (p : Vector3) (q : Quaternion) (sc : Vector3) (s : State) : State :=
  set_requests
    (requests s ++
       [{| rq_url := url; rq_position := p; rq_quaternion := q; rq_scale := sc;
           rq_promise := Pending; rq_timer := Armed;
           rq_primary := InFlight; rq_fallback := Idle |}])
    (record (LoaderLoad url) s).

(** [loadModelForCurrentMode(position, quaternion, scale)] up to its
    [await]; with a preloaded model it runs to the end. *)
Definition loadModelForCurrentMode (p : Vector3) (q : Quaternion) (sc : Vector3)
    (s : State) : State :=
  let url := MODELS (currentMode s) in
  if is_loading s (currentMode s) then s
  else
    let s1 := remove_previous s in
    let s2 := set_statusClass ClsLoading
                (set_statusText (TxtLoading (currentMode s1))
                   (set_loadingModels
                      (<[currentMode s1 := true]> (loadingModels s1)) s1)) in
    match preloadedModels s2 !! currentMode s2 with
    | Some gltf =>
        let c := clone (nextId s2) (gltf_scene gltf) in
        finally (place p q sc c (gltf_animations gltf)
                   (set_nextId (S (nextId s2)) s2))
    | None => loadModelWithTimeout url p q sc s2
    end.

(** After the [await]: the promise was fulfilled with [gltf]. *)
Definition resume_loaded (rq : Request) (gltf : GLTF) (s : State) : State :=
  finally (place (rq_position rq) (rq_quaternion rq) (rq_scale rq)
             (gltf_scene gltf) (gltf_animations gltf) s).

(** After the [await]: the promise was rejected. *)
Definition resume_failed (e : LoadError) (s : State) : State :=
  finally (catch e s).

(** ** The loader promise of [loadModelWithTimeout] *)

Definition set_promise (v : PromiseState) (rq : Request) : Request :=
  {| rq_url := rq_url rq; rq_position := rq_position rq;
     rq_quaternion := rq_quaternion rq; rq_scale := rq_scale rq;
     rq_promise := v; rq_timer := rq_timer rq;
     rq_primary := rq_primary rq; rq_fallback := rq_fallback rq |}.

Definition set_timer (v : TimerState) (rq : Request) : Request :=
  {| rq_url := rq_url rq; rq_position := rq_position rq;
     rq_quaternion := rq_quaternion rq; rq_scale := rq_scale rq;
     rq_promise := rq_promise rq; rq_timer := v;
     rq_primary := rq_primary rq; rq_fallback := rq_fallback rq |}.

Definition set_primary (v : OpState) (rq : Request) : Request :=
  {| rq_url := rq_url rq; rq_position := rq_position rq;
     rq_quaternion := rq_quaternion rq; rq_scale := rq_scale rq;
     rq_promise := rq_promise rq; rq_timer := rq_timer rq;
     rq_primary := v; rq_fallback := rq_fallback rq |}.

Definition set_fallback (v : OpState) (rq : Request) : Request :=
  {| rq_url := rq_url rq; rq_position := rq_position rq;
     rq_quaternion := rq_quaternion rq; rq_scale := rq_scale rq;
     rq_promise := rq_promise rq; rq_timer := rq_timer rq;
     rq_primary := rq_primary rq; rq_fallback := v |}.

(** [clearTimeout(timeoutId)]: without effect once the timer has fired. *)
Definition clearTimeout (rq : Request) : Request :=
  match rq_timer rq with
  | Armed => set_timer Cleared rq
  | _ => rq
  end.

Definition put_request (r : nat) (rq : Request) (s : State) : State :=
  set_requests (<[r := rq]> (requests s)) s.

(** [resolve(gltf)]: settles a pending promise and lets the awaiting
    [loadModelForCurrentMode] continue; a settled promise ignores it. *)
Definition resolve (r : nat) (rq : Request) (gltf : GLTF) (s : State) : State :=
  match rq_promise rq with
  | Pending => resume_loaded rq gltf (put_request r (set_promise Fulfilled rq) s)
  | _ => put_request r rq s
  end.

(** [reject(error)]. *)
Definition reject (r : nat) (rq : Request) (e : LoadError) (s : State) : State :=
  match rq_promise rq with
  | Pending => resume_failed e (put_request r (set_promise Rejected rq) s)
  | _ => put_request r rq s
  end.

(** The decoder hands over a new scene root; three.js numbers it. *)
Definition decoded_gltf (d : Decoded) (s : State) : GLTF :=
  {| gltf_scene := fresh_object (nextId s) d;
     gltf_animations := d_animations d |}.

(** The [onLoad] callbacks of the Draco loader and of the fallback loader. *)
Definition on_primary_loaded (r : nat) (rq : Request) (d : Decoded) (s : State)
  : State :=
  resolve r (clearTimeout (set_primary Done rq)) (decoded_gltf d s)
    (set_nextId (S (nextId s)) s).

Definition on_fallback_loaded (r : nat) (rq : Request) (d : Decoded) (s : State)
  : State :=
  resolve r (clearTimeout (set_fallback Done rq)) (decoded_gltf d s)
    (set_nextId (S (nextId s)) s).

(** The [onError] callback of the Draco loader starts the fallback loader. *)
Definition on_primary_failed (r : nat) (rq : Request) (s : State) : State :=
  put_request r (set_fallback InFlight (set_primary Failed rq))
    (record (FallbackLoad (rq_url rq)) s).

Definition on_fallback_failed (r : nat) (rq : Request) (s : State) : State :=
  reject r (clearTimeout (set_fallback Failed rq)) ErrBothLoaders s.

(** The [setTimeout] callback. *)
Definition on_timeout (r : nat) (rq : Request) (s : State) : State :=
  reject r (set_timer Fired rq) ErrTimeout s.

(** The [onProgress] callbacks write the status line when the total size
    is known ([percent] is then given). *)
Definition on_progress (fallback : bool) (percent : option Z) (s : State) : State :=
  match percent with
  | Some pc => set_statusText (TxtProgress (currentMode s) fallback pc) s
  | None => s
  end.

(** ** Preloading ([preloadModel]) *)

Definition preloadModel (mode : Z) (s : State) : State :=
  match preloadedModels s !! mode with
  | Some _ => s
  | None =>
      set_preloads (preloads s ++ [{| pl_mode := mode; pl_op := InFlight |}])
        (record (LoaderLoad (MODELS mode)) s)
  end.

Definition on_preload_loaded (k : nat) (pl : Preload) (d : Decoded) (s : State)
  : State :=
  set_preloadedModels (<[pl_mode pl := decoded_gltf d s]> (preloadedModels s))
    (set_preloads (<[k := {| pl_mode := pl_mode pl; pl_op := Done |}]> (preloads s))
       (set_nextId (S (nextId s)) s)).

Definition on_preload_failed (k : nat) (pl : Preload) (s : State) : State :=
  set_preloads (<[k := {| pl_mode := pl_mode pl; pl_op := Failed |}]> (preloads s)) s.

(** ** Mode changes and user input *)

Definition map_currentModel (f : Object3D -> Object3D) (s : State) : State :=
  match currentModel s with
  | Some m => set_currentModel (Some (f m)) s
  | None => s
  end.

Definition switchToWebMode (s : State) : State :=
  set_statusText TxtWebMode
    (map_currentModel (fun m => with_pose vec0 (quaternion m) (scale m) m)
       (set_xr (set_reticle_visible false (xr s)) (set_isARMode false s))).

Definition switchToARMode (s : State) : State := set_isARMode true s.

Definition onARSessionStart (s : State) : State :=
  set_statusText TxtARActive (switchToARMode s).

Definition onARSessionEnd (s : State) : State :=
  map_currentModel (fun m => with_pose vec0 quat_identity (scale m) m)
    (switchToWebMode s).

Definition web_scale (s : State) : Vector3 :=
  vec_uniform (if isDesktop s then 0.7 else 0.5).

Definition initializeWebMode (s : State) : State :=
  set_statusText TxtWebModeActive
    (loadModelForCurrentMode vec0 quat_identity (web_scale s)
       (set_xr (set_reticle_visible false (xr s)) (set_isARMode false s))).

Definition changeRoutine (mode : Z) (s : State) : State :=
  if mode =? currentMode s then s
  else
    let s1 := set_statusText (TxtRoutineKey mode) (set_currentMode mode s) in
    loadModelForCurrentMode vec0 quat_identity (web_scale s1) s1.

(** The [keydown] listener, installed by [setupDesktopFeatures] on a
    desktop only; keys other than 1, 2, 3 do not concern the asset slot. *)
Definition onKeyRoutine (mode : Z) (s : State) : State :=
  if isDesktop s && negb (isARMode s) && (1 <=? mode) && (mode <=? 3)
  then changeRoutine mode s
  else s.

(** The click listener of a routine button; [mode] is
    [parseInt(btn.dataset.mode, 10)], and [!mode] holds for 0. *)
Definition onButtonRoutine (mode : Z) (s : State) : State :=
  if mode =? 0 then s
  else
    let s1 := set_statusText (TxtRoutineSelected mode) (set_currentMode mode s) in
    match isARMode s1, currentModel s1 with
    | true, Some m =>
        loadModelForCurrentMode (position m) (quaternion m) (scale m) s1
    | _, _ =>
        loadModelForCurrentMode vec0 quat_identity (vec_uniform 0.5) s1
    end.

(** [cycleMode]; JavaScript's [%] is the remainder of truncated division. *)
Definition next_mode (mode : Z) : Z := Z.rem mode 3 + 1.

Definition cycleMode (s : State) : State :=
  let s1 := set_currentMode (next_mode (currentMode s)) s in
  let s2 := set_statusText (TxtCycling (currentMode s1)) s1 in
  match currentModel s2 with
  | Some m => loadModelForCurrentMode (position m) (quaternion m) (scale m) s2
  | None => s2
  end.

(** [onSelect]. *)
Definition onSelect (s : State) : State :=
  if negb (isPresenting (xr s)) then s
  else if reticle_visible (xr s) then
    let p := m_position (reticle_matrix (xr s)) in
    if distance_lt p (camera_position (xr s)) minDistance then
      set_statusText TxtTooClose s
    else if distance_gt p (camera_position (xr s)) maxDistance then
      set_statusText TxtTooFar s
    else
      let q := m_rotation (reticle_matrix (xr s)) in
      let sc := match currentModel s with
                | Some m => scale m
                | None => defaultScale
                end in
      set_statusText TxtPlaced (loadModelForCurrentMode p q sc s)
  else
    match currentModel s with
    | Some _ => cycleMode s
    | None => set_statusText TxtPointAtSurface s
    end.

(** ** The event loop *)

Inductive Event :=
(* calls made by the page *)
| Attach (p : Vector3) (q : Quaternion) (sc : Vector3)
| InitializeWebMode
| KeyRoutine (mode : Z)
| ButtonRoutine (mode : Z)
| Select
| PreloadModel (mode : Z)
| SessionStart
| SessionEnd
(* the XR runtime and the frame loop *)
| Environment (x : XR)
(* callbacks of the loaders and of the timer of request [r] *)
| PrimaryLoaded (r : nat) (d : Decoded)
| PrimaryProgress (r : nat) (percent : option Z)
| PrimaryFailed (r : nat)
| FallbackLoaded (r : nat) (d : Decoded)
| FallbackProgress (r : nat) (percent : option Z)
| FallbackFailed (r : nat)
| Timeout (r : nat)
(* callbacks of the loader of preload [k] *)
| PreloadLoaded (k : nat) (d : Decoded)
| PreloadFailed (k : nat).

Definition primary_in_flight (rq : Request) : bool :=
  match rq_primary rq with InFlight => true | _ => false end.
Definition fallback_in_flight (rq : Request) : bool :=
  match rq_fallback rq with InFlight => true | _ => false end.
Definition timer_armed (rq : Request) : bool :=
  match rq_timer rq with Armed => true | _ => false end.
Definition preload_in_flight (pl : Preload) : bool :=
  match pl_op pl with InFlight => true | _ => false end.

(** A callback of request [r] can only run while what it belongs to is
    outstanding; [None] means the event cannot happen in this state. *)
Definition on_request (r : nat) (enabled : Request -> bool)
    (k : Request -> State -> State) (s : State) : option State :=
  match requests s !! r with
  | Some rq => if enabled rq then Some (k rq s) else None
  | None => None
  end.

Definition on_preload (j : nat) (k : Preload -> State -> State) (s : State)
  : option State :=
  match preloads s !! j with
  | Some pl => if preload_in_flight pl then Some (k pl s) else None
  | None => None
  end.

Definition step (s : State) (e : Event) : option State :=
  match e with
  | Attach p q sc => Some (loadModelForCurrentMode p q sc s)
  | InitializeWebMode => Some (initializeWebMode s)
  | KeyRoutine mode => Some (onKeyRoutine mode s)
  | ButtonRoutine mode => Some (onButtonRoutine mode s)
  | Select => Some (onSelect s)
  | PreloadModel mode => Some (preloadModel mode s)
  | SessionStart => Some (onARSessionStart s)
  | SessionEnd => Some (onARSessionEnd s)
  | Environment x => Some (set_xr x s)
  | PrimaryLoaded r d =>
      on_request r primary_in_flight (fun rq => on_primary_loaded r rq d) s
  | PrimaryProgress r pc =>
      on_request r primary_in_flight (fun _ => on_progress false pc) s
  | PrimaryFailed r =>
      on_request r primary_in_flight (on_primary_failed r) s
  | FallbackLoaded r d =>
      on_request r fallback_in_flight (fun rq => on_fallback_loaded r rq d) s
  | FallbackProgress r pc =>
      on_request r fallback_in_flight (fun _ => on_progress true pc) s
  | FallbackFailed r =>
      on_request r fallback_in_flight (on_fallback_failed r) s
  | Timeout r => on_request r timer_armed (on_timeout r) s
  | PreloadLoaded k d => on_preload k (fun pl => on_preload_loaded k pl d) s
  | PreloadFailed k => on_preload k (on_preload_failed k) s
  end.

Fixpoint run (s : State) (es : list Event) : option State :=
  match es with
  | [] => Some s
  | e :: es' =>
      match step s e with
      | Some s' => run s' es'
      | None => None
      end
  end.

(** The module-level initial values. *)
Definition initial (desktop : bool) : State :=
  {| currentMode := 1; loadingModels := ∅; preloadedModels := ∅;
     currentModel := None; scene := []; isARMode := false;
     isDesktop := desktop;
     xr := {| isPresenting := false; camera_position := vec0;
              reticle_visible := false;
              reticle_matrix := {| m_position := vec0;
                                   m_rotation := quat_identity |} |};
     statusText := TxtInitial; statusClass := ClsNone;
     requests := []; preloads := []; nextId := 0%nat; calls := [] |}.

(** ** Observations used by the properties *)

Definition is_pending (rq : Request) : bool :=
  match rq_promise rq with Pending => true | _ => false end.

(** The [loadModelForCurrentMode] calls suspended at their [await]. *)
Definition pending_count (s : State) : nat :=
  length (filter (fun rq => is_pending rq = true) (requests s)).

Definition busy (s : State) : bool := negb (pending_count s =? 0)%nat.

(** The id of the attached model, if any. *)
Definition current_id (s : State) : option nat := oid <$> currentModel s.

(** A model of the scene that is not the current one, and such a model
    whose id has been given out by the object counter. *)
Definition orphan (i : nat) (s : State) : Prop :=
  In i (scene s) /\ current_id s <> Some i.

Definition stranded (i : nat) (s : State) : Prop :=
  orphan i s /\ (i < nextId s)%nat.

(** The preloaded templates are kept apart from the scene: their ids
    have been given out, and none of them is in the scene. *)
Definition templates_apart (s : State) : Prop :=
  forall mode g, preloadedModels s !! mode = Some g ->
    (oid (gltf_scene g) < nextId s)%nat
    /\ ~ In (oid (gltf_scene g)) (scene s).

(** The promise of request [r] is still pending. *)
Definition promise_pending (r : nat) (s : State) : Prop :=
  rq_promise <$> requests s !! r = Some Pending.

(** The loader calls recorded for [url], Draco and fallback alike. *)
Definition is_load_of (url : option string) (c : Call) : bool :=
  match c with
  | LoaderLoad u | FallbackLoad u => bool_decide (u = url)
  | _ => false
  end.

Definition decode_calls (url : option string) (s : State) : nat :=
  length (filter (fun c => is_load_of url c = true) (calls s)).

(** Loads of [url] by [loadModelWithTimeout] whose decoder is still running. *)
Definition in_flight_for (url : option string) (rq : Request) : bool :=
  bool_decide (rq_url rq = url)
  && (primary_in_flight rq || fallback_in_flight rq).

Definition loads_in_flight (url : option string) (s : State) : nat :=
  length (filter (fun rq => in_flight_for url rq = true) (requests s))
  + length (filter (fun pl => preload_in_flight pl = true
                              ∧ MODELS (pl_mode pl) = url) (preloads s)).

(** Every resource released so far. *)
Definition released_by (c : Call) : list ResCall :=
  match c with
  | DisposeModel _ rs => rs
  | _ => []
  end.

Definition released (s : State) : list ResCall := flat_map released_by (calls s).

(** The state in which the loader or the cache is consulted: the previous
    model is gone and the routine is flagged as loading. *)
Definition vacated (s : State) : State :=
  set_statusClass ClsLoading
    (set_statusText (TxtLoading (currentMode s))
       (set_loadingModels (<[currentMode s := true]> (loadingModels s))
          (remove_previous s))).

Arguments vacated : simpl never.

(** The three ways a [loadModelForCurrentMode] call can go. *)
Inductive LoadOutcome (p : Vector3) (q : Quaternion) (sc : Vector3) (s : State)
  : State -> Prop :=
| Dropped :
    is_loading s (currentMode s) = true ->
    LoadOutcome p q sc s s
| FromCache g :
    is_loading s (currentMode s) = false ->
    preloadedModels s !! currentMode s = Some g ->
    LoadOutcome p q sc s
      (finally (place p q sc (clone (nextId s) (gltf_scene g))
                  (gltf_animations g)
                  (set_nextId (S (nextId s)) (vacated s))))
| Started :
    is_loading s (currentMode s) = false ->
    preloadedModels s !! currentMode s = None ->
    LoadOutcome p q sc s
      (loadModelWithTimeout (MODELS (currentMode s)) p q sc (vacated s)).

(** How a state evolves in one step: object ids only grow, the scene and
    the preloaded models only gain objects numbered in the step, and a
    settled promise stays settled. *)
Definition Evolves (s s' : State) : Prop :=
  (nextId s <= nextId s')%nat
  /\ (forall j, In j (scene s') ->
                In j (scene s) \/ (nextId s <= j < nextId s')%nat)
  /\ (forall r rq, requests s !! r = Some rq ->
                   exists rq', requests s' !! r = Some rq'
                               /\ (is_pending rq = false -> is_pending rq' = false))
  /\ (forall mode g, preloadedModels s' !! mode = Some g ->
                     preloadedModels s !! mode = Some g
                     \/ (nextId s <= oid (gltf_scene g) < nextId s')%nat).



(** The invariant of the asset slot: the scene holds the current model
    and nothing else; while a load is awaited the slot is empty and the
    current routine is flagged; at most one load is awaited; every model
    that was ever added is the current one or has been removed and
    disposed; and the recorded calls respect the slot discipline. *)
Record SlotInv (s : State) : Prop := {
  inv_scene : scene s = match current_id s with
                        | Some i => [i]
                        | None => []
                        end;
  inv_busy : pending_count s <> 0%nat ->
             current_id s = None /\ is_loading s (currentMode s) = true;
  inv_one : (pending_count s <= 1)%nat;
  inv_added : forall i, In (SceneAdd i) (calls s) ->
                        current_id s = Some i
                        \/ (detached (calls s) i /\ disposed (calls s) i);
  inv_discipline : slot_discipline (calls s)
}.

(** Two states that the invariant cannot tell apart. *)
Definition same_slot (s s' : State) : Prop :=
  current_id s' = current_id s
  /\ scene s' = scene s
  /\ requests s' = requests s
  /\ calls s' = calls s
  /\ loadingModels s' = loadingModels s
  /\ currentMode s' = currentMode s.

(** The "advance to next asset" trigger: a select while presenting, with
    the cursor hidden and the model [m] attached. *)
Definition advance_trigger (s : State) (m : Object3D) : Prop :=
  isPresenting (xr s) = true
  /\ reticle_visible (xr s) = false
  /\ currentModel s = Some m.

Definition same_pose (a b : Object3D) : Prop :=
  position a = position b /\ quaternion a = quaternion b /\ scale a = scale b.

(** Going from [s] to [s'], whatever is attached afterwards stands where
    [m] stood, and a load that was started carries the pose of [m]. *)
Definition keeps_pose (m : Object3D) (s s' : State) : Prop :=
  (forall m', currentModel s' = Some m' -> same_pose m' m)
  /\ (forall rq, requests s' = requests s ++ [rq] ->
                 rq_position rq = position m
                 /\ rq_quaternion rq = quaternion m
                 /\ rq_scale rq = scale m).


(** The state in which [cycleMode] calls [loadModelForCurrentMode]: the
    next routine is selected and announced. *)
Definition advanced (s : State) : State :=
  set_statusText (TxtCycling (next_mode (currentMode s)))
    (set_currentMode (next_mode (currentMode s)) s).

(** The request a load of [url] with the pose of [m] starts. *)
Definition request_at (url : option string) (m : Object3D) : Request :=
  {| rq_url := url; rq_position := position m; rq_quaternion := quaternion m;
     rq_scale := scale m; rq_promise := Pending; rq_timer := Armed;
     rq_primary := InFlight; rq_fallback := Idle |}.

(** Going from [s] to [s'], the attachment of the next routine was
    requested with the pose of the attached model [m]: [s'] is what
    [loadModelForCurrentMode] makes of that request.  If the flag of the
    next routine is set the request is dropped, and nothing but the
    routine and the status line changes.  Otherwise [m] is removed from
    the scene and disposed, and either a clone of the preloaded template
    is added to the scene with the pose of [m], or one load of the file
    of the next routine is started, carrying the pose of [m]. *)
Definition re_requested (m : Object3D) (s s' : State) : Prop :=
  let next := next_mode (currentMode s) in
  let removed :=
    DisposeModel (oid m) (disposeModel m) :: SceneRemove (oid m) :: calls s in
  s' = loadModelForCurrentMode (position m) (quaternion m) (scale m) (advanced s)
  /\ (is_loading s next = true -> s' = advanced s)
  /\ (is_loading s next = false ->
      match preloadedModels s !! next with
      | Some g =>
          exists c, currentModel s' = Some c
                    /\ same_pose c m
                    /\ graph c = graph (gltf_scene g)
                    /\ In (oid c) (scene s')
                    /\ calls s' = SceneAdd (oid c) :: removed
                    /\ requests s' = requests s
      | None =>
          currentModel s' = None
          /\ requests s' = requests s ++ [request_at (MODELS next) m]
          /\ calls s' = LoaderLoad (MODELS next) :: removed
      end).

(** The distance a select computes:
    [position.distanceTo(camera.position)], with [position] taken from
    the reticle's matrix. *)
Definition select_distance (s : State) : float :=
  distanceTo (m_position (reticle_matrix (xr s))) (camera_position (xr s)).

(** What an accepted placement makes of [s]. *)
Definition placement (s : State) : State :=
  set_statusText TxtPlaced
    (loadModelForCurrentMode (m_position (reticle_matrix (xr s)))
       (m_rotation (reticle_matrix (xr s)))
       (match currentModel s with
        | Some m => scale m
        | None => defaultScale
        end) s).

(** A request as the callbacks of [loadModelWithTimeout] keep it: no timer
    is armed once the promise is settled, a timer that fired has rejected
    the promise, and the fallback loader runs only after the Draco loader
    has failed. *)
Definition request_ok (rq : Request) : Prop :=
  (is_pending rq = false -> rq_timer rq <> Armed)
  /\ (rq_timer rq = Fired -> rq_promise rq = Rejected)
  /\ (rq_fallback rq <> Idle -> rq_primary rq = Failed).

(** What every reachable state satisfies, whatever the order of requests
    and callbacks. *)
Record Sound (s : State) : Prop := {
  snd_attached : forall i, current_id s = Some i -> In i (scene s);
  snd_nodup : NoDup (scene s);
  snd_below : forall i, In i (scene s) -> (i < nextId s)%nat;
  snd_disposed : forall i rs, In (DisposeModel i rs) (calls s) ->
                              (i < nextId s)%nat /\ ~ In i (scene s);
  snd_once : NoDup (disposed_ids (calls s));
  snd_paired : paired (calls s);
  snd_requests : Forall request_ok (requests s)
}.

(** [n] has been given out as an object id and is not in use. *)
Definition unused (n : nat) (s : State) : Prop :=
  nextId s = S n
  /\ (forall i, In i (scene s) -> (i < n)%nat)
  /\ (forall i rs, In (DisposeModel i rs) (calls s) -> (i < n)%nat).

(** While a load is awaited, the events of [es] leave [currentMode] alone:
    no other routine is selected before the load has settled. *)
Fixpoint one_at_a_time (s : State) (es : list Event) : bool :=
  match es with
  | [] => true
  | e :: es' =>
      match step s e with
      | Some s' =>
          (negb (busy s) || (currentMode s' =? currentMode s))
          && one_at_a_time s' es'
      | None => true
      end
  end.

End Main.

(** ** Hit-test initialisation: [handleARFrame] and [initializeHitTesting]
       of main.js, and the corresponding part of [render] in app.js *)

Module HitTest.

(** Where an initialisation stands: awaiting
    [session.requestReferenceSpace], awaiting
    [session.requestHitTestSource], or finished. *)
Inductive Stage := AwaitReferenceSpace | AwaitHitTestSource | Settled.

Record Init := { in_session : nat; in_stage : Stage }.

(** Recorded calls on the XR session. *)
Inductive XRCall :=
| RequestReferenceSpace (session : nat)
| RequestHitTestSource (session : nat).

#[global] Instance XRCall_eq_dec : EqDecision XRCall.
Proof. solve_decision. Defined.

(** What [frame.getHitTestResults] and [hit.getPose] give for a frame. *)
Inductive Hits := HitsThrow | NoHit | HitWithoutPose | HitPose (m : Matrix4).

Record State := {
  hitTestSourceRequested : bool;
  hitTestSource : option nat;
  reticle_visible : bool;
  reticle_matrix : Matrix4;
  session : option nat;          (* renderer.xr.getSession() *)
  isPresenting : bool;
  isARMode : bool;
  inits : list Init;
  end_listeners : list nat;      (* one entry per 'end' listener: its session *)
  xr_calls : list XRCall         (* most recent first *)
}.

Definition set_requested (v : bool) (s : State) : State :=
  {| hitTestSourceRequested := v; hitTestSource := hitTestSource s;
     reticle_visible := reticle_visible s; reticle_matrix := reticle_matrix s;
     session := session s; isPresenting := isPresenting s;
     isARMode := isARMode s; inits := inits s;
     end_listeners := end_listeners s; xr_calls := xr_calls s |}.

Definition set_source (v : option nat) (s : State) : State :=
  {| hitTestSourceRequested := hitTestSourceRequested s; hitTestSource := v;
     reticle_visible := reticle_visible s; reticle_matrix := reticle_matrix s;
     session := session s; isPresenting := isPresenting s;
     isARMode := isARMode s; inits := inits s;
     end_listeners := end_listeners s; xr_calls := xr_calls s |}.

Definition set_reticle (v : bool) (m : Matrix4) (s : State) : State :=
  {| hitTestSourceRequested := hitTestSourceRequested s;
     hitTestSource := hitTestSource s;
     reticle_visible := v; reticle_matrix := m;
     session := session s; isPresenting := isPresenting s;
     isARMode := isARMode s; inits := inits s;
     end_listeners := end_listeners s; xr_calls := xr_calls s |}.

Definition set_session (v : option nat) (presenting ar : bool) (s : State) : State :=
  {| hitTestSourceRequested := hitTestSourceRequested s;
     hitTestSource := hitTestSource s;
     reticle_visible := reticle_visible s; reticle_matrix := reticle_matrix s;
     session := v; isPresenting := presenting;
     isARMode := ar; inits := inits s;
     end_listeners := end_listeners s; xr_calls := xr_calls s |}.

Definition set_inits (v : list Init) (s : State) : State :=
  {| hitTestSourceRequested := hitTestSourceRequested s;
     hitTestSource := hitTestSource s;
     reticle_visible := reticle_visible s; reticle_matrix := reticle_matrix s;
     session := session s; isPresenting := isPresenting s;
     isARMode := isARMode s; inits := v;
     end_listeners := end_listeners s; xr_calls := xr_calls s |}.

Definition set_listeners (v : list nat) (s : State) : State :=
  {| hitTestSourceRequested := hitTestSourceRequested s;
     hitTestSource := hitTestSource s;
     reticle_visible := reticle_visible s; reticle_matrix := reticle_matrix s;
     session := session s; isPresenting := isPresenting s;
     isARMode := isARMode s; inits := inits s;
     end_listeners := v; xr_calls := xr_calls s |}.

Definition record (c : XRCall) (s : State) : State :=
  {| hitTestSourceRequested := hitTestSourceRequested s;
     hitTestSource := hitTestSource s;
     reticle_visible := reticle_visible s; reticle_matrix := reticle_matrix s;
     session := session s; isPresenting := isPresenting s;
     isARMode := isARMode s; inits := inits s;
     end_listeners := end_listeners s; xr_calls := c :: xr_calls s |}.

Definition hide_reticle (s : State) : State :=
  set_reticle false (reticle_matrix s) s.

Inductive Event :=
| Frame (frame : option Hits)            (* the animation loop calls [render] *)
| SessionStart (k : nat)
| SessionEnd
| ReferenceSpaceResolved (i : nat)
| ReferenceSpaceRejected (i : nat)
| HitTestSourceResolved (i : nat) (source : nat)
| HitTestSourceRejected (i : nat).

Definition put_stage (i : nat) (it : Init) (st : Stage) (s : State) : State :=
  set_inits (<[i := {| in_session := in_session it; in_stage := st |}]> (inits s)) s.

Definition awaiting (st : Stage) (it : Init) : bool :=
  match st, in_stage it with
  | AwaitReferenceSpace, AwaitReferenceSpace => true
  | AwaitHitTestSource, AwaitHitTestSource => true
  | _, _ => false
  end.

Definition on_init (i : nat) (st : Stage) (k : Init -> State -> State)
    (s : State) : option State :=
  match inits s !! i with
  | Some it => if awaiting st it then Some (k it s) else None
  | None => None
  end.

(** *** main.js *)

(** [initializeHitTesting(session)] up to its first [await]. *)
Definition initializeHitTesting (k : nat) (s : State) : State :=
  set_inits (inits s ++ [{| in_session := k; in_stage := AwaitReferenceSpace |}])
    (record (RequestReferenceSpace k) s).

(** ... between the two [await]s ... *)
Definition main_reference_space (i : nat) (it : Init) (s : State) : State :=
  put_stage i it AwaitHitTestSource (record (RequestHitTestSource (in_session it)) s).

(** ... and after the second [await]. *)
Definition main_hit_test_source (source : nat) (i : nat) (it : Init) (s : State)
  : State :=
  set_requested true
    (set_listeners (end_listeners s ++ [in_session it])
       (set_source (Some source) (put_stage i it Settled s))).

(** The [catch] block of [initializeHitTesting]. *)
Definition main_rejected (i : nat) (it : Init) (s : State) : State :=
  set_requested false (put_stage i it Settled s).

(** The 'end' listener registered by [initializeHitTesting]. *)
Definition main_cleanup (s : State) : State :=
  hide_reticle (set_source None (set_requested false s)).

Definition processHitTestResults (h : Hits) (s : State) : State :=
  match h with
  | HitPose m => set_reticle true m s
  | _ => hide_reticle s
  end.

Definition handleARFrame (h : Hits) (s : State) : State :=
  let s1 := match hitTestSourceRequested s, session s with
            | false, Some k => initializeHitTesting k s
            | _, _ => s
            end in
  match hitTestSource s1 with
  | Some _ => processHitTestResults h s1
  | None => s1
  end.

(** The hit-test part of [render(timestamp, frame)]. *)
Definition main_render (frame : option Hits) (s : State) : State :=
  match frame with
  | Some h => if isPresenting s && isARMode s then handleARFrame h s else s
  | None => s
  end.

Fixpoint run_listeners (cleanup : State -> State) (k : nat) (ls : list nat)
    (s : State) : State :=
  match ls with
  | [] => s
  | l :: ls' =>
      run_listeners cleanup k ls' (if (l =? k)%nat then cleanup s else s)
  end.

(** The session ends: its 'end' listeners run, then [onARSessionEnd]
    leaves AR mode and hides the reticle. *)
Definition main_session_end (s : State) : State :=
  match session s with
  | Some k =>
      hide_reticle
        (set_session None false false
           (run_listeners main_cleanup k (end_listeners s) s))
  | None => s
  end.

Definition main_step (s : State) (e : Event) : option State :=
  match e with
  | Frame f => Some (main_render f s)
  | SessionStart k => Some (set_session (Some k) true true s)
  | SessionEnd => Some (main_session_end s)
  | ReferenceSpaceResolved i =>
      on_init i AwaitReferenceSpace (main_reference_space i) s
  | ReferenceSpaceRejected i =>
      on_init i AwaitReferenceSpace (main_rejected i) s
  | HitTestSourceResolved i src =>
      on_init i AwaitHitTestSource (main_hit_test_source src i) s
  | HitTestSourceRejected i =>
      on_init i AwaitHitTestSource (main_rejected i) s
  end.

(** *** app.js *)

Definition app_cleanup (s : State) : State :=
  set_source None (set_requested false s).

Definition app_render (frame : option Hits) (s : State) : State :=
  match frame, session s with
  | Some h, Some k =>
      let s1 :=
        if hitTestSourceRequested s then s
        else
          set_requested true
            (set_listeners (end_listeners s ++ [k])
               (set_inits
                  (inits s ++ [{| in_session := k;
                                  in_stage := AwaitReferenceSpace |}])
                  (record (RequestReferenceSpace k) s))) in
      match hitTestSource s1, h with
      | Some _, HitPose m => set_reticle true m s1
      | Some _, HitWithoutPose =>
          (* [reticle.visible = true] is assigned before
             [hit.getPose(referenceSpace).transform] throws *)
          set_reticle true (reticle_matrix s1) s1
      | Some _, NoHit => hide_reticle s1
      | _, _ => s1
      end
  | _, _ => s
  end.

Definition app_reference_space (i : nat) (it : Init) (s : State) : State :=
  put_stage i it AwaitHitTestSource (record (RequestHitTestSource (in_session it)) s).

Definition app_hit_test_source (source : nat) (i : nat) (it : Init) (s : State)
  : State :=
  set_source (Some source) (put_stage i it Settled s).

Definition app_rejected (i : nat) (it : Init) (s : State) : State :=
  put_stage i it Settled s.

Definition app_session_end (s : State) : State :=
  match session s with
  | Some k =>
      set_session None false false
        (run_listeners app_cleanup k (end_listeners s) s)
  | None => s
  end.

Definition app_step (s : State) (e : Event) : option State :=
  match e with
  | Frame f => Some (app_render f s)
  | SessionStart k => Some (set_session (Some k) true true s)
  | SessionEnd => Some (app_session_end s)
  | ReferenceSpaceResolved i =>
      on_init i AwaitReferenceSpace (app_reference_space i) s
  | ReferenceSpaceRejected i =>
      on_init i AwaitReferenceSpace (app_rejected i) s
  | HitTestSourceResolved i src =>
      on_init i AwaitHitTestSource (app_hit_test_source src i) s
  | HitTestSourceRejected i =>
      on_init i AwaitHitTestSource (app_rejected i) s
  end.

Fixpoint run (step : State -> Event -> option State) (s : State)
    (es : list Event) : option State :=
  match es with
  | [] => Some s
  | e :: es' =>
      match step s e with
      | Some s' => run step s' es'
      | None => None
      end
  end.

Definition initial : State :=
  {| hitTestSourceRequested := false; hitTestSource := None;
     reticle_visible := false;
     reticle_matrix := {| m_position := vec0; m_rotation := quat_identity |};
     session := None; isPresenting := false; isARMode := false;
     inits := []; end_listeners := []; xr_calls := [] |}.

(** How often the hit-test source of session [k] was requested. *)
Definition source_requests (k : nat) (s : State) : nat :=
  length (filter (fun c => c = RequestHitTestSource k) (xr_calls s)).

Definition reference_space_requests (k : nat) (s : State) : nat :=
  length (filter (fun c => c = RequestReferenceSpace k) (xr_calls s)).

(** The frames [hs] are rendered one after the other, nothing else
    happening in between. *)
Definition render_frames (render : option Hits -> State -> State)
    (hs : list Hits) (s : State) : State :=
  fold_left (fun s h => render (Some h) s) hs s.

(** Events of one session: it neither starts nor ends among them. *)
Definition within_session (es : list Event) : Prop :=
  Forall (fun e => match e with
                   | SessionStart _ | SessionEnd => False
                   | _ => True
                   end) es.

Definition settled (it : Init) : Prop := in_stage it = Settled.

(** Session [k] has just started: nothing is requested, no source is
    held and no initialisation of an earlier session is still awaited. *)
Definition session_opened (k : nat) (s : State) : Prop :=
  session s = Some k
  /\ hitTestSourceRequested s = false
  /\ hitTestSource s = None
  /\ Forall settled (inits s).


(** app.js during session [k]: either the flag is set and the 'end'
    listener of [k] is registered, or nothing has been requested yet. *)
Definition app_listening (k : nat) (s : State) : Prop :=
  session s = Some k
  /\ ((hitTestSourceRequested s = true /\ In k (end_listeners s))
      \/ (hitTestSourceRequested s = false /\ hitTestSource s = None
          /\ Forall settled (inits s))).

(** In an AR session [k] whose hit-test source has not been obtained. *)
Definition awaiting_source (k : nat) (s : State) : Prop :=
  session s = Some k
  /\ isPresenting s = true
  /\ isARMode s = true
  /\ hitTestSourceRequested s = false.

End HitTest.

(** ** [app.js]: [loadModel] *)

Module App.

Record Model := { obj : Object3D; visible : bool }.

(** One [loader.load] of [loadModel], with the captured [targetPos] and
    [targetQuat]. *)
Record Load := {
  ld_url : string;
  ld_position : option Vector3;
  ld_quaternion : option Quaternion;
  ld_outstanding : bool
}.

Record State := {
  currentModel : option Model;
  mixer : option (nat * Clip);   (* the root it animates and the clip played *)
  animations : list Clip;
  scene : list nat;
  reticle_visible : bool;
  reticle_matrix : Matrix4;
  loads : list Load;
  nextId : nat;
  calls : list Call
}.

Definition set_slot (m : option Model) (mx : option (nat * Clip))
    (an : list Clip) (s : State) : State :=
  {| currentModel := m; mixer := mx; animations := an; scene := scene s;
     reticle_visible := reticle_visible s; reticle_matrix := reticle_matrix s;
     loads := loads s; nextId := nextId s; calls := calls s |}.

Definition set_scene (v : list nat) (c : Call) (s : State) : State :=
  {| currentModel := currentModel s; mixer := mixer s;
     animations := animations s; scene := v;
     reticle_visible := reticle_visible s; reticle_matrix := reticle_matrix s;
     loads := loads s; nextId := nextId s; calls := c :: calls s |}.

Definition set_reticle (v : bool) (m : Matrix4) (s : State) : State :=
  {| currentModel := currentModel s; mixer := mixer s;
     animations := animations s; scene := scene s;
     reticle_visible := v; reticle_matrix := m;
     loads := loads s; nextId := nextId s; calls := calls s |}.

Definition set_loads (v : list Load) (s : State) : State :=
  {| currentModel := currentModel s; mixer := mixer s;
     animations := animations s; scene := scene s;
     reticle_visible := reticle_visible s; reticle_matrix := reticle_matrix s;
     loads := v; nextId := nextId s; calls := calls s |}.

Definition load_call (url : string) (s : State) : State :=
  {| currentModel := currentModel s; mixer := mixer s;
     animations := animations s; scene := scene s;
     reticle_visible := reticle_visible s; reticle_matrix := reticle_matrix s;
     loads := loads s; nextId := nextId s;
     calls := LoaderLoad (Some url) :: calls s |}.

Definition set_nextId (v : nat) (s : State) : State :=
  {| currentModel := currentModel s; mixer := mixer s;
     animations := animations s; scene := scene s;
     reticle_visible := reticle_visible s; reticle_matrix := reticle_matrix s;
     loads := loads s; nextId := v; calls := calls s |}.

(** [loadModel(url, position, quaternion)] up to the call of [loader.load]. *)
Definition loadModel (url : string) (p : option Vector3) (q : option Quaternion)
    (s : State) : State :=
  let s1 := match currentModel s with
            | Some m =>
                set_slot None None []
                  (set_scene (scene_remove (oid (obj m)) (scene s))
                     (SceneRemove (oid (obj m))) s)
            | None => s
            end in
  set_loads (loads s1 ++ [{| ld_url := url; ld_position := p;
                             ld_quaternion := q; ld_outstanding := true |}])
    (load_call url s1).

(** The [onLoad] callback. *)
Definition on_loaded (ld : Load) (gltf : GLTF) (s : State) : State :=
  let o := gltf_scene gltf in
  let sc := vec_uniform 0.15 in
  let m :=
    match ld_position ld with
    | Some p =>
        {| obj := with_pose p (match ld_quaternion ld with
                               | Some q => q
                               | None => quaternion o
                               end) sc o;
           visible := true |}
    | None =>
        if reticle_visible s then
          {| obj := with_pose (m_position (reticle_matrix s)) (quaternion o) sc o;
             visible := true |}
        else
          {| obj := with_pose {| vx := 0; vy := 0; vz := -1 |} (quaternion o) sc o;
             visible := false |}
    end in
  set_slot (Some m)
    (match gltf_animations gltf with
     | clip :: _ => Some (oid o, clip)
     | [] => mixer s
     end)
    (gltf_animations gltf)
    (set_scene (scene_add (oid o) (scene s)) (SceneAdd (oid o)) s).

(** The entries of [models]. *)
Inductive Pick := Pick0 | Pick1 | Pick2.

Definition models (k : Pick) : string :=
  match k with
  | Pick0 => "./model/modelo-final.glb"
  | Pick1 => "./model (2)/movimiento2.glb"
  | Pick2 => "./model (3)/movimiento3.glb"
  end.

(** The second part of [onSelect] (lines 184-193): with the reticle
    visible, the model is moved to it, or [models[0]] is loaded when there
    is no model. *)
Definition move_to_reticle (s : State) : State :=
  match reticle_visible s, currentModel s with
  | true, Some m =>
      set_slot
        (Some {| obj := with_pose (m_position (reticle_matrix s))
                          (quaternion (obj m)) (scale (obj m)) (obj m);
                 visible := true |})
        (mixer s) (animations s) s
  | true, None => loadModel (models Pick0) None None s
  | false, _ => s
  end.

(** [onSelect].  [hit] is what the raycast and [Math.random] give when
    they are consulted: [Some k] when the ray intersects the model, [k]
    being the entry of [models] that is drawn. *)
Definition onSelect (hit : option Pick) (s : State) : State :=
  match currentModel s, reticle_visible s with
  | None, false => s
  | _, _ =>
      match currentModel s, hit with
      | Some m, Some k =>
          if visible m then
            loadModel (models k) (Some (position (obj m)))
              (Some (quaternion (obj m))) s
          else move_to_reticle s
      | _, _ => move_to_reticle s
      end
  end.

Inductive Event :=
| LoadModel (url : string) (p : option Vector3) (q : option Quaternion)
| Select (hit : option Pick)
| Reticle (v : bool) (m : Matrix4)
| Loaded (r : nat) (d : Decoded)
| Failed (r : nat).

Definition settle (r : nat) (ld : Load) (s : State) : State :=
  set_loads (<[r := {| ld_url := ld_url ld; ld_position := ld_position ld;
                       ld_quaternion := ld_quaternion ld;
                       ld_outstanding := false |}]> (loads s)) s.

Definition on_load (r : nat) (k : Load -> State -> State) (s : State)
  : option State :=
  match loads s !! r with
  | Some ld => if ld_outstanding ld then Some (k ld (settle r ld s)) else None
  | None => None
  end.

Definition step (s : State) (e : Event) : option State :=
  match e with
  | LoadModel url p q => Some (loadModel url p q s)
  | Select hit => Some (onSelect hit s)
  | Reticle v m => Some (set_reticle v m s)
  | Loaded r d =>
      on_load r (fun ld s1 =>
                   on_loaded ld {| gltf_scene := fresh_object (nextId s1) d;
                                   gltf_animations := d_animations d |}
                     (set_nextId (S (nextId s1)) s1)) s
  | Failed r => on_load r (fun _ s1 => s1) s
  end.

Fixpoint run (s : State) (es : list Event) : option State :=
  match es with
  | [] => Some s
  | e :: es' =>
      match step s e with
      | Some s' => run s' es'
      | None => None
      end
  end.

Definition initial : State :=
  {| currentModel := None; mixer := None; animations := []; scene := [];
     reticle_visible := false;
     reticle_matrix := {| m_position := vec0; m_rotation := quat_identity |};
     loads := []; nextId := 0%nat; calls := [] |}.

(** The loads whose callback has not run yet. *)
Definition outstanding (s : State) : nat :=
  length (filter (fun ld => ld_outstanding ld = true) (loads s)).

Definition busy (s : State) : bool := negb (outstanding s =? 0)%nat.

Definition current_id (s : State) : option nat :=
  (fun m => oid (obj m)) <$> currentModel s.

(** The invariant of the slot in app.js: as in main.js, except that a
    replaced model is removed from the scene and never disposed. *)
Record SlotInv (s : State) : Prop := {
  inv_scene : scene s = match current_id s with
                        | Some i => [i]
                        | None => []
                        end;
  inv_busy : outstanding s <> 0%nat -> current_id s = None;
  inv_one : (outstanding s <= 1)%nat;
  inv_added : forall i, In (SceneAdd i) (calls s) ->
                        current_id s = Some i \/ detached (calls s) i;
  inv_discipline : detach_discipline (calls s);
  inv_no_dispose : forall i rs, ~ In (DisposeModel i rs) (calls s)
}.

(** What every reachable state of app.js satisfies: the current model is
    in the scene, no model is in the scene twice, ids in the scene have
    been given out, and the only calls ever made are [scene.add],
    [scene.remove] and [loader.load]. *)
Definition plain_call (c : Call) : Prop :=
  match c with
  | SceneAdd _ | SceneRemove _ | LoaderLoad (Some _) => True
  | _ => False
  end.

Record Sound (s : State) : Prop := {
  snd_attached : forall i, current_id s = Some i -> In i (scene s);
  snd_nodup : NoDup (scene s);
  snd_below : forall i, In i (scene s) -> (i < nextId s)%nat;
  snd_calls : Forall plain_call (calls s)
}.

(** A model of the scene that is not the current one. *)
Definition orphan (i : nat) (s : State) : Prop :=
  In i (scene s) /\ current_id s <> Some i.

(** The event [e] calls [loadModel] in [s]: a direct call, or a select
    that hits the visible model or finds the reticle and no model. *)
Definition calls_loadModel (s : State) (e : Event) : bool :=
  match e with
  | LoadModel _ _ _ => true
  | Select hit =>
      match currentModel s, hit with
      | Some m, Some _ => visible m
      | Some _, None => false
      | None, _ => reticle_visible s
      end
  | _ => false
  end.

(** [loadModel] is not called while a load is outstanding. *)
Fixpoint one_at_a_time (s : State) (es : list Event) : bool :=
  match es with
  | [] => true
  | e :: es' =>
      (if calls_loadModel s e then negb (busy s) else true)
      && match step s e with
         | Some s' => one_at_a_time s' es'
         | None => true
         end
  end.

End App.

(** ** The debug log of main.js ([log]) *)

Module DebugLog.

(** [logs.push(entry); if (logs.length > 10) logs.shift()], where [entry]
    is the message with the time of day in front. *)
Definition log (logs : list string) (entry : string) : list string :=
  let pushed := logs ++ [entry] in
  if (10 <? length pushed)%nat then tail pushed else pushed.

End DebugLog.

(** ** Scenarios *)

Module Scenario.
Import Main.

(** The decoded model of routine [k]: one mesh with a textured material
    (geometry 10k+7, material 10k+8, texture 10k+9), and one clip. *)
Definition robot (k : nat) : Decoded :=
  {| d_graph :=
       Group [Mesh (10 * k + 7)
                (OneMaterial {| mat_id := 10 * k + 8;
                                mat_map := Some (10 * k + 9)%nat |}) []];
     d_animations := ["walk"%string] |}.

Definition state_after (s : State) (es : list Event) : State :=
  match run s es with
  | Some s' => s'
  | None => s
  end.

(** The page has just started on a desktop: routine 1 is loading. *)
Definition starting : State := state_after (initial true) [InitializeWebMode].

(** A phone in an AR session, the three routines preloaded, routine 1
    placed at (1, 0, -2), the cursor hidden. *)
Definition presenting_hidden : XR :=
  {| isPresenting := true; camera_position := vec0; reticle_visible := false;
     reticle_matrix := {| m_position := vec0; m_rotation := quat_identity |} |}.

Definition placed_in_ar : State :=
  state_after (initial false)
    [PreloadModel 1; PreloadLoaded 0 (robot 1);
     PreloadModel 2; PreloadLoaded 1 (robot 2);
     PreloadModel 3; PreloadLoaded 2 (robot 3);
     SessionStart;
     Attach {| vx := 1; vy := 0; vz := -2 |} quat_identity (vec_uniform 0.3);
     Environment presenting_hidden].

(** The same session with the cursor on a surface at [p]. *)
Definition cursor_at (p : Vector3) : XR :=
  {| isPresenting := true; camera_position := vec0; reticle_visible := true;
     reticle_matrix := {| m_position := p; m_rotation := quat_identity |} |}.

Definition pointing_at (p : Vector3) : State :=
  state_after placed_in_ar [Environment (cursor_at p)].

(** On a desktop, routine 2 is selected while routine 1 is still loading. *)
Definition impatient : list Event := [InitializeWebMode; KeyRoutine 2].

(** ... then routine 2 arrives first, and routine 1 after it. *)
Definition racing_loads : list Event :=
  impatient ++ [PrimaryLoaded 1 (robot 2); PrimaryLoaded 0 (robot 1)].

(** ... or the load of routine 1 times out, routine 2 arrives, and
    routine 1 is selected again. *)
Definition timed_out_then_retried : list Event :=
  impatient ++ [Timeout 0; PrimaryLoaded 1 (robot 2); KeyRoutine 1].



(** Routine 1, 2 and 1 again are chosen with the buttons while the first
    load is running; routine 2 arrives; routine 1 is chosen once more. *)
Definition stale_flag : list Event :=
  [InitializeWebMode; ButtonRoutine 2; ButtonRoutine 1;
   PrimaryLoaded 1 (robot 2); ButtonRoutine 1].

(** app.js: a second model is requested before the first has arrived. *)
Definition app_racing : list App.Event :=
  [App.LoadModel "./model/modelo-final.glb" None None;
   App.LoadModel "./model (2)/movimiento2.glb" None None;
   App.Loaded 0 (robot 1); App.Loaded 1 (robot 2)].

(** app.js: a second model is requested after the first has arrived. *)
Definition app_in_turn : list App.Event :=
  [App.LoadModel "./model/modelo-final.glb" None None;
   App.Loaded 0 (robot 1);
   App.LoadModel "./model (2)/movimiento2.glb" None None;
   App.Loaded 1 (robot 2)].

Definition app_after (es : list App.Event) : App.State :=
  match App.run App.initial es with
  | Some s => s
  | None => App.initial
  end.

(** Two frames are rendered before the viewer reference space of the
    session is resolved. *)
Definition two_pending_frames : list HitTest.Event :=
  [HitTest.SessionStart 1; HitTest.Frame (Some HitTest.NoHit);
   HitTest.Frame (Some HitTest.NoHit)].

Definition hit_test_after (step : HitTest.State -> HitTest.Event -> option HitTest.State)
    (es : list HitTest.Event) : HitTest.State :=
  match HitTest.run step HitTest.initial es with
  | Some s => s
  | None => HitTest.initial
  end.

(** main.js: routine 2 is selected after routine 1 has arrived. *)
Definition in_turn : list Event :=
  [InitializeWebMode; PrimaryLoaded 0 (robot 1);
   KeyRoutine 2; PrimaryLoaded 1 (robot 2)].

End Scenario.


(** * Properties *)

(** ** Arithmetic of the distance test *)

Lemma distance_lt_min a b :
  distance_lt a b Main.minDistance = (distanceTo a b <? 0.5)%float.
Proof. reflexivity. Qed.

Lemma distance_gt_max a b :
  distance_gt a b Main.maxDistance = (10 <? distanceTo a b)%float.
Proof. reflexivity. Qed.

(** The comparisons are those of rounded doubles.  The first point lies
    at an exact distance of at least one half, and its computed distance
    is 0.49999999999999994; the second is farther than ten, and its
    computed distance is ten. *)
Lemma distance_rounded_below_min :
  distance_lt {| vx := 0.20695450163965234; vy := -0.4520307628670039;
                 vz := 0.05327310459282097 |} vec0 Main.minDistance = true.
Proof. vm_compute. reflexivity. Qed.

Lemma distance_rounded_to_max :
  distance_gt {| vx := 10; vy := 0; vz := 0x1p-30 |} vec0 Main.maxDistance = false.
Proof. vm_compute. reflexivity. Qed.

(** ** Recorded calls *)

Lemma detached_test cs i : detached cs i -> existsb (is_remove_of i) cs = true.
Proof.
  unfold detached. intros H. apply existsb_exists.
  exists (SceneRemove i). split; [assumption|]. cbn. apply Nat.eqb_refl.
Qed.

Lemma disposed_test cs i : disposed cs i -> existsb (is_dispose_of i) cs = true.
Proof.
  intros [rs H]. apply existsb_exists.
  exists (DisposeModel i rs). split; [assumption|]. cbn. apply Nat.eqb_refl.
Qed.

Lemma slot_discipline_head a rest b :
  slot_discipline (SceneAdd a :: rest) ->
  In (SceneAdd b) rest ->
  detached rest b /\ disposed rest b.
Proof. intros [H _] Hb. now apply H. Qed.

(** ** Counting with [filter] *)

Lemma filter_length_insert {A} (P : A -> Prop) `{!forall x, Decision (P x)}
    (l : list A) : forall r x y,
  l !! r = Some x ->
  (length (filter P (<[r := y]> l)) + (if decide (P x) then 1 else 0)
   = length (filter P l) + (if decide (P y) then 1 else 0))%nat.
Proof.
  induction l as [|a l IH]; intros [|r] x y Hx; try discriminate.
  - injection Hx as ->. change (<[0%nat := y]> (x :: l)) with (y :: l).
    rewrite !filter_cons.
    destruct (decide (P x)), (decide (P y)); cbn; lia.
  - change (<[S r := y]> (a :: l)) with (a :: <[r := y]> l).
    change ((a :: l) !! S r) with (l !! r) in Hx.
    rewrite !filter_cons.
    specialize (IH r x y Hx). destruct (decide (P a)); cbn; lia.
Qed.

Module MainSpec.
Import Main.

(** ** What [loadModelForCurrentMode] leaves alone *)

Lemma load_dropped p q sc s :
  is_loading s (currentMode s) = true -> loadModelForCurrentMode p q sc s = s.
Proof. intros H. unfold loadModelForCurrentMode. now rewrite H. Qed.

Lemma remove_previous_currentMode s :
  currentMode (remove_previous s) = currentMode s.
Proof. unfold remove_previous. now destruct (currentModel s). Qed.

Lemma load_currentMode p q sc s :
  currentMode (loadModelForCurrentMode p q sc s) = currentMode s.
Proof.
  unfold loadModelForCurrentMode.
  destruct (is_loading s (currentMode s)); [reflexivity|].
  cbn. destruct (preloadedModels (remove_previous s) !! _); cbn;
    apply remove_previous_currentMode.
Qed.

(** ** The three outcomes of [loadModelForCurrentMode] *)

Lemma load_cached p q sc s g :
  is_loading s (currentMode s) = false ->
  preloadedModels s !! currentMode s = Some g ->
  loadModelForCurrentMode p q sc s =
  finally (place p q sc (clone (nextId s) (gltf_scene g)) (gltf_animations g)
             (set_nextId (S (nextId s)) (vacated s))).
Proof.
  intros Hl Hg. unfold loadModelForCurrentMode, vacated. rewrite Hl.
  unfold remove_previous.
  destruct (currentModel s); cbn; rewrite Hg; reflexivity.
Qed.

Lemma load_started p q sc s :
  is_loading s (currentMode s) = false ->
  preloadedModels s !! currentMode s = None ->
  loadModelForCurrentMode p q sc s =
  loadModelWithTimeout (MODELS (currentMode s)) p q sc (vacated s).
Proof.
  intros Hl Hg. unfold loadModelForCurrentMode, vacated. rewrite Hl.
  unfold remove_previous.
  destruct (currentModel s); cbn; rewrite Hg; reflexivity.
Qed.

Lemma load_outcome p q sc s :
  LoadOutcome p q sc s (loadModelForCurrentMode p q sc s).
Proof.
  destruct (is_loading s (currentMode s)) eqn:Hl.
  - rewrite load_dropped by assumption. now constructor.
  - destruct (preloadedModels s !! currentMode s) as [g|] eqn:Hg.
    + rewrite (load_cached _ _ _ _ g) by assumption. now constructor.
    + rewrite load_started by assumption. now constructor.
Qed.

Lemma vacated_requests s : requests (vacated s) = requests s.
Proof. unfold vacated, remove_previous. now destruct (currentModel s). Qed.

Lemma vacated_currentModel s : currentModel (vacated s) = None.
Proof.
  unfold vacated, remove_previous.
  destruct (currentModel s) eqn:E; cbn; [reflexivity | assumption].
Qed.

Lemma placed_pose p q sc o an :
  position (placed p q sc o an) = p
  /\ quaternion (placed p q sc o an) = q
  /\ scale (placed p q sc o an) = sc.
Proof. unfold placed. now destruct an. Qed.

Lemma placed_oid p q sc o an : oid (placed p q sc o an) = oid o.
Proof. unfold placed. now destruct an. Qed.

Lemma placed_graph p q sc o an : graph (placed p q sc o an) = graph o.
Proof. unfold placed. now destruct an. Qed.

(** ** How a state evolves in one step *)

Lemma evolves_refl s : Evolves s s.
Proof. repeat split; [lia | tauto | eauto | tauto]. Qed.

Lemma evolves_trans s1 s2 s3 : Evolves s1 s2 -> Evolves s2 s3 -> Evolves s1 s3.
Proof.
  intros (N1 & S1 & R1 & T1) (N2 & S2 & R2 & T2). repeat split.
  - lia.
  - intros j Hj. destruct (S2 j Hj) as [H|H]; [|right; lia].
    destruct (S1 j H) as [H'|H']; [now left | right; lia].
  - intros r rq Hr. destruct (R1 r rq Hr) as (rq1 & H1 & P1).
    destruct (R2 r rq1 H1) as (rq2 & H2 & P2). eauto.
  - intros mode g Hg. destruct (T2 mode g Hg) as [H|H]; [|right; lia].
    destruct (T1 mode g H) as [H'|H']; [now left | right; lia].
Qed.

Lemma in_scene_remove j i l : In j (scene_remove i l) -> In j l.
Proof.
  unfold scene_remove. rewrite <- !list_elem_of_In, list_elem_of_filter. tauto.
Qed.

Lemma in_scene_add j i l : In j (scene_add i l) -> In j l \/ j = i.
Proof.
  unfold scene_add. rewrite in_app_iff. intros [H|[H|[]]]; [|now right].
  left. eapply in_scene_remove, H.
Qed.

Lemma vacated_nextId s : nextId (vacated s) = nextId s.
Proof. unfold vacated, remove_previous. now destruct (currentModel s). Qed.

Lemma vacated_preloadedModels s : preloadedModels (vacated s) = preloadedModels s.
Proof. unfold vacated, remove_previous. now destruct (currentModel s). Qed.

Lemma vacated_currentMode s : currentMode (vacated s) = currentMode s.
Proof. unfold vacated, remove_previous. now destruct (currentModel s). Qed.

Lemma vacated_loadingModels s :
  loadingModels (vacated s) = <[currentMode s := true]> (loadingModels s).
Proof. unfold vacated, remove_previous. now destruct (currentModel s). Qed.

Lemma vacated_scene s j : In j (scene (vacated s)) -> In j (scene s).
Proof.
  unfold vacated, remove_previous. destruct (currentModel s); cbn; [|tauto].
  apply in_scene_remove.
Qed.

Lemma evolves_load p q sc s : Evolves s (loadModelForCurrentMode p q sc s).
Proof.
  destruct (load_outcome p q sc s) as [Hl|g Hl Hg|Hl Hg].
  - apply evolves_refl.
  - repeat split; cbn.
    + lia.
    + intros j Hj.
      destruct (in_scene_add _ _ _ Hj) as [H| ->]; [|right; lia].
      left. now apply vacated_scene.
    + intros r rq Hr. rewrite vacated_requests. eauto.
    + intros mode g' Hg'. rewrite vacated_preloadedModels in Hg'. now left.
  - repeat split; cbn.
    + rewrite vacated_nextId. lia.
    + intros j Hj. left. now apply vacated_scene.
    + intros r rq Hr. rewrite vacated_requests.
      exists rq. split; [|tauto]. now apply lookup_app_l_Some.
    + intros mode g' Hg'. rewrite vacated_preloadedModels in Hg'. now left.
Qed.

Lemma evolves_put_request r rq rq' s :
  requests s !! r = Some rq ->
  (is_pending rq = false -> is_pending rq' = false) ->
  Evolves s (put_request r rq' s).
Proof.
  intros Hr Hp. repeat split; cbn; [lia | tauto | | tauto].
  intros r0 rq0 H0. destruct (decide (r = r0)) as [<-|Hne].
  - exists rq'. split.
    + apply list_lookup_insert_eq. eapply lookup_lt_Some, Hr.
    + rewrite Hr in H0. now injection H0 as <-.
  - exists rq0. split; [|tauto]. now rewrite list_lookup_insert_ne.
Qed.

Lemma evolves_resolve r rq rq' d s :
  requests s !! r = Some rq ->
  (is_pending rq = false -> is_pending rq' = false) ->
  Evolves s (resolve r rq' (decoded_gltf d s) (set_nextId (S (nextId s)) s)).
Proof.
  intros Hr Hp. unfold resolve.
  destruct (rq_promise rq') eqn:E;
    [|refine (evolves_trans _ _ _ (evolves_put_request r rq rq' s Hr Hp) _);
      repeat split; cbn; [lia | tauto | eauto | tauto]..].
  refine (evolves_trans _ _ _
            (evolves_put_request r rq (set_promise Fulfilled rq') s Hr _) _);
    [reflexivity|].
  repeat split; cbn; [lia | | eauto | tauto].
  intros j Hj. destruct (in_scene_add _ _ _ Hj) as [H| ->]; [now left|right; lia].
Qed.

Lemma evolves_reject r rq rq' e s :
  requests s !! r = Some rq ->
  (is_pending rq = false -> is_pending rq' = false) ->
  Evolves s (reject r rq' e s).
Proof.
  intros Hr Hp. unfold reject.
  destruct (rq_promise rq') eqn:E;
    [|exact (evolves_put_request r rq rq' s Hr Hp)..].
  exact (evolves_put_request r rq (set_promise Rejected rq') s Hr
           (fun _ => eq_refl)).
Qed.

Lemma map_currentModel_scene f s : scene (map_currentModel f s) = scene s.
Proof. unfold map_currentModel. now destruct (currentModel s). Qed.

Lemma map_currentModel_nextId f s : nextId (map_currentModel f s) = nextId s.
Proof. unfold map_currentModel. now destruct (currentModel s). Qed.

Lemma map_currentModel_requests f s : requests (map_currentModel f s) = requests s.
Proof. unfold map_currentModel. now destruct (currentModel s). Qed.

Lemma map_currentModel_preloadedModels f s :
  preloadedModels (map_currentModel f s) = preloadedModels s.
Proof. unfold map_currentModel. now destruct (currentModel s). Qed.

Lemma evolves_map_currentModel f s : Evolves s (map_currentModel f s).
Proof.
  unfold Evolves.
  rewrite map_currentModel_scene, map_currentModel_nextId,
    map_currentModel_requests, map_currentModel_preloadedModels.
  apply evolves_refl.
Qed.

Lemma evolves_step s e s' : step s e = Some s' -> Evolves s s'.
Proof.
  destruct e; cbn; unfold on_request, on_preload;
    try (destruct (requests s !! r) as [rq|] eqn:Hr; [|discriminate]);
    try (destruct (preloads s !! k) as [pl|] eqn:Hk; [|discriminate]);
    try match goal with |- context [if ?b then _ else _] =>
          destruct b eqn:Hb; [|discriminate] end;
    intros [= <-].
  - (* Attach *) apply evolves_load.
  - (* InitializeWebMode *)
    exact (evolves_load _ _ _
             (set_xr (set_reticle_visible false (xr s)) (set_isARMode false s))).
  - (* KeyRoutine *)
    unfold onKeyRoutine, changeRoutine.
    destruct (_ && _); [|exact (evolves_refl s)].
    destruct (mode =? currentMode s); [exact (evolves_refl s)|].
    exact (evolves_load _ _ _
             (set_statusText (TxtRoutineKey mode) (set_currentMode mode s))).
  - (* ButtonRoutine *)
    unfold onButtonRoutine.
    destruct (mode =? 0); [exact (evolves_refl s)|]. cbn.
    destruct (isARMode s), (currentModel s);
      exact (evolves_load _ _ _
               (set_statusText (TxtRoutineSelected mode)
                  (set_currentMode mode s))).
  - (* Select *)
    unfold onSelect.
    destruct (negb _); [exact (evolves_refl s)|].
    destruct (reticle_visible _).
    + destruct (distance_lt _ _ _); [exact (evolves_refl s)|].
      destruct (distance_gt _ _ _); [exact (evolves_refl s)|].
      exact (evolves_load _ _ _ s).
    + destruct (currentModel s) as [m|] eqn:Hm; [|exact (evolves_refl s)].
      unfold cycleMode. cbn. rewrite Hm.
      exact (evolves_load _ _ _
               (set_statusText (TxtCycling (next_mode (currentMode s)))
                  (set_currentMode (next_mode (currentMode s)) s))).
  - (* PreloadModel *)
    unfold preloadModel. destruct (preloadedModels s !! mode);
      [exact (evolves_refl s)|].
    repeat split; cbn; [lia | tauto | eauto | tauto].
  - (* SessionStart *) exact (evolves_refl s).
  - (* SessionEnd *)
    unfold onARSessionEnd, switchToWebMode.
    eapply evolves_trans; [|apply evolves_map_currentModel].
    exact (evolves_map_currentModel _
             (set_xr (set_reticle_visible false (xr s)) (set_isARMode false s))).
  - (* Environment *) exact (evolves_refl s).
  - (* PrimaryLoaded *)
    apply (evolves_resolve r rq); [assumption|].
    unfold clearTimeout, is_pending. cbn. now destruct (rq_timer rq).
  - (* PrimaryProgress *)
    unfold on_progress. destruct percent; exact (evolves_refl s).
  - (* PrimaryFailed *)
    unfold on_primary_failed.
    exact (evolves_put_request r rq (set_fallback InFlight (set_primary Failed rq))
             (record (FallbackLoad (rq_url rq)) s) Hr (fun H => H)).
  - (* FallbackLoaded *)
    apply (evolves_resolve r rq); [assumption|].
    unfold clearTimeout, is_pending. cbn. now destruct (rq_timer rq).
  - (* FallbackProgress *)
    unfold on_progress. destruct percent; exact (evolves_refl s).
  - (* FallbackFailed *)
    apply (evolves_reject r rq); [assumption|].
    unfold clearTimeout, is_pending. cbn. now destruct (rq_timer rq).
  - (* Timeout *)
    apply (evolves_reject r rq); [assumption|]. tauto.
  - (* PreloadLoaded *)
    repeat split; cbn; [lia | tauto | eauto |].
    intros mode g. rewrite lookup_insert. case_decide; [|tauto].
    intros [= <-]. right. cbn. lia.
  - (* PreloadFailed *)
    exact (evolves_refl s).
Qed.

Lemma run_app es1 es2 : forall s,
  run s (es1 ++ es2) =
  match run s es1 with
  | Some s' => run s' es2
  | None => None
  end.
Proof.
  induction es1 as [|e es1 IH]; intros s; [reflexivity|].
  change (run s ((e :: es1) ++ es2))
    with (match step s e with
          | Some s' => run s' (es1 ++ es2)
          | None => None
          end).
  change (run s (e :: es1))
    with (match step s e with
          | Some s' => run s' es1
          | None => None
          end).
  destruct (step s e); [apply IH | reflexivity].
Qed.

Lemma evolves_run es : forall s s', run s es = Some s' -> Evolves s s'.
Proof.
  induction es as [|e es IH]; cbn; intros s s' H.
  - injection H as <-. apply evolves_refl.
  - destruct (step s e) as [s1|] eqn:E; [|discriminate].
    eapply evolves_trans; [eapply evolves_step, E | now apply IH].
Qed.


(** ** Projections of the vacated state and of the recorded calls *)

Lemma vacated_calls_some s m :
  currentModel s = Some m ->
  calls (vacated s)
  = DisposeModel (oid m) (disposeModel m) :: SceneRemove (oid m) :: calls s.
Proof. intros H. unfold vacated, remove_previous. now rewrite H. Qed.

Lemma vacated_calls_none s :
  currentModel s = None -> calls (vacated s) = calls s.
Proof. intros H. unfold vacated, remove_previous. now rewrite H. Qed.

Lemma vacated_scene_eq s :
  scene (vacated s)
  = match currentModel s with
    | Some m => scene_remove (oid m) (scene s)
    | None => scene s
    end.
Proof. unfold vacated, remove_previous. now destruct (currentModel s). Qed.


Lemma count_cons url c cs :
  length (filter (fun c => is_load_of url c = true) (c :: cs))
  = ((if is_load_of url c then 1 else 0)
     + length (filter (fun c => is_load_of url c = true) cs))%nat.
Proof.
  rewrite filter_cons. destruct (is_load_of url c); case_decide; try done.
Qed.

Lemma vacated_decode_calls url s :
  decode_calls url (vacated s) = decode_calls url s.
Proof.
  unfold decode_calls. destruct (currentModel s) as [m|] eqn:Hm.
  - rewrite (vacated_calls_some s m Hm), !count_cons. reflexivity.
  - now rewrite vacated_calls_none.
Qed.

Lemma is_loading_insert s mode b :
  is_loading (set_loadingModels (<[mode := b]> (loadingModels s)) s) mode = b.
Proof. unfold is_loading. cbn. rewrite lookup_insert_eq. now destruct b. Qed.

Lemma not_in_scene_remove i l : ~ In i (scene_remove i l).
Proof.
  unfold scene_remove. rewrite <- list_elem_of_In, list_elem_of_filter. tauto.
Qed.


(** ** The select handler *)

Section Select.
Variable s : State.
Hypothesis presenting : isPresenting (xr s) = true.

Lemma select_too_close :
  reticle_visible (xr s) = true ->
  (select_distance s <? 0.5)%float = true ->
  onSelect s = set_statusText TxtTooClose s.
Proof.
  intros Hv Hd. unfold onSelect. rewrite presenting, Hv. cbn [negb].
  rewrite distance_lt_min. fold (select_distance s). now rewrite Hd.
Qed.

Lemma select_too_far :
  reticle_visible (xr s) = true ->
  (select_distance s <? 0.5)%float = false ->
  (10 <? select_distance s)%float = true ->
  onSelect s = set_statusText TxtTooFar s.
Proof.
  intros Hv Hlo Hhi. unfold onSelect. rewrite presenting, Hv. cbn [negb].
  rewrite distance_lt_min, distance_gt_max. fold (select_distance s).
  now rewrite Hlo, Hhi.
Qed.

Lemma select_in_range :
  reticle_visible (xr s) = true ->
  (select_distance s <? 0.5)%float = false ->
  (10 <? select_distance s)%float = false ->
  onSelect s = placement s.
Proof.
  intros Hv Hlo Hhi. unfold onSelect. rewrite presenting, Hv. cbn [negb].
  rewrite distance_lt_min, distance_gt_max. fold (select_distance s).
  now rewrite Hlo, Hhi.
Qed.

Lemma select_advances m :
  reticle_visible (xr s) = false ->
  currentModel s = Some m ->
  onSelect s =
  loadModelForCurrentMode (position m) (quaternion m) (scale m) (advanced s).
Proof.
  intros Hv Hm. unfold onSelect. rewrite presenting, Hv, Hm. cbn [negb].
  unfold cycleMode. cbn. now rewrite Hm.
Qed.
End Select.

(** C9.  A select with the cursor visible computes the distance between
    the cursor and the camera and checks it against the configured range
    before anything else.  Whenever the distance is below 0.5 the only
    effect is the "too close" status line, and whenever it is not below
    0.5 but above 10 the only effect is the "too far" status line: the
    model and its transform, the scene, the loaders, the requests and the
    flags are untouched.  In every other case the placement is handed to
    [loadModelForCurrentMode] with the cursor's position and rotation and
    the scale of the current model (or the default scale).  In
    particular a placement at distance 0.1 is rejected and one at
    distance 5.0 is accepted. *)
Theorem select_validates_distance (s : State) :
  isPresenting (xr s) = true ->
  reticle_visible (xr s) = true ->
  let d := select_distance s in
  ((d <? 0.5)%float = true -> onSelect s = set_statusText TxtTooClose s)
  /\ ((d <? 0.5)%float = false -> (10 <? d)%float = true ->
      onSelect s = set_statusText TxtTooFar s)
  /\ ((d <? 0.5)%float = false -> (10 <? d)%float = false ->
      onSelect s = placement s)
  /\ (d = 0.1%float -> onSelect s = set_statusText TxtTooClose s)
  /\ (d = 5%float -> onSelect s = placement s)
  /\ (forall txt, onSelect s = set_statusText txt s ->
        currentModel (onSelect s) = currentModel s
        /\ scene (onSelect s) = scene s
        /\ calls (onSelect s) = calls s
        /\ requests (onSelect s) = requests s
        /\ loadingModels (onSelect s) = loadingModels s
        /\ currentMode (onSelect s) = currentMode s).
Proof.
  intros Hp Hv d. repeat split.
  - now apply select_too_close.
  - now apply select_too_far.
  - now apply select_in_range.
  - intros Hd. apply select_too_close; [assumption..|].
    fold d. now rewrite Hd.
  - intros Hd. apply select_in_range; [assumption..| |];
      fold d; now rewrite Hd.
  - now rewrite H.
  - now rewrite H.
  - now rewrite H.
  - now rewrite H.
  - now rewrite H.
  - now rewrite H.
Qed.

(** C10.  A [loadModelForCurrentMode] call made while the loading flag of
    the current routine is set returns the state as it found it: the
    attached model with its transform and mixer, the scene, the flags, the
    requests and the recorded calls (no disposal, no loader call). *)
Theorem dropped_request_changes_nothing (p : Vector3) (q : Quaternion)
    (sc : Vector3) (s : State) :
  is_loading s (currentMode s) = true ->
  loadModelForCurrentMode p q sc s = s
  /\ step s (Attach p q sc) = Some s.
Proof.
  intros H. split; [|cbn; f_equal]; now apply load_dropped.
Qed.

Lemma load_keeps_pose m s :
  currentModel s = Some m ->
  keeps_pose m s (loadModelForCurrentMode (position m) (quaternion m) (scale m) s).
Proof.
  intros Hm.
  destruct (load_outcome (position m) (quaternion m) (scale m) s) as [Hl|g Hl Hg|Hl Hg].
  - split.
    + intros m' Hm'. rewrite Hm in Hm'. injection Hm' as <-. now repeat split.
    + intros rq Hrq. apply (f_equal length) in Hrq.
      rewrite length_app in Hrq. cbn in Hrq. lia.
  - split.
    + intros m' Hm'. cbn in Hm'. injection Hm' as <-. apply placed_pose.
    + intros rq Hrq. cbn in Hrq. rewrite vacated_requests in Hrq.
      apply (f_equal length) in Hrq. rewrite length_app in Hrq. cbn in Hrq. lia.
  - split.
    + intros m' Hm'. cbn in Hm'. now rewrite vacated_currentModel in Hm'.
    + intros rq Hrq. cbn in Hrq. rewrite vacated_requests in Hrq.
      apply app_inv_head in Hrq. injection Hrq as <-. now cbn.
Qed.

Lemma next_mode_cycle :
  next_mode 1 = 2 /\ next_mode 2 = 3 /\ next_mode 3 = 1.
Proof. now vm_compute. Qed.

Lemma load_re_requested s m :
  currentModel s = Some m ->
  re_requested m s
    (loadModelForCurrentMode (position m) (quaternion m) (scale m) (advanced s)).
Proof.
  intros Hm. split; [reflexivity|]. split.
  - intros Hl. now apply load_dropped.
  - intros Hl.
    assert (Hm' : currentModel (advanced s) = Some m) by exact Hm.
    destruct (preloadedModels s !! next_mode (currentMode s)) as [g|] eqn:Hg.
    + rewrite (load_cached _ _ _ (advanced s) g) by assumption.
      eexists. split; [reflexivity|].
      split; [apply placed_pose|]. split; [now rewrite placed_graph|].
      split; [|split].
      * cbn. rewrite placed_oid. unfold scene_add. rewrite in_app_iff.
        right. now left.
      * cbn. rewrite placed_oid. f_equal.
        exact (vacated_calls_some (advanced s) m Hm').
      * cbn. exact (vacated_requests (advanced s)).
    + rewrite load_started by assumption. cbn.
      rewrite vacated_currentModel, vacated_requests,
        (vacated_calls_some (advanced s) m Hm').
      now repeat split.
Qed.

Lemma advance_step s m :
  advance_trigger s m ->
  currentMode (onSelect s) = next_mode (currentMode s)
  /\ re_requested m s (onSelect s)
  /\ keeps_pose m s (onSelect s).
Proof.
  intros (Hp & Hv & Hm). rewrite (select_advances s Hp m Hv Hm). split; [|split].
  - now rewrite load_currentMode.
  - now apply load_re_requested.
  - now apply (load_keeps_pose m (advanced s)).
Qed.

(** C8.  Three "advance" triggers, each with the cursor hidden and a model
    attached, and with nothing else selecting a routine in between, take
    the current routine from 1 to 2, to 3 and back to 1.  Every one of
    them requests the attachment of the next routine with the position,
    orientation and scale of the attached model: the handler's result is
    that of [loadModelForCurrentMode] called with this pose once the next
    routine is selected; unless the request is dropped because the next
    routine is already loading, the attached model is removed and
    disposed, and either a clone of the preloaded template is attached
    with its pose or a load of the next routine's file is started that
    carries its pose. *)
Theorem three_advances_wrap_around (s1 s2 s3 : State) (m1 m2 m3 : Object3D) :
  advance_trigger s1 m1 ->
  advance_trigger s2 m2 ->
  advance_trigger s3 m3 ->
  currentMode s1 = 1 ->
  currentMode s2 = currentMode (onSelect s1) ->
  currentMode s3 = currentMode (onSelect s2) ->
  (currentMode (onSelect s1) = 2
   /\ currentMode (onSelect s2) = 3
   /\ currentMode (onSelect s3) = 1)
  /\ (re_requested m1 s1 (onSelect s1)
      /\ re_requested m2 s2 (onSelect s2)
      /\ re_requested m3 s3 (onSelect s3))
  /\ keeps_pose m1 s1 (onSelect s1)
  /\ keeps_pose m2 s2 (onSelect s2)
  /\ keeps_pose m3 s3 (onSelect s3).
Proof.
  intros T1 T2 T3 H1 H2 H3.
  destruct (advance_step _ _ T1) as (E1 & R1 & K1).
  destruct (advance_step _ _ T2) as (E2 & R2 & K2).
  destruct (advance_step _ _ T3) as (E3 & R3 & K3).
  rewrite H1 in E1. rewrite H2, E1 in E2. rewrite H3, E2 in E3.
  split; [auto|]. split; [auto|]. split; [exact K1|]. split; [exact K2|exact K3].
Qed.


Lemma select_validates_distance_witness :
  onSelect (Scenario.pointing_at {| vx := 0.1; vy := 0; vz := 0 |})
  = set_statusText TxtTooClose
      (Scenario.pointing_at {| vx := 0.1; vy := 0; vz := 0 |})
  /\ onSelect (Scenario.pointing_at {| vx := 3; vy := 0; vz := -4 |})
     = placement (Scenario.pointing_at {| vx := 3; vy := 0; vz := -4 |}).
Proof.
  split.
  - assert (Hp : isPresenting
                   (xr (Scenario.pointing_at {| vx := 0.1; vy := 0; vz := 0 |}))
                 = true) by (vm_compute; reflexivity).
    assert (Hv : reticle_visible
                   (xr (Scenario.pointing_at {| vx := 0.1; vy := 0; vz := 0 |}))
                 = true) by (vm_compute; reflexivity).
    assert (Hd : select_distance
                   (Scenario.pointing_at {| vx := 0.1; vy := 0; vz := 0 |})
                 = 0.1%float) by (vm_compute; reflexivity).
    exact (proj1 (proj2 (proj2 (proj2
             (select_validates_distance _ Hp Hv)))) Hd).
  - assert (Hp : isPresenting
                   (xr (Scenario.pointing_at {| vx := 3; vy := 0; vz := -4 |}))
                 = true) by (vm_compute; reflexivity).
    assert (Hv : reticle_visible
                   (xr (Scenario.pointing_at {| vx := 3; vy := 0; vz := -4 |}))
                 = true) by (vm_compute; reflexivity).
    assert (Hd : select_distance
                   (Scenario.pointing_at {| vx := 3; vy := 0; vz := -4 |})
                 = 5%float) by (vm_compute; reflexivity).
    exact (proj1 (proj2 (proj2 (proj2 (proj2
             (select_validates_distance _ Hp Hv))))) Hd).
Defined.

Lemma dropped_request_changes_nothing_witness :
  is_loading Scenario.starting (currentMode Scenario.starting) = true
  /\ loadModelForCurrentMode vec0 quat_identity (vec_uniform 1) Scenario.starting
     = Scenario.starting.
Proof.
  split; [reflexivity|].
  apply (dropped_request_changes_nothing vec0 quat_identity (vec_uniform 1)
           Scenario.starting).
  reflexivity.
Defined.

Lemma three_advances_wrap_around_witness :
  currentMode (onSelect (onSelect (onSelect Scenario.placed_in_ar))) = 1.
Proof.
  pose (s1 := Scenario.placed_in_ar).
  pose (s2 := onSelect s1).
  pose (s3 := onSelect s2).
  refine (match three_advances_wrap_around s1 s2 s3
                  (placed {| vx := 1; vy := 0; vz := -2 |} quat_identity
                     (vec_uniform 0.3)
                     (clone 3 (fresh_object 0 (Scenario.robot 1))) ["walk"%string])
                  (placed {| vx := 1; vy := 0; vz := -2 |} quat_identity
                     (vec_uniform 0.3)
                     (clone 4 (fresh_object 1 (Scenario.robot 2))) ["walk"%string])
                  (placed {| vx := 1; vy := 0; vz := -2 |} quat_identity
                     (vec_uniform 0.3)
                     (clone 5 (fresh_object 2 (Scenario.robot 3))) ["walk"%string])
                  _ _ _ _ _ _ with
          | conj (conj _ (conj _ H)) _ => H
          end);
    try (repeat split; vm_compute; reflexivity).
Defined.


(** ** Late decoder results *)

Lemma timeout_settles s r s' :
  step s (Timeout r) = Some s' ->
  exists rq, requests s' !! r = Some rq /\ is_pending rq = false.
Proof.
  cbn. unfold on_request.
  destruct (requests s !! r) as [rq|] eqn:Hr; [|discriminate].
  destruct (timer_armed rq); [|discriminate]. intros [= <-].
  assert (Hlt : (r < length (requests s))%nat) by (eapply lookup_lt_Some, Hr).
  unfold on_timeout, reject.
  destruct (rq_promise (set_timer Fired rq)) eqn:E; cbn;
    rewrite list_lookup_insert_eq by assumption;
    eexists; (split; [reflexivity|]); unfold is_pending; cbn;
    cbn in E; now rewrite ?E.
Qed.

(** The decoder of a settled request delivers: the object is numbered and
    dropped. *)
Lemma late_result_dropped s r rq d s' :
  requests s !! r = Some rq ->
  is_pending rq = false ->
  step s (PrimaryLoaded r d) = Some s' \/ step s (FallbackLoaded r d) = Some s' ->
  currentModel s' = currentModel s
  /\ scene s' = scene s
  /\ calls s' = calls s
  /\ loadingModels s' = loadingModels s
  /\ nextId s' = S (nextId s).
Proof.
  intros Hr Hp. cbn. unfold on_request. rewrite Hr.
  unfold on_primary_loaded, on_fallback_loaded, resolve, is_pending in *.
  intros [H|H];
    match type of H with (if ?b then _ else _) = _ =>
      destruct b; [|discriminate] end;
    injection H as <-;
    unfold clearTimeout; cbn;
    destruct (rq_timer rq); cbn; destruct (rq_promise rq);
    try discriminate; now cbn.
Qed.

Lemma scene_below_nextId desktop es s :
  run (initial desktop) es = Some s ->
  forall j, In j (scene s) -> (j < nextId s)%nat.
Proof.
  intros H j Hj. destruct (evolves_run _ _ _ H) as (_ & Hs & _ & _).
  destruct (Hs j Hj) as [[]|]. lia.
Qed.

(** C6, as amended.  Once the timeout of a load has fired, whatever its
    decoders deliver afterwards is dropped: the delivery changes neither
    the attached model, nor the scene, nor the flags, nor the recorded
    calls, and the delivered object is never in the scene later on. *)
Theorem result_after_timeout_is_discarded
    (desktop : bool) (es0 es es' : list Event) (r : nat) (d : Decoded)
    (s0 s1 s2 s3 s4 : State) :
  run (initial desktop) es0 = Some s0 ->
  step s0 (Timeout r) = Some s1 ->
  run s1 es = Some s2 ->
  step s2 (PrimaryLoaded r d) = Some s3 \/ step s2 (FallbackLoaded r d) = Some s3 ->
  run s3 es' = Some s4 ->
  currentModel s3 = currentModel s2
  /\ scene s3 = scene s2
  /\ calls s3 = calls s2
  /\ loadingModels s3 = loadingModels s2
  /\ ~ In (nextId s2) (scene s4).
Proof.
  intros H0 H1 H2 H3 H4.
  destruct (timeout_settles _ _ _ H1) as (rq1 & Hr1 & Hp1).
  destruct (evolves_run _ _ _ H2) as (_ & _ & Hreq & _).
  destruct (Hreq r rq1 Hr1) as (rq2 & Hr2 & Hp2). specialize (Hp2 Hp1).
  destruct (late_result_dropped _ _ _ _ _ Hr2 Hp2 H3) as (Hm & Hs & Hc & Hl & Hn).
  repeat (split; [assumption|]).
  intros Hin. destruct (evolves_run _ _ _ H4) as (_ & Hscene & _ & _).
  destruct (Hscene _ Hin) as [Hold|Hnew]; [|lia].
  rewrite Hs in Hold.
  assert (Hrun : run (initial desktop) (es0 ++ Timeout r :: es) = Some s2).
  { rewrite run_app, H0. change (run s0 (Timeout r :: es))
      with (match step s0 (Timeout r) with
            | Some s' => run s' es
            | None => None
            end).
    now rewrite H1. }
  pose proof (scene_below_nextId _ _ _ Hrun _ Hold). lia.
Qed.

Lemma result_after_timeout_is_discarded_witness :
  ~ In (nextId (Scenario.state_after (initial true)
                  [InitializeWebMode; Timeout 0; KeyRoutine 2]))
      (scene (Scenario.state_after (initial true)
                [InitializeWebMode; Timeout 0; KeyRoutine 2;
                 PrimaryLoaded 0 (Scenario.robot 1);
                 PrimaryLoaded 1 (Scenario.robot 2)])).
Proof.
  apply (result_after_timeout_is_discarded true
           [InitializeWebMode] [KeyRoutine 2]
           [PrimaryLoaded 1 (Scenario.robot 2)] 0 (Scenario.robot 1)
           (Scenario.state_after (initial true) [InitializeWebMode])
           (Scenario.state_after (initial true) [InitializeWebMode; Timeout 0])
           (Scenario.state_after (initial true)
              [InitializeWebMode; Timeout 0; KeyRoutine 2])
           (Scenario.state_after (initial true)
              [InitializeWebMode; Timeout 0; KeyRoutine 2;
               PrimaryLoaded 0 (Scenario.robot 1)])
           (Scenario.state_after (initial true)
              [InitializeWebMode; Timeout 0; KeyRoutine 2;
               PrimaryLoaded 0 (Scenario.robot 1);
               PrimaryLoaded 1 (Scenario.robot 2)]));
    try left; vm_compute; reflexivity.
Defined.

(** C6, as stated, fails where no timeout is involved: routine 2 was
    requested after routine 1 and has replaced the slot (model 0 is
    attached) when the decoder of routine 1 delivers; that late model is
    attached all the same, next to model 0. *)
Lemma superseded_result_is_attached :
  exists s2 s3,
    run (initial true) (Scenario.impatient ++ [PrimaryLoaded 1 (Scenario.robot 2)])
    = Some s2
    /\ current_id s2 = Some 0%nat
    /\ scene s2 = [0%nat]
    /\ step s2 (PrimaryLoaded 0 (Scenario.robot 1)) = Some s3
    /\ In (nextId s2) (scene s3)
    /\ current_id s3 = Some (nextId s2).
Proof.
  exists (Scenario.state_after (initial true)
            (Scenario.impatient ++ [PrimaryLoaded 1 (Scenario.robot 2)])).
  exists (Scenario.state_after (initial true) Scenario.racing_loads).
  split; [vm_compute; reflexivity|].
  split; [vm_compute; reflexivity|].
  split; [vm_compute; reflexivity|].
  split; [vm_compute; reflexivity|].
  split; [vm_compute; right; left; reflexivity | vm_compute; reflexivity].
Qed.

(** ** Failed loads *)

(** The request that [loadModelForCurrentMode] has just started. *)
Lemma started_request t url p q sc :
  requests (loadModelWithTimeout url p q sc t) !! length (requests t)
  = Some {| rq_url := url; rq_position := p; rq_quaternion := q;
            rq_scale := sc; rq_promise := Pending; rq_timer := Armed;
            rq_primary := InFlight; rq_fallback := Idle |}.
Proof. cbn. now apply list_lookup_middle. Qed.










(** ** The loading flag *)

(** C5: the code at its failing input.  On a desktop routine 2 is selected
    while routine 1 is loading, the load of routine 1 times out, routine
    2 arrives, and routine 1 is selected again.  The promise of routine 1
    was rejected and no load is awaited, but the [finally] block cleared
    the flag of routine 2 (the current one when it ran): the flag of
    routine 1 is still set, the new request for routine 1 issued no loader
    call, and every further request for it is dropped. *)
Theorem timeout_leaves_stale_flag :
  let s := Scenario.state_after (initial true) Scenario.timed_out_then_retried in
  run (initial true) Scenario.timed_out_then_retried = Some s
  /\ (exists rq, requests s !! 0%nat = Some rq
                 /\ rq_url rq = MODELS 1
                 /\ rq_promise rq = Rejected
                 /\ rq_timer rq = Fired)
  /\ pending_count s = 0%nat
  /\ currentMode s = 1
  /\ is_loading s 1 = true
  /\ decode_calls (MODELS 1) s = 1%nat
  /\ forall p q sc, loadModelForCurrentMode p q sc s = s.
Proof.
  intros s.
  split; [vm_compute; reflexivity|].
  split.
  { eexists. split; [vm_compute; reflexivity|].
    split; [vm_compute; reflexivity|]. split; vm_compute; reflexivity. }
  split; [vm_compute; reflexivity|].
  split; [vm_compute; reflexivity|].
  split; [vm_compute; reflexivity|].
  split; [vm_compute; reflexivity|].
  intros p q sc. apply load_dropped. vm_compute. reflexivity.
Qed.


(** ** Coalescing of requests *)

Lemma load_decodes_nothing_twice s p q sc p' q' sc' url :
  decode_calls url
    (loadModelForCurrentMode p' q' sc' (loadModelForCurrentMode p q sc s))
  = decode_calls url (loadModelForCurrentMode p q sc s).
Proof.
  destruct (load_outcome p q sc s) as [Hl|g Hl Hg|Hl Hg].
  - now rewrite load_dropped.
  - (* the first call took the model from the cache: so does the second *)
    set (s1 := finally _).
    assert (Hl1 : is_loading s1 (currentMode s1) = false).
    { unfold s1, finally, is_loading. cbn. now rewrite lookup_insert_eq. }
    assert (Hg1 : preloadedModels s1 !! currentMode s1 = Some g).
    { unfold s1. cbn. now rewrite vacated_preloadedModels, vacated_currentMode. }
    rewrite (load_cached _ _ _ s1 g Hl1 Hg1).
    unfold decode_calls at 1. cbn [calls finally place set_statusClass
      set_statusText set_currentModel record set_scene set_loadingModels
      set_nextId].
    rewrite count_cons. cbn [is_load_of Nat.add].
    apply vacated_decode_calls.
  - (* the first call started a load: the flag is set *)
    rewrite load_dropped; [reflexivity|].
    unfold is_loading. cbn.
    now rewrite vacated_currentMode, vacated_loadingModels, lookup_insert_eq.
Qed.

(** C3, as amended.  A [loadModelForCurrentMode] request made while the
    loading flag of the current routine is set issues no loader call, and
    a request repeated at once never issues one, whatever the first did;
    [preloadModel] issues none for a routine that is already preloaded. *)
Theorem flagged_request_decodes_nothing
    (s : State) (p p' : Vector3) (q q' : Quaternion) (sc sc' : Vector3)
    (url : option string) (mode : Z) :
  (is_loading s (currentMode s) = true ->
   decode_calls url (loadModelForCurrentMode p q sc s) = decode_calls url s)
  /\ decode_calls url
       (loadModelForCurrentMode p' q' sc' (loadModelForCurrentMode p q sc s))
     = decode_calls url (loadModelForCurrentMode p q sc s)
  /\ (forall g, preloadedModels s !! mode = Some g -> preloadModel mode s = s).
Proof.
  split; [|split].
  - intros H. now rewrite load_dropped.
  - apply load_decodes_nothing_twice.
  - intros g Hg. unfold preloadModel. now rewrite Hg.
Qed.

Lemma flagged_request_decodes_nothing_witness :
  decode_calls (MODELS 1)
    (loadModelForCurrentMode vec0 quat_identity (vec_uniform 1) Scenario.starting)
  = decode_calls (MODELS 1) Scenario.starting
  /\ preloadModel 1 Scenario.placed_in_ar = Scenario.placed_in_ar.
Proof.
  assert (Hl : is_loading Scenario.starting (currentMode Scenario.starting) = true)
    by (vm_compute; reflexivity).
  assert (Hg : preloadedModels Scenario.placed_in_ar !! 1
               = Some {| gltf_scene := fresh_object 0 (Scenario.robot 1);
                         gltf_animations := ["walk"%string] |})
    by (vm_compute; reflexivity).
  split.
  - exact (proj1 (flagged_request_decodes_nothing Scenario.starting vec0 vec0
                    quat_identity quat_identity (vec_uniform 1) (vec_uniform 1)
                    (MODELS 1) 1) Hl).
  - exact (proj2 (proj2 (flagged_request_decodes_nothing Scenario.placed_in_ar
                           vec0 vec0 quat_identity quat_identity
                           (vec_uniform 1) (vec_uniform 1) (MODELS 1) 1))
             _ Hg).
Defined.

(** C3, as stated, fails: [preloadModel] only looks at the cache.  On a
    phone the page starts in web mode, which requests routine 1, and then
    preloads; while the first load of routine 1 is running, preloading
    routine 1 calls the loader a second time for the same file: two loads
    are in flight. *)
Lemma preload_duplicates_load_in_flight :
  exists s1 s2,
    run (initial false) [InitializeWebMode] = Some s1
    /\ decode_calls (MODELS 1) s1 = 1%nat
    /\ loads_in_flight (MODELS 1) s1 = 1%nat
    /\ step s1 (PreloadModel 1) = Some s2
    /\ decode_calls (MODELS 1) s2 = 2%nat
    /\ loads_in_flight (MODELS 1) s2 = 2%nat.
Proof.
  exists (Scenario.state_after (initial false) [InitializeWebMode]).
  exists (Scenario.state_after (initial false) [InitializeWebMode; PreloadModel 1]).
  split; [vm_compute; reflexivity|].
  split; [vm_compute; reflexivity|].
  split; [vm_compute; reflexivity|].
  split; [vm_compute; reflexivity|].
  split; vm_compute; reflexivity.
Qed.

(** A [finally] block that runs while another routine is current clears
    the flag of a load that is still running, and the next request for
    that routine starts a second load of the same file. *)
Remark stale_flag_allows_second_load :
  let s := Scenario.state_after (initial true) Scenario.stale_flag in
  run (initial true) Scenario.stale_flag = Some s
  /\ pending_count s = 2%nat
  /\ decode_calls (MODELS 1) s = 2%nat
  /\ loads_in_flight (MODELS 1) s = 2%nat.
Proof.
  intros s.
  split; [vm_compute; reflexivity|].
  split; [vm_compute; reflexivity|].
  split; vm_compute; reflexivity.
Qed.

(** ** Clones of preloaded models *)






(** ** The slot invariant *)

Lemma slotinv_same s s' : same_slot s s' -> SlotInv s -> SlotInv s'.
Proof.
  intros (Hc & Hs & Hr & Hk & Hl & Hm) [I1 I2 I3 I4 I5].
  constructor; unfold pending_count, is_loading in *;
    rewrite ?Hc, ?Hs, ?Hr, ?Hk, ?Hl, ?Hm; assumption.
Qed.

Lemma busy_true s : busy s = true <-> pending_count s <> 0%nat.
Proof.
  unfold busy. destruct (pending_count s); cbn; split; intros H;
    congruence || lia || reflexivity.
Qed.

Lemma pending_count_vacated s : pending_count (vacated s) = pending_count s.
Proof. unfold pending_count. now rewrite vacated_requests. Qed.

Lemma pending_count_put r rq rq' s :
  requests s !! r = Some rq ->
  (pending_count (put_request r rq' s) + (if is_pending rq then 1 else 0)
   = pending_count s + (if is_pending rq' then 1 else 0))%nat.
Proof.
  intros H. unfold pending_count, put_request. cbn.
  pose proof (filter_length_insert (fun rq => is_pending rq = true)
                (requests s) r rq rq' H) as E.
  destruct (is_pending rq) eqn:E1, (is_pending rq') eqn:E2;
    repeat (destruct (decide _) in E); try congruence; lia.
Qed.

Lemma slot_discipline_skip c cs :
  (forall i, c <> SceneAdd i) ->
  slot_discipline (c :: cs) <-> slot_discipline cs.
Proof.
  intros H. unfold slot_discipline. destruct c; cbn; try tauto.
  now destruct (H id).
Qed.

Lemma added_mono (c : Call) cs i :
  detached cs i /\ disposed cs i ->
  detached (c :: cs) i /\ disposed (c :: cs) i.
Proof.
  unfold detached, disposed. intros [H1 [rs H2]]. split; [now right|].
  exists rs. now right.
Qed.

(** The state in which the loader or the cache is consulted holds no
    model, and every model added before has been removed and disposed. *)
Lemma vacated_slot s :
  SlotInv s ->
  pending_count s = 0%nat ->
  current_id (vacated s) = None
  /\ scene (vacated s) = []
  /\ (forall i, In (SceneAdd i) (calls (vacated s)) ->
                detached (calls (vacated s)) i /\ disposed (calls (vacated s)) i)
  /\ slot_discipline (calls (vacated s)).
Proof.
  intros [I1 I2 I3 I4 I5] Hp.
  split; [unfold current_id; now rewrite vacated_currentModel|].
  rewrite vacated_scene_eq. unfold current_id in *.
  destruct (currentModel s) as [m|] eqn:Hm; cbn in I1, I4.
  - rewrite (vacated_calls_some s m Hm), I1.
    split; [|split].
    + unfold scene_remove. rewrite filter_cons, decide_False by tauto.
      reflexivity.
    + intros i [H|[H|H]]; try discriminate.
      destruct (I4 i H) as [[= <-]|H'].
      * unfold detached, disposed. split; [right; now left|].
        exists (disposeModel m). now left.
      * now apply added_mono, added_mono.
    + now rewrite !slot_discipline_skip by discriminate.
  - rewrite (vacated_calls_none s Hm), I1.
    split; [reflexivity|]. split; [|assumption].
    intros i H. destruct (I4 i H) as [H'|H']; [discriminate | assumption].
Qed.

Lemma not_loading_not_busy s :
  SlotInv s -> is_loading s (currentMode s) = false -> pending_count s = 0%nat.
Proof.
  intros [_ I2 _ _ _] Hl. destruct (pending_count s) eqn:E; [reflexivity|].
  destruct I2 as [_ H]; [lia | congruence].
Qed.

Lemma slotinv_load p q sc s :
  SlotInv s -> SlotInv (loadModelForCurrentMode p q sc s).
Proof.
  intros Hinv.
  destruct (load_outcome p q sc s) as [Hl|g Hl Hg|Hl Hg]; [assumption|..];
    pose proof (not_loading_not_busy s Hinv Hl) as Hp;
    destruct (vacated_slot s Hinv Hp) as (Vc & Vs & Va & Vd).
  - constructor; unfold current_id, pending_count; cbn;
      rewrite ?placed_oid, ?vacated_requests; cbn.
    + now rewrite Vs.
    + fold (pending_count s). now rewrite Hp.
    + fold (pending_count s). lia.
    + intros i [[= <-]|H]; [now left|]. right. now apply added_mono, Va.
    + split; assumption.
  - constructor; unfold current_id, pending_count; cbn;
      rewrite ?vacated_requests, ?vacated_currentModel; cbn.
    + assumption.
    + intros _. split; [reflexivity|]. unfold is_loading. cbn.
      now rewrite vacated_currentMode, vacated_loadingModels, lookup_insert_eq.
    + rewrite filter_app, length_app. fold (pending_count s). rewrite Hp.
      rewrite filter_cons, decide_True by reflexivity. cbn. lia.
    + intros i [H|H]; [discriminate|]. right. now apply added_mono, Va.
    + assumption.
Qed.

Lemma slotinv_set_mode mode s :
  SlotInv s ->
  (pending_count s <> 0%nat -> mode = currentMode s) ->
  SlotInv (set_currentMode mode s).
Proof.
  intros [I1 I2 I3 I4 I5] H. constructor; try assumption.
  intros Hp. cbn. rewrite (H Hp). now apply I2.
Qed.

Lemma slotinv_record c s :
  (forall i, c <> SceneAdd i) -> SlotInv s -> SlotInv (record c s).
Proof.
  intros Hc [I1 I2 I3 I4 I5]. constructor; try assumption; cbn.
  - intros i [H|H]; [now destruct (Hc i)|].
    destruct (I4 i H) as [H'|H']; [now left | right; now apply added_mono].
  - now apply slot_discipline_skip.
Qed.

Lemma slotinv_put r rq rq' s :
  requests s !! r = Some rq ->
  is_pending rq' = is_pending rq ->
  SlotInv s -> SlotInv (put_request r rq' s).
Proof.
  intros Hr Hp [I1 I2 I3 I4 I5].
  pose proof (pending_count_put r rq rq' s Hr) as E. rewrite Hp in E.
  assert (E' : pending_count (put_request r rq' s) = pending_count s) by lia.
  constructor; rewrite ?E'; assumption.
Qed.

(** A promise is settled: nothing is awaited afterwards. *)
Lemma settle_last r rq rq' s :
  requests s !! r = Some rq ->
  is_pending rq = true ->
  is_pending rq' = false ->
  SlotInv s ->
  pending_count (put_request r rq' s) = 0%nat
  /\ current_id s = None /\ scene s = []
  /\ (forall i, In (SceneAdd i) (calls s) ->
                detached (calls s) i /\ disposed (calls s) i).
Proof.
  intros Hr Hp Hp' [I1 I2 I3 I4 I5].
  pose proof (pending_count_put r rq rq' s Hr) as E. rewrite Hp, Hp' in E.
  destruct I2 as [Hc _]; [lia|]. rewrite Hc in I1.
  split; [lia|]. split; [assumption|]. split; [assumption|].
  intros i H. destruct (I4 i H) as [H'|H']; [congruence | assumption].
Qed.

(** A step that the invariant cannot see. *)
Ltac unseen H := refine (slotinv_same _ _ _ H); repeat split.

Lemma slotinv_resolve r rq rq' gltf n s :
  requests s !! r = Some rq ->
  rq_promise rq' = rq_promise rq ->
  SlotInv s ->
  SlotInv (resolve r rq' gltf (set_nextId n s)).
Proof.
  intros Hr Hp Hinv. unfold resolve.
  destruct (rq_promise rq') eqn:E;
    [|apply (slotinv_put r rq rq' (set_nextId n s) Hr);
      [unfold is_pending; now rewrite <- Hp, ?E | unseen Hinv]..].
  destruct (settle_last r rq (set_promise Fulfilled rq') s Hr) as (P & C & S & A);
    [unfold is_pending; now rewrite <- Hp, ?E | reflexivity | assumption |].
  destruct Hinv as [I1 I2 I3 I4 I5].
  constructor; unfold current_id; cbn; rewrite ?placed_oid.
  - now rewrite S.
  - intros H. now destruct H.
  - change (pending_count (put_request r (set_promise Fulfilled rq') s) <= 1)%nat.
    lia.
  - intros i [[= <-]|H]; [now left|]. right. now apply added_mono, A.
  - split; assumption.
Qed.

Lemma slotinv_reject r rq rq' e s :
  requests s !! r = Some rq ->
  rq_promise rq' = rq_promise rq ->
  SlotInv s ->
  SlotInv (reject r rq' e s).
Proof.
  intros Hr Hp Hinv. unfold reject.
  destruct (rq_promise rq') eqn:E;
    [|apply (slotinv_put r rq rq' s Hr);
      [unfold is_pending; now rewrite <- Hp, ?E | exact Hinv]..].
  destruct (settle_last r rq (set_promise Rejected rq') s Hr) as (P & C & S & A);
    [unfold is_pending; now rewrite <- Hp, ?E | reflexivity | assumption |].
  destruct Hinv as [I1 I2 I3 I4 I5].
  constructor; try assumption.
  - intros H. now destruct H.
  - change (pending_count (put_request r (set_promise Rejected rq') s) <= 1)%nat.
    lia.
Qed.

Lemma slotinv_map_currentModel f s :
  (forall m, oid (f m) = oid m) ->
  SlotInv s -> SlotInv (map_currentModel f s).
Proof.
  intros Hf. apply slotinv_same. unfold same_slot, map_currentModel, current_id.
  destruct (currentModel s) as [m|] eqn:Hm; [|now rewrite Hm].
  split; [|repeat split]. cbn. unfold fmap, option_fmap, option_map.
  now rewrite Hf.
Qed.

(** A routine is selected, then requested. *)
Lemma slotinv_select_routine mode txt p q sc s :
  SlotInv s ->
  (pending_count s <> 0%nat -> mode = currentMode s) ->
  SlotInv (loadModelForCurrentMode p q sc
             (set_statusText txt (set_currentMode mode s))).
Proof.
  intros Hinv Hmode. apply slotinv_load.
  unseen (slotinv_set_mode mode s Hinv Hmode).
Qed.

Lemma slotinv_step s e s' :
  SlotInv s ->
  step s e = Some s' ->
  (busy s = true -> currentMode s' = currentMode s) ->
  SlotInv s'.
Proof.
  intros Hinv. rewrite busy_true.
  destruct e; cbn; unfold on_request, on_preload;
    try (destruct (requests s !! r) as [rq|] eqn:Hr; [|discriminate]);
    try (destruct (preloads s !! k) as [pl|] eqn:Hk; [|discriminate]);
    try match goal with |- context [if ?b then _ else _] =>
          destruct b eqn:Hb; [|discriminate] end;
    intros [= <-] Hmode.
  - (* Attach *) now apply slotinv_load.
  - (* InitializeWebMode *)
    unfold initializeWebMode.
    assert (H : SlotInv (loadModelForCurrentMode vec0 quat_identity (web_scale s)
                           (set_xr (set_reticle_visible false (xr s))
                              (set_isARMode false s))))
      by (apply slotinv_load; unseen Hinv).
    unseen H.
  - (* KeyRoutine *)
    revert Hmode. unfold onKeyRoutine, changeRoutine.
    destruct (_ && _); [|intros; assumption].
    destruct (mode =? currentMode s); [intros; assumption|].
    rewrite load_currentMode. intros Hmode.
    now apply slotinv_select_routine.
  - (* ButtonRoutine *)
    revert Hmode. unfold onButtonRoutine.
    destruct (mode =? 0); [intros; assumption|]. cbn.
    destruct (isARMode s), (currentModel s);
      rewrite load_currentMode; intros Hmode;
      now apply slotinv_select_routine.
  - (* Select *)
    revert Hmode. unfold onSelect.
    destruct (negb _); [intros; assumption|].
    destruct (reticle_visible _).
    + destruct (distance_lt _ _ _); [intros; unseen Hinv|].
      destruct (distance_gt _ _ _); [intros; unseen Hinv|].
      intros _.
      assert (H : SlotInv (loadModelForCurrentMode
                             (m_position (reticle_matrix (xr s)))
                             (m_rotation (reticle_matrix (xr s)))
                             (match currentModel s with
                              | Some m => scale m
                              | None => defaultScale
                              end) s))
        by (now apply slotinv_load).
      unseen H.
    + destruct (currentModel s) as [m|] eqn:Hm; [|intros; unseen Hinv].
      unfold cycleMode. cbn. rewrite Hm, load_currentMode. intros Hmode.
      now apply slotinv_select_routine.
  - (* PreloadModel *)
    unfold preloadModel. destruct (preloadedModels s !! mode); [assumption|].
    assert (H : SlotInv (record (LoaderLoad (MODELS mode)) s))
      by (apply slotinv_record; [discriminate | assumption]).
    unseen H.
  - (* SessionStart *) unseen Hinv.
  - (* SessionEnd *)
    unfold onARSessionEnd, switchToWebMode.
    apply slotinv_map_currentModel; [reflexivity|].
    assert (H : SlotInv (map_currentModel
                           (fun m => with_pose vec0 (quaternion m) (scale m) m)
                           (set_xr (set_reticle_visible false (xr s))
                              (set_isARMode false s))))
      by (apply slotinv_map_currentModel; [reflexivity | unseen Hinv]).
    unseen H.
  - (* Environment *) unseen Hinv.
  - (* PrimaryLoaded *)
    apply (slotinv_resolve r rq); [assumption | | assumption].
    unfold clearTimeout. cbn. now destruct (rq_timer rq).
  - (* PrimaryProgress *)
    unfold on_progress. destruct percent; [unseen Hinv | assumption].
  - (* PrimaryFailed *)
    apply (slotinv_put r rq); [assumption | reflexivity |].
    apply slotinv_record; [discriminate | assumption].
  - (* FallbackLoaded *)
    apply (slotinv_resolve r rq); [assumption | | assumption].
    unfold clearTimeout. cbn. now destruct (rq_timer rq).
  - (* FallbackProgress *)
    unfold on_progress. destruct percent; [unseen Hinv | assumption].
  - (* FallbackFailed *)
    apply (slotinv_reject r rq); [assumption | | assumption].
    unfold clearTimeout. cbn. now destruct (rq_timer rq).
  - (* Timeout *)
    apply (slotinv_reject r rq); [assumption | reflexivity | assumption].
  - (* PreloadLoaded *) unseen Hinv.
  - (* PreloadFailed *) unseen Hinv.
Qed.

Lemma slotinv_initial desktop : SlotInv (initial desktop).
Proof.
  constructor; cbn; try done.
  - unfold pending_count. cbn. lia.
Qed.

Lemma slotinv_run es : forall s s',
  SlotInv s -> run s es = Some s' -> one_at_a_time s es = true -> SlotInv s'.
Proof.
  induction es as [|e es IH]; intros s s' Hinv.
  - intros [= <-] _. assumption.
  - change (run s (e :: es))
      with (match step s e with Some s1 => run s1 es | None => None end).
    change (one_at_a_time s (e :: es))
      with (match step s e with
            | Some s1 => (negb (busy s) || (currentMode s1 =? currentMode s))
                         && one_at_a_time s1 es
            | None => true
            end).
    destruct (step s e) as [s1|] eqn:E; [|discriminate].
    intros Hrun Hd. apply andb_true_iff in Hd as [Hm Hd].
    apply (IH s1 s'); [|assumption..].
    apply (slotinv_step s e s1 Hinv E).
    intros Hb. rewrite Hb in Hm. cbn in Hm. now apply Z.eqb_eq.
Qed.


Lemma one_at_a_time_prefix es1 es2 : forall s,
  one_at_a_time s (es1 ++ es2) = true -> one_at_a_time s es1 = true.
Proof.
  induction es1 as [|e es1 IH]; intros s; [reflexivity|].
  change (one_at_a_time s ((e :: es1) ++ es2))
    with (match step s e with
          | Some s1 => (negb (busy s) || (currentMode s1 =? currentMode s))
                       && one_at_a_time s1 (es1 ++ es2)
          | None => true
          end).
  change (one_at_a_time s (e :: es1))
    with (match step s e with
          | Some s1 => (negb (busy s) || (currentMode s1 =? currentMode s))
                       && one_at_a_time s1 es1
          | None => true
          end).
  destruct (step s e); [|reflexivity].
  intros H. apply andb_true_iff in H as [H1 H2].
  apply andb_true_iff. split; [assumption | now apply IH].
Qed.


End MainSpec.

Module AppSpec.
Import App.

(** ** The slot of app.js *)

Lemma app_busy_true s : busy s = true <-> outstanding s <> 0%nat.
Proof.
  unfold busy. destruct (outstanding s); cbn; split; intros H;
    congruence || lia || reflexivity.
Qed.

Lemma detach_discipline_skip c cs :
  (forall i, c <> SceneAdd i) ->
  detach_discipline (c :: cs) <-> detach_discipline cs.
Proof.
  intros H. unfold detach_discipline. destruct c; cbn; try tauto.
  now destruct (H id).
Qed.

Lemma app_slotinv_initial : SlotInv initial.
Proof.
  constructor; cbn; try done.
  - unfold outstanding. cbn. lia.
  - intros i rs [].
Qed.

Lemma app_slotinv_loadModel url p q s :
  SlotInv s -> outstanding s = 0%nat -> SlotInv (loadModel url p q s).
Proof.
  intros [I1 I2 I3 I4 I5 I6] Hp. unfold loadModel, current_id, outstanding in *.
  destruct (currentModel s) as [m|] eqn:Hm; cbn in I1, I4.
  - constructor; unfold outstanding, current_id;
      cbn [scene currentModel loads calls set_loads load_call
           set_slot set_scene fmap option_fmap option_map].
    + rewrite I1. unfold scene_remove.
      now rewrite filter_cons, decide_False by tauto.
    + reflexivity.
    + rewrite filter_app, length_app, Hp.
      rewrite filter_cons, decide_True by reflexivity. cbn. lia.
    + intros i [H|[H|H]]; try discriminate. right.
      destruct (I4 i H) as [[= <-]|H']; unfold detached.
      * right. now left.
      * right. now right.
    + now rewrite !detach_discipline_skip by discriminate.
    + intros i rs [H|[H|H]]; try discriminate. now apply (I6 i rs).
  - constructor; unfold outstanding, current_id;
      cbn [scene currentModel loads calls set_loads load_call
           set_slot set_scene fmap option_fmap option_map];
      rewrite ?Hm;
      cbn [fmap option_fmap option_map].
    + assumption.
    + reflexivity.
    + rewrite filter_app, length_app, Hp.
      rewrite filter_cons, decide_True by reflexivity. cbn. lia.
    + intros i [H|H]; [discriminate|]. right.
      destruct (I4 i H) as [H'|H']; [discriminate|]. now right.
    + now rewrite detach_discipline_skip by discriminate.
    + intros i rs [H|H]; [discriminate|]. now apply (I6 i rs).
Qed.

Lemma outstanding_settle r ld s :
  loads s !! r = Some ld ->
  ld_outstanding ld = true ->
  (outstanding (settle r ld s) + 1 = outstanding s)%nat.
Proof.
  intros Hr Ho. unfold outstanding, settle. cbn.
  pose proof (filter_length_insert (fun ld => ld_outstanding ld = true)
                (loads s) r ld
                {| ld_url := ld_url ld; ld_position := ld_position ld;
                   ld_quaternion := ld_quaternion ld;
                   ld_outstanding := false |} Hr) as E.
  rewrite decide_True, decide_False in E by (cbn; congruence). lia.
Qed.

Lemma app_not_busy s : busy s = false -> outstanding s = 0%nat.
Proof.
  unfold busy. destruct (outstanding s); [reflexivity | discriminate].
Qed.

Lemma app_slotinv_move s m :
  SlotInv s ->
  currentModel s = Some m ->
  reticle_visible s = true ->
  SlotInv (move_to_reticle s).
Proof.
  intros Hinv Hm Hv. unfold move_to_reticle. rewrite Hv, Hm.
  destruct Hinv as [I1 I2 I3 I4 I5 I6]. unfold current_id, outstanding in *.
  rewrite Hm in *.
  constructor; unfold current_id, outstanding; cbn; assumption.
Qed.

Lemma app_slotinv_select hit s :
  SlotInv s ->
  (calls_loadModel s (Select hit) = true -> busy s = false) ->
  SlotInv (onSelect hit s).
Proof.
  intros Hinv Hd. unfold onSelect. cbn [calls_loadModel] in Hd.
  destruct (currentModel s) as [m|] eqn:Hm.
  - destruct hit as [k|].
    + destruct (visible m).
      * apply app_slotinv_loadModel; [assumption|].
        now apply app_not_busy, Hd.
      * destruct (reticle_visible s) eqn:Hv.
        -- now apply (app_slotinv_move s m).
        -- unfold move_to_reticle. now rewrite Hv.
    + destruct (reticle_visible s) eqn:Hv.
      * now apply (app_slotinv_move s m).
      * unfold move_to_reticle. now rewrite Hv.
  - destruct (reticle_visible s) eqn:Hv; [|assumption].
    assert (E : move_to_reticle s = loadModel (models Pick0) None None s)
      by (unfold move_to_reticle; now rewrite Hv, Hm).
    destruct hit; rewrite E; apply app_slotinv_loadModel; try assumption;
      now apply app_not_busy, Hd.
Qed.

Lemma app_slotinv_step s e s' :
  SlotInv s ->
  step s e = Some s' ->
  (calls_loadModel s e = true -> busy s = false) ->
  SlotInv s'.
Proof.
  intros Hinv. destruct e; cbn [step]; unfold on_load;
    try (destruct (loads s !! r) as [ld|] eqn:Hr; [|discriminate]);
    try match goal with |- context [if ?b then _ else _] =>
          destruct b eqn:Hb; [|discriminate] end;
    intros [= <-] Hd.
  - (* LoadModel *)
    apply app_slotinv_loadModel; [assumption|].
    now apply app_not_busy, Hd.
  - (* Select *)
    now apply app_slotinv_select.
  - (* Reticle *)
    destruct Hinv as [I1 I2 I3 I4 I5 I6].
    constructor; unfold current_id, outstanding; cbn; assumption.
  - (* Loaded *)
    pose proof (outstanding_settle r ld s Hr Hb) as E.
    destruct Hinv as [I1 I2 I3 I4 I5 I6].
    assert (Hc : current_id s = None) by (apply I2; lia).
    rewrite Hc in I1.
    constructor; unfold current_id; cbn.
    + destruct (ld_position ld); [|destruct (reticle_visible s)]; cbn;
        now rewrite I1.
    + intros H. exfalso. apply H.
      change (outstanding (settle r ld s) = 0%nat). lia.
    + change (outstanding (settle r ld s) <= 1)%nat. lia.
    + intros i [[= <-]|H].
      * left. destruct (ld_position ld); [|destruct (reticle_visible s)];
          reflexivity.
      * right. destruct (I4 i H) as [H'|H']; [congruence|]. now right.
    + split; [|assumption].
      intros i H. destruct (I4 i H) as [H'|H']; [congruence | assumption].
    + intros i rs [H|H]; [discriminate|]. now apply (I6 i rs).
  - (* Failed *)
    pose proof (outstanding_settle r ld s Hr Hb) as E.
    destruct Hinv as [I1 I2 I3 I4 I5 I6].
    constructor; try assumption.
    + intros _. apply I2. lia.
    + change (outstanding (settle r ld s) <= 1)%nat. lia.
Qed.

Lemma app_slotinv_run es : forall s s',
  SlotInv s -> run s es = Some s' -> one_at_a_time s es = true -> SlotInv s'.
Proof.
  induction es as [|e es IH]; intros s s' Hinv.
  - intros [= <-] _. assumption.
  - change (run s (e :: es))
      with (match step s e with Some s1 => run s1 es | None => None end).
    change (one_at_a_time s (e :: es))
      with ((if calls_loadModel s e then negb (busy s) else true)
            && match step s e with
               | Some s1 => one_at_a_time s1 es
               | None => true
               end).
    destruct (step s e) as [s1|] eqn:E; [|discriminate].
    intros Hrun Hd. apply andb_true_iff in Hd as [Hm Hd].
    apply (IH s1 s'); [|assumption..].
    apply (app_slotinv_step s e s1 Hinv E).
    intros Hc. rewrite Hc in Hm. now apply negb_true_iff.
Qed.

Lemma app_run_app es1 es2 : forall s,
  run s (es1 ++ es2) =
  match run s es1 with
  | Some s' => run s' es2
  | None => None
  end.
Proof.
  induction es1 as [|e es1 IH]; intros s; [reflexivity|].
  change (run s ((e :: es1) ++ es2))
    with (match step s e with
          | Some s' => run s' (es1 ++ es2)
          | None => None
          end).
  change (run s (e :: es1))
    with (match step s e with
          | Some s' => run s' es1
          | None => None
          end).
  destruct (step s e); [apply IH | reflexivity].
Qed.

Lemma app_one_at_a_time_prefix es1 es2 : forall s,
  one_at_a_time s (es1 ++ es2) = true -> one_at_a_time s es1 = true.
Proof.
  induction es1 as [|e es1 IH]; intros s; [reflexivity|].
  change (one_at_a_time s ((e :: es1) ++ es2))
    with ((if calls_loadModel s e then negb (busy s) else true)
          && match step s e with
             | Some s1 => one_at_a_time s1 (es1 ++ es2)
             | None => true
             end).
  change (one_at_a_time s (e :: es1))
    with ((if calls_loadModel s e then negb (busy s) else true)
          && match step s e with
             | Some s1 => one_at_a_time s1 es1
             | None => true
             end).
  intros H. apply andb_true_iff in H as [H1 H2].
  apply andb_true_iff. split; [assumption|].
  destruct (step s e); [now apply IH | reflexivity].
Qed.

End AppSpec.

(** ** One model at a time *)

Module SlotSpec.

(** C1, as amended.  main.js: as long as no other routine is selected
    while a load is awaited, the scene holds at most one model at any
    time, and whenever a model is added every model added before it has
    been removed from the scene and disposed.  app.js: as long as
    [loadModel] is not called while a load is outstanding, the scene holds
    at most one model at any time, and whenever a model is added every
    model added before it has been removed from the scene; app.js never
    disposes a model. *)
Theorem one_request_at_a_time_keeps_one_model :
  (forall desktop es1 es2 s,
      Main.run (Main.initial desktop) (es1 ++ es2) = Some s ->
      Main.one_at_a_time (Main.initial desktop) (es1 ++ es2) = true ->
      exists s1,
        Main.run (Main.initial desktop) es1 = Some s1
        /\ (length (Main.scene s1) <= 1)%nat
        /\ slot_discipline (Main.calls s1))
  /\ (forall es1 es2 s,
         App.run App.initial (es1 ++ es2) = Some s ->
         App.one_at_a_time App.initial (es1 ++ es2) = true ->
         exists s1,
           App.run App.initial es1 = Some s1
           /\ (length (App.scene s1) <= 1)%nat
           /\ detach_discipline (App.calls s1)
           /\ forall i rs, ~ In (DisposeModel i rs) (App.calls s1)).
Proof.
  split.
  - intros desktop es1 es2 s Hrun Hd.
    rewrite MainSpec.run_app in Hrun.
    destruct (Main.run (Main.initial desktop) es1) as [s1|] eqn:E1;
      [|discriminate].
    exists s1. split; [reflexivity|].
    destruct (MainSpec.slotinv_run es1 _ s1 (MainSpec.slotinv_initial desktop) E1
                (MainSpec.one_at_a_time_prefix _ _ _ Hd)) as [I1 _ _ _ I5].
    split; [|assumption].
    rewrite I1. destruct (Main.current_id s1); cbn; lia.
  - intros es1 es2 s Hrun Hd.
    rewrite AppSpec.app_run_app in Hrun.
    destruct (App.run App.initial es1) as [s1|] eqn:E1; [|discriminate].
    exists s1. split; [reflexivity|].
    destruct (AppSpec.app_slotinv_run es1 _ s1 AppSpec.app_slotinv_initial E1
                (AppSpec.app_one_at_a_time_prefix _ _ _ Hd)) as [I1 _ _ _ I5 I6].
    split; [|split; assumption].
    rewrite I1. destruct (App.current_id s1); cbn; lia.
Qed.

Lemma one_request_at_a_time_keeps_one_model_witness :
  (exists s1,
      Main.run (Main.initial true) Scenario.in_turn = Some s1
      /\ (length (Main.scene s1) <= 1)%nat
      /\ slot_discipline (Main.calls s1))
  /\ (exists s1,
         App.run App.initial Scenario.app_in_turn = Some s1
         /\ (length (App.scene s1) <= 1)%nat
         /\ detach_discipline (App.calls s1)
         /\ forall i rs, ~ In (DisposeModel i rs) (App.calls s1)).
Proof.
  split.
  - apply (proj1 one_request_at_a_time_keeps_one_model true Scenario.in_turn []
             (Scenario.state_after (Main.initial true) Scenario.in_turn));
      vm_compute; reflexivity.
  - apply (proj2 one_request_at_a_time_keeps_one_model Scenario.app_in_turn []
             (Scenario.app_after Scenario.app_in_turn));
      vm_compute; reflexivity.
Defined.

(** C1, as stated, fails.  main.js: routine 2 is selected while routine 1
    is loading, and both arrive: two models are in the scene, and the
    first was neither removed nor disposed when the second was added.
    app.js: the same with two [loadModel] calls; and even when the calls
    come one after the other, the replaced model is not disposed. *)
Lemma overlapping_requests_attach_two_models :
  (exists s,
      Main.run (Main.initial true) Scenario.racing_loads = Some s
      /\ Main.scene s = [0%nat; 1%nat]
      /\ ~ slot_discipline (Main.calls s))
  /\ (exists s,
         App.run App.initial Scenario.app_racing = Some s
         /\ App.scene s = [0%nat; 1%nat])
  /\ (exists s,
         App.run App.initial Scenario.app_in_turn = Some s
         /\ App.one_at_a_time App.initial Scenario.app_in_turn = true
         /\ ~ slot_discipline (App.calls s)).
Proof.
  split; [|split].
  - exists (Scenario.state_after (Main.initial true) Scenario.racing_loads).
    split; [vm_compute; reflexivity|]. split; [vm_compute; reflexivity|].
    intros H.
    assert (E : Main.calls (Scenario.state_after (Main.initial true)
                              Scenario.racing_loads)
                = SceneAdd 1
                    :: tl (Main.calls (Scenario.state_after (Main.initial true)
                                         Scenario.racing_loads)))
      by (vm_compute; reflexivity).
    rewrite E in H.
    destruct (slot_discipline_head _ _ 0%nat H) as [Hd _];
      [vm_compute; tauto|].
    apply detached_test in Hd. revert Hd. vm_compute. discriminate.
  - exists (Scenario.app_after Scenario.app_racing).
    split; vm_compute; reflexivity.
  - exists (Scenario.app_after Scenario.app_in_turn).
    split; [vm_compute; reflexivity|]. split; [vm_compute; reflexivity|].
    intros H.
    assert (E : App.calls (Scenario.app_after Scenario.app_in_turn)
                = SceneAdd 1
                    :: tl (App.calls (Scenario.app_after Scenario.app_in_turn)))
      by (vm_compute; reflexivity).
    rewrite E in H.
    destruct (slot_discipline_head _ _ 0%nat H) as [_ Hd];
      [vm_compute; tauto|].
    apply disposed_test in Hd. revert Hd. vm_compute. discriminate.
Qed.

End SlotSpec.

(** ** Hit-test initialisation *)

Module HitTestSpec.
Import HitTest.

(** C7: the code at its failing input.  In main.js the flag
    [hitTestSourceRequested] is set only after both [await]s of
    [initializeHitTesting]; two frames rendered before the reference
    space is resolved start two initialisations, and each of them requests
    a hit-test source of the session.  app.js sets the flag in the frame
    that issues the request: on the same frames it requests once, and
    there is no second initialisation to resolve. *)
Theorem main_requests_source_for_each_pending_frame :
  let resolved := Scenario.two_pending_frames
                  ++ [ReferenceSpaceResolved 0; ReferenceSpaceResolved 1] in
  let s := Scenario.hit_test_after main_step resolved in
  let a := Scenario.hit_test_after app_step
             (Scenario.two_pending_frames ++ [ReferenceSpaceResolved 0]) in
  run main_step initial resolved = Some s
  /\ reference_space_requests 1 s = 2%nat
  /\ source_requests 1 s = 2%nat
  /\ hitTestSourceRequested s = false
  /\ run app_step initial
       (Scenario.two_pending_frames ++ [ReferenceSpaceResolved 0]) = Some a
  /\ reference_space_requests 1 a = 1%nat
  /\ source_requests 1 a = 1%nat
  /\ hitTestSourceRequested a = true
  /\ app_step a (ReferenceSpaceResolved 1) = None.
Proof.
  intros resolved s a.
  split; [vm_compute; reflexivity|].
  split; [vm_compute; reflexivity|].
  split; [vm_compute; reflexivity|].
  split; [vm_compute; reflexivity|].
  split; [vm_compute; reflexivity|].
  split; [vm_compute; reflexivity|].
  split; [vm_compute; reflexivity|].
  split; vm_compute; reflexivity.
Qed.

End HitTestSpec.

(** ** What holds of every reachable state of main.js *)

Module MainInvariants.
Import Main.

(** *** Changes that [Sound] cannot see *)

Lemma sound_set_currentMode v s : Sound s -> Sound (set_currentMode v s).
Proof. intros [A B C D E F G]. constructor; assumption. Qed.

Lemma sound_set_loadingModels v s : Sound s -> Sound (set_loadingModels v s).
Proof. intros [A B C D E F G]. constructor; assumption. Qed.

Lemma sound_set_preloadedModels v s : Sound s -> Sound (set_preloadedModels v s).
Proof. intros [A B C D E F G]. constructor; assumption. Qed.

Lemma sound_set_isARMode v s : Sound s -> Sound (set_isARMode v s).
Proof. intros [A B C D E F G]. constructor; assumption. Qed.

Lemma sound_set_xr v s : Sound s -> Sound (set_xr v s).
Proof. intros [A B C D E F G]. constructor; assumption. Qed.

Lemma sound_set_statusText v s : Sound s -> Sound (set_statusText v s).
Proof. intros [A B C D E F G]. constructor; assumption. Qed.

Lemma sound_set_statusClass v s : Sound s -> Sound (set_statusClass v s).
Proof. intros [A B C D E F G]. constructor; assumption. Qed.

Lemma sound_set_preloads v s : Sound s -> Sound (set_preloads v s).
Proof. intros [A B C D E F G]. constructor; assumption. Qed.

Lemma sound_finally s : Sound s -> Sound (finally s).
Proof. apply sound_set_loadingModels. Qed.

Lemma sound_catch e s : Sound s -> Sound (catch e s).
Proof. intros H. now apply sound_set_statusClass, sound_set_statusText. Qed.

Create HintDb sound.
#[local] Hint Resolve sound_set_currentMode sound_set_loadingModels
  sound_set_preloadedModels sound_set_isARMode sound_set_xr
  sound_set_statusText sound_set_statusClass sound_set_preloads
  sound_finally sound_catch : sound.

(** *** The operations on the slot *)

Lemma sound_bump n s : Sound s -> (nextId s <= n)%nat -> Sound (set_nextId n s).
Proof.
  intros [A B C D E F G] Hn. constructor; try assumption; cbn.
  - intros i Hi. specialize (C i Hi). lia.
  - intros i rs Hi. destruct (D i rs Hi). split; [lia | assumption].
Qed.

Lemma sound_loader_call c s :
  (exists u, c = LoaderLoad u \/ c = FallbackLoad u) ->
  Sound s -> Sound (record c s).
Proof.
  intros [u Hc] [A B C D E F G]. constructor; try assumption; cbn.
  - intros i rs [H|H]; [destruct Hc; congruence | exact (D i rs H)].
  - destruct Hc as [-> | ->]; assumption.
  - destruct Hc as [-> | ->]; assumption.
Qed.

Lemma in_disposed_ids i cs :
  In i (disposed_ids cs) -> exists rs, In (DisposeModel i rs) cs.
Proof.
  unfold disposed_ids. rewrite in_flat_map. intros (c & Hc & Hi).
  destruct c; cbn in Hi; try tauto. destruct Hi as [<-|[]]. eauto.
Qed.

Lemma sound_remove_previous s : Sound s -> Sound (remove_previous s).
Proof.
  intros [A B C D E F G]. unfold remove_previous.
  destruct (currentModel s) as [m|] eqn:Hm; [|now constructor].
  assert (Hin : In (oid m) (scene s))
    by (apply A; unfold current_id; now rewrite Hm).
  constructor; cbn.
  - discriminate.
  - now apply NoDup_filter.
  - intros i Hi. apply C. eapply MainSpec.in_scene_remove, Hi.
  - intros i rs [[= <- <-]|[H|H]]; try discriminate.
    + split; [now apply C | apply MainSpec.not_in_scene_remove].
    + destruct (D i rs H) as [H1 H2]. split; [assumption|].
      intros Hi. apply H2. eapply MainSpec.in_scene_remove, Hi.
  - apply NoDup_cons. split; [|assumption].
    rewrite list_elem_of_In. intros Hi.
    destruct (in_disposed_ids _ _ Hi) as [rs Hrs].
    now destruct (D _ _ Hrs).
  - now split.
  - assumption.
Qed.

Lemma sound_vacated s : Sound s -> Sound (vacated s).
Proof.
  intros H. unfold vacated.
  now apply sound_set_statusClass, sound_set_statusText,
    sound_set_loadingModels, sound_remove_previous.
Qed.

Lemma unused_bump s : Sound s -> unused (nextId s) (set_nextId (S (nextId s)) s).
Proof.
  intros [A B C D E F G]. repeat split; cbn; [exact C|].
  intros i rs H. now destruct (D i rs H).
Qed.

Lemma sound_place p q sc o an s :
  Sound s -> unused (oid o) s -> Sound (place p q sc o an s).
Proof.
  intros [A B C D E F G] (Hn & Hs & Hd).
  constructor; unfold current_id; cbn; rewrite ?MainSpec.placed_oid;
    try assumption.
  - intros i [= <-]. unfold scene_add. rewrite in_app_iff. right. now left.
  - unfold scene_add. apply NoDup_app. split; [now apply NoDup_filter|].
    split; [|apply NoDup_singleton].
    intros x Hx. apply list_elem_of_filter in Hx as [Hx _].
    rewrite list_elem_of_In. intros [Heq|[]]. now apply Hx.
  - intros i Hi. destruct (MainSpec.in_scene_add _ _ _ Hi) as [H|Heq]; [|lia].
    specialize (Hs i H). lia.
  - intros i rs [H|H]; [discriminate|]. specialize (Hd i rs H).
    split; [lia|]. intros Hi.
    destruct (MainSpec.in_scene_add _ _ _ Hi) as [H'|Heq]; [|lia].
    now destruct (D i rs H).
Qed.

Lemma sound_put r rq s :
  Sound s -> request_ok rq -> Sound (put_request r rq s).
Proof.
  intros [A B C D E F G] Hrq. constructor; try assumption.
  cbn. now apply Forall_insert.
Qed.

Lemma unused_put n r rq s : unused n s -> unused n (put_request r rq s).
Proof. intros H. exact H. Qed.

Lemma sound_started url p q sc s :
  Sound s -> Sound (loadModelWithTimeout url p q sc s).
Proof.
  intros Hs.
  assert (H : Sound (record (LoaderLoad url) s))
    by (apply sound_loader_call; eauto).
  destruct H as [A B C D E F G]. constructor; [exact A | exact B | exact C
    | exact D | exact E | exact F |].
  change (Forall request_ok
            (requests s ++
               [{| rq_url := url; rq_position := p; rq_quaternion := q;
                   rq_scale := sc; rq_promise := Pending; rq_timer := Armed;
                   rq_primary := InFlight; rq_fallback := Idle |}])).
  apply Forall_app. split; [exact G|].
  constructor; [|constructor].
  split; [|split]; cbn; congruence.
Qed.

Lemma sound_load p q sc s : Sound s -> Sound (loadModelForCurrentMode p q sc s).
Proof.
  intros Hs. destruct (MainSpec.load_outcome p q sc s) as [Hl|g Hl Hg|Hl Hg];
    [assumption|..]; pose proof (sound_vacated s Hs) as Hv.
  - apply sound_finally, sound_place.
    + apply sound_bump; [assumption|]. rewrite MainSpec.vacated_nextId. lia.
    + rewrite <- (MainSpec.vacated_nextId s). now apply unused_bump.
  - now apply sound_started.
Qed.

Lemma request_ok_settled rq :
  rq_timer rq <> Armed ->
  (rq_timer rq = Fired -> rq_promise rq = Rejected) ->
  (rq_fallback rq <> Idle -> rq_primary rq = Failed) ->
  request_ok rq.
Proof. intros T1 T2 T3. split; [intros _; exact T1 | split; assumption]. Qed.

Lemma sound_resolve r rq' d s :
  Sound s ->
  rq_timer rq' <> Armed ->
  (rq_timer rq' = Fired -> rq_promise rq' = Rejected) ->
  (rq_fallback rq' <> Idle -> rq_primary rq' = Failed) ->
  Sound (resolve r rq' (decoded_gltf d s) (set_nextId (S (nextId s)) s)).
Proof.
  intros Hs T1 T2 T3. unfold resolve.
  assert (Hb : Sound (set_nextId (S (nextId s)) s))
    by (apply sound_bump; [assumption | lia]).
  destruct (rq_promise rq') eqn:E.
  - unfold resume_loaded. apply sound_finally, sound_place.
    + apply sound_put; [assumption|].
      apply request_ok_settled; [exact T1 | | exact T3].
      intros Hf. specialize (T2 Hf). congruence.
    + apply unused_put. exact (unused_bump s Hs).
  - apply sound_put; [assumption|]. apply request_ok_settled; try assumption.
    now rewrite E.
  - apply sound_put; [assumption|]. apply request_ok_settled; try assumption.
    now rewrite E.
Qed.

Lemma sound_reject r rq' e s :
  Sound s ->
  rq_timer rq' <> Armed ->
  (rq_promise rq' <> Pending -> rq_timer rq' = Fired -> rq_promise rq' = Rejected) ->
  (rq_fallback rq' <> Idle -> rq_primary rq' = Failed) ->
  Sound (reject r rq' e s).
Proof.
  intros Hs T1 T2 T3. unfold reject.
  destruct (rq_promise rq') eqn:E.
  - unfold resume_failed. apply sound_finally, sound_catch, sound_put;
      [assumption|]. now apply request_ok_settled.
  - apply sound_put; [assumption|]. apply request_ok_settled; try assumption.
    rewrite E. intros Hf. apply T2; [congruence | assumption].
  - apply sound_put; [assumption|]. apply request_ok_settled; try assumption.
    now rewrite E.
Qed.

Lemma sound_map_currentModel f s :
  (forall m, oid (f m) = oid m) -> Sound s -> Sound (map_currentModel f s).
Proof.
  intros Hf [A B C D E F G]. unfold map_currentModel.
  destruct (currentModel s) as [m|] eqn:Hm; [|now constructor].
  constructor; try assumption.
  unfold current_id in *. rewrite Hm in A. cbn in *. now rewrite Hf.
Qed.

Lemma sound_step s e s' : Sound s -> step s e = Some s' -> Sound s'.
Proof.
  intros Hs.
  destruct e; cbn [step]; unfold on_request, on_preload;
    try (destruct (requests s !! r) as [rq|] eqn:Hr; [|discriminate];
         pose proof (Forall_lookup_1 _ _ _ _ (snd_requests s Hs) Hr)
           as (R1 & R2 & R3));
    try (destruct (preloads s !! k) as [pl|] eqn:Hk; [|discriminate]);
    try match goal with |- context [if ?b then _ else _] =>
          destruct b eqn:Hb; [|discriminate] end;
    intros [= <-].
  - (* Attach *) now apply sound_load.
  - (* InitializeWebMode *)
    unfold initializeWebMode. apply sound_set_statusText, sound_load.
    auto with sound.
  - (* KeyRoutine *)
    unfold onKeyRoutine, changeRoutine.
    destruct (_ && _); [|assumption].
    destruct (mode =? currentMode s); [assumption|].
    apply sound_load. auto with sound.
  - (* ButtonRoutine *)
    unfold onButtonRoutine.
    destruct (mode =? 0); [assumption|]. cbn.
    destruct (isARMode s), (currentModel s); apply sound_load; auto with sound.
  - (* Select *)
    unfold onSelect.
    destruct (negb _); [assumption|].
    destruct (reticle_visible _).
    + destruct (distance_lt _ _ _); [auto with sound|].
      destruct (distance_gt _ _ _); [auto with sound|].
      apply sound_set_statusText. now apply sound_load.
    + destruct (currentModel s) as [m|] eqn:Hm; [|auto with sound].
      unfold cycleMode. cbn. rewrite Hm. apply sound_load. auto with sound.
  - (* PreloadModel *)
    unfold preloadModel. destruct (preloadedModels s !! mode); [assumption|].
    apply sound_set_preloads, sound_loader_call; eauto.
  - (* SessionStart *)
    unfold onARSessionStart, switchToARMode. auto with sound.
  - (* SessionEnd *)
    unfold onARSessionEnd, switchToWebMode.
    apply sound_map_currentModel; [reflexivity|].
    apply sound_set_statusText, sound_map_currentModel; [reflexivity|].
    auto with sound.
  - (* Environment *) auto with sound.
  - (* PrimaryLoaded *)
    unfold on_primary_loaded.
    apply sound_resolve; try assumption;
      unfold clearTimeout; cbn; destruct (rq_timer rq) eqn:Ht; cbn;
      try congruence; auto;
      intros Hf; exfalso; specialize (R3 Hf);
      unfold primary_in_flight in Hb; rewrite R3 in Hb; discriminate.
  - (* PrimaryProgress *)
    unfold on_progress. destruct percent; auto with sound.
  - (* PrimaryFailed *)
    unfold on_primary_failed.
    apply sound_put; [apply sound_loader_call; eauto|].
    repeat split; cbn; auto.
  - (* FallbackLoaded *)
    unfold on_fallback_loaded.
    apply sound_resolve; try assumption;
      unfold clearTimeout; cbn; destruct (rq_timer rq) eqn:Ht; cbn;
      try congruence; auto; intros _; apply R3;
      unfold fallback_in_flight in Hb; destruct (rq_fallback rq);
      congruence.
  - (* FallbackProgress *)
    unfold on_progress. destruct percent; auto with sound.
  - (* FallbackFailed *)
    unfold on_fallback_failed.
    apply sound_reject; try assumption;
      unfold clearTimeout; cbn; destruct (rq_timer rq) eqn:Ht; cbn;
      try congruence; auto; intros _; apply R3;
      unfold fallback_in_flight in Hb; destruct (rq_fallback rq);
      congruence.
  - (* Timeout *)
    unfold on_timeout.
    apply sound_reject; try assumption; cbn; try congruence.
    intros Hp _. exfalso. apply R1.
    + unfold is_pending. destruct (rq_promise rq); congruence.
    + unfold timer_armed in Hb. destruct (rq_timer rq); congruence.
  - (* PreloadLoaded *)
    unfold on_preload_loaded.
    apply sound_set_preloadedModels, sound_set_preloads, sound_bump;
      [assumption | lia].
  - (* PreloadFailed *)
    unfold on_preload_failed. auto with sound.
Qed.

Lemma sound_initial desktop : Sound (initial desktop).
Proof.
  constructor; cbn; try done.
  - apply NoDup_nil_2.
  - apply NoDup_nil_2.
Qed.

Lemma sound_run es : forall s s', Sound s -> run s es = Some s' -> Sound s'.
Proof.
  induction es as [|e es IH]; intros s s' Hs.
  - now intros [= <-].
  - change (run s (e :: es))
      with (match step s e with Some s1 => run s1 es | None => None end).
    destruct (step s e) as [s1|] eqn:E; [|discriminate].
    apply IH. eapply sound_step; eassumption.
Qed.

Lemma reachable_sound desktop es s :
  run (initial desktop) es = Some s -> Sound s.
Proof. apply sound_run, sound_initial. Qed.

(** *** Properties of every reachable state *)

Lemma paired_iff cs :
  paired cs -> forall i, detached cs i <-> disposed cs i.
Proof.
  unfold detached, disposed.
  assert (H : forall n cs, (length cs <= n)%nat -> paired cs ->
                forall i, In (SceneRemove i) cs
                          <-> exists rs, In (DisposeModel i rs) cs).
  { clear cs. induction n as [|n IH]; intros cs Hn Hp i.
    - destruct cs; [|cbn in Hn; lia]. cbn. split; [tauto | now intros [rs []]].
    - destruct cs as [|c cs]; [cbn; split; [tauto | now intros [rs []]]|].
      destruct c as [a|a|i0 rs0|u|u]; cbn in Hp;
        try (specialize (IH cs ltac:(cbn in Hn; lia) Hp i);
             cbn; split;
             [intros [H|H]; [discriminate|];
              apply IH in H as [rs H]; exists rs; now right
             |intros [rs [H|H]]; [discriminate|]; right; apply IH; eauto]);
        try tauto.
      destruct cs as [|c' cs]; [tauto|].
      destruct c' as [|j0| | |]; try tauto. destruct Hp as [<- Hp].
      specialize (IH cs ltac:(cbn in Hn; lia) Hp i).
      cbn. split.
      + intros [H|[H|H]]; try discriminate.
        * injection H as ->. exists rs0. now left.
        * apply IH in H as [rs H]. exists rs. right. now right.
      + intros [rs [H|[H|H]]]; try discriminate.
        * injection H as -> _. right. now left.
        * right. right. apply IH. eauto. }
  intros Hp i. exact (H (length cs) cs (le_n _) Hp i).
Qed.

(** The current model is in the scene, and no model is in the scene twice,
    whatever the order of requests and loader callbacks. *)
Theorem current_model_is_attached_once desktop es s :
  run (initial desktop) es = Some s ->
  NoDup (scene s)
  /\ forall m, currentModel s = Some m -> In (oid m) (scene s).
Proof.
  intros H. destruct (reachable_sound _ _ _ H) as [A B _ _ _ _ _].
  split; [assumption|]. intros m Hm. apply A. unfold current_id. now rewrite Hm.
Qed.

Lemma current_model_is_attached_once_witness :
  NoDup (scene (Scenario.state_after (initial true) Scenario.racing_loads)).
Proof.
  assert (H : run (initial true) Scenario.racing_loads
              = Some (Scenario.state_after (initial true) Scenario.racing_loads))
    by (vm_compute; reflexivity).
  exact (proj1 (current_model_is_attached_once true _ _ H)).
Defined.

(** A model that was disposed is not in the scene and is not the current
    model, and no model is disposed twice. *)
Theorem disposed_model_is_gone desktop es s :
  run (initial desktop) es = Some s ->
  NoDup (disposed_ids (calls s))
  /\ forall i rs, In (DisposeModel i rs) (calls s) ->
                  ~ In i (scene s) /\ current_id s <> Some i.
Proof.
  intros H. destruct (reachable_sound _ _ _ H) as [A _ _ D E _ _].
  split; [assumption|]. intros i rs Hi. destruct (D i rs Hi) as [_ Hn].
  split; [assumption|]. intros Hc. now apply Hn, A.
Qed.

Lemma disposed_model_is_gone_witness :
  NoDup (disposed_ids
           (calls (Scenario.state_after (initial true) Scenario.stale_flag))).
Proof.
  assert (H : run (initial true) Scenario.stale_flag
              = Some (Scenario.state_after (initial true) Scenario.stale_flag))
    by (vm_compute; reflexivity).
  exact (proj1 (disposed_model_is_gone true _ _ H)).
Defined.

(** Removal and disposal go together: every [scene.remove] is followed at
    once by [disposeModel] on the same model and [disposeModel] runs
    nowhere else, so a model has been removed from the scene exactly when
    it has been disposed. *)
Theorem removal_and_disposal_go_together desktop es s :
  run (initial desktop) es = Some s ->
  paired (calls s)
  /\ forall i, detached (calls s) i <-> disposed (calls s) i.
Proof.
  intros H. destruct (reachable_sound _ _ _ H) as [_ _ _ _ _ F _].
  split; [assumption | now apply paired_iff].
Qed.

Lemma removal_and_disposal_go_together_witness :
  paired (calls (Scenario.state_after (initial true) Scenario.stale_flag)).
Proof.
  assert (H : run (initial true) Scenario.stale_flag
              = Some (Scenario.state_after (initial true) Scenario.stale_flag))
    by (vm_compute; reflexivity).
  exact (proj1 (removal_and_disposal_go_together true _ _ H)).
Defined.

(** The callbacks of [loadModelWithTimeout] keep every request in order:
    once the promise is settled no timer is armed, so the load cannot time
    out any more; a timer that fired has rejected the promise; and the
    fallback loader has run only if the Draco loader failed. *)
Theorem settled_request_cannot_time_out desktop es s r rq :
  run (initial desktop) es = Some s ->
  requests s !! r = Some rq ->
  (rq_promise rq <> Pending -> step s (Timeout r) = None)
  /\ (rq_timer rq = Fired -> rq_promise rq = Rejected)
  /\ (rq_fallback rq <> Idle -> rq_primary rq = Failed).
Proof.
  intros H Hr. destruct (reachable_sound _ _ _ H) as [_ _ _ _ _ _ G].
  destruct (Forall_lookup_1 _ _ _ _ G Hr) as (T1 & T2 & T3).
  split; [|split; assumption].
  intros Hp. cbn. unfold on_request. rewrite Hr.
  unfold timer_armed. destruct (rq_timer rq) eqn:Ht; try reflexivity.
  exfalso. apply T1; [|first [assumption | reflexivity]].
  unfold is_pending. destruct (rq_promise rq); congruence.
Qed.

Lemma settled_request_cannot_time_out_witness :
  step (Scenario.state_after (initial true)
          [InitializeWebMode; PrimaryLoaded 0 (Scenario.robot 1)])
    (Timeout 0) = None.
Proof.
  assert (H : run (initial true)
                [InitializeWebMode; PrimaryLoaded 0 (Scenario.robot 1)]
              = Some (Scenario.state_after (initial true)
                        [InitializeWebMode; PrimaryLoaded 0 (Scenario.robot 1)]))
    by (vm_compute; reflexivity).
  assert (Hr : requests (Scenario.state_after (initial true)
                           [InitializeWebMode; PrimaryLoaded 0 (Scenario.robot 1)])
               !! 0%nat
               = Some {| rq_url := MODELS 1; rq_position := vec0;
                         rq_quaternion := quat_identity;
                         rq_scale := vec_uniform 0.7;
                         rq_promise := Fulfilled; rq_timer := Cleared;
                         rq_primary := Done; rq_fallback := Idle |})
    by (vm_compute; reflexivity).
  apply (proj1 (settled_request_cannot_time_out true _ _ 0%nat _ H Hr)).
  discriminate.
Defined.


End MainInvariants.

(** ** Behaviour of the handlers of main.js *)

Module MainBehaviour.
Import Main.

(** *** Retrying after a failed load *)

(** What the failure of the load just started leaves behind. *)
Lemma failure_leaves_retry_possible s p q sc s2 :
  is_loading s (currentMode s) = false ->
  preloadedModels s !! currentMode s = None ->
  step (loadModelForCurrentMode p q sc s) (Timeout (length (requests s))) = Some s2
  \/ (exists s1,
         step (loadModelForCurrentMode p q sc s)
           (PrimaryFailed (length (requests s))) = Some s1
         /\ step s1 (FallbackFailed (length (requests s))) = Some s2) ->
  currentMode s2 = currentMode s
  /\ is_loading s2 (currentMode s2) = false
  /\ preloadedModels s2 !! currentMode s2 = None
  /\ currentModel s2 = None.
Proof.
  intros Hl Hg. rewrite MainSpec.load_started by assumption.
  cbn [step]. unfold on_request.
  pose proof (MainSpec.started_request (vacated s) (MODELS (currentMode s))
                p q sc) as E.
  rewrite MainSpec.vacated_requests in E. rewrite !E. clear E. cbn.
  intros [[= <-]|(s1 & [= <-] & H)].
  - unfold is_loading. cbn.
    rewrite MainSpec.vacated_currentMode, MainSpec.vacated_preloadedModels,
      MainSpec.vacated_currentModel, lookup_insert_eq. auto.
  - revert H. unfold on_request. cbn.
    rewrite list_lookup_insert_eq
      by (rewrite length_app, MainSpec.vacated_requests; cbn; lia).
    cbn. intros [= <-]. unfold is_loading. cbn.
    rewrite MainSpec.vacated_currentMode, MainSpec.vacated_preloadedModels,
      MainSpec.vacated_currentModel, lookup_insert_eq. auto.
Qed.

(** When nothing else happens between a request and the failure of its
    load (timeout, or both loaders failing), the next request for the
    same routine is not dropped: it calls the Draco loader once more for
    the same file and awaits the result, with the slot empty. *)
Theorem retry_after_failure_loads_again
    (s : State) (p p' : Vector3) (q q' : Quaternion) (sc sc' : Vector3)
    (s2 : State) :
  is_loading s (currentMode s) = false ->
  preloadedModels s !! currentMode s = None ->
  step (loadModelForCurrentMode p q sc s) (Timeout (length (requests s))) = Some s2
  \/ (exists s1,
         step (loadModelForCurrentMode p q sc s)
           (PrimaryFailed (length (requests s))) = Some s1
         /\ step s1 (FallbackFailed (length (requests s))) = Some s2) ->
  let s3 := loadModelForCurrentMode p' q' sc' s2 in
  let url := MODELS (currentMode s) in
  decode_calls url s3 = S (decode_calls url s2)
  /\ pending_count s3 = S (pending_count s2)
  /\ is_loading s3 (currentMode s) = true
  /\ currentModel s3 = None.
Proof.
  intros Hl Hg Hf s3 url.
  destruct (failure_leaves_retry_possible s p q sc s2 Hl Hg Hf)
    as (Hm & Hl2 & Hg2 & Hc2).
  unfold s3. rewrite (MainSpec.load_started _ _ _ s2 Hl2 Hg2), Hm.
  split; [|split; [|split]].
  - unfold decode_calls, url. cbn [calls loadModelWithTimeout set_requests record].
    rewrite MainSpec.count_cons. cbn [is_load_of].
    rewrite bool_decide_eq_true_2 by reflexivity.
    cbn [Nat.add]. f_equal. apply MainSpec.vacated_decode_calls.
  - unfold pending_count. cbn. rewrite MainSpec.vacated_requests.
    rewrite filter_app, length_app, filter_cons, decide_True by reflexivity.
    cbn. lia.
  - unfold is_loading. cbn.
    now rewrite MainSpec.vacated_loadingModels, Hm, lookup_insert_eq.
  - cbn. apply MainSpec.vacated_currentModel.
Qed.

Lemma retry_after_failure_loads_again_witness :
  decode_calls (MODELS 1)
    (loadModelForCurrentMode vec0 quat_identity (vec_uniform 1)
       (Scenario.state_after (initial true) [InitializeWebMode; Timeout 0]))
  = S (decode_calls (MODELS 1)
         (Scenario.state_after (initial true) [InitializeWebMode; Timeout 0])).
Proof.
  pose (s := set_xr (set_reticle_visible false (xr (initial true)))
               (set_isARMode false (initial true))).
  assert (Hl : is_loading s (currentMode s) = false) by (vm_compute; reflexivity).
  assert (Hg : preloadedModels s !! currentMode s = None)
    by (vm_compute; reflexivity).
  assert (Hf : step (loadModelForCurrentMode vec0 quat_identity
                       (vec_uniform 0.7) s) (Timeout (length (requests s)))
               = Some (Scenario.state_after (initial true)
                         [InitializeWebMode; Timeout 0])
               \/ (exists s1,
                      step (loadModelForCurrentMode vec0 quat_identity
                              (vec_uniform 0.7) s)
                        (PrimaryFailed (length (requests s))) = Some s1
                      /\ step s1 (FallbackFailed (length (requests s)))
                         = Some (Scenario.state_after (initial true)
                                   [InitializeWebMode; Timeout 0])))
    by (left; vm_compute; reflexivity).
  exact (proj1 (retry_after_failure_loads_again s vec0 vec0 quat_identity
                  quat_identity (vec_uniform 0.7) (vec_uniform 1)
                  _ Hl Hg Hf)).
Defined.

(** *** Leaving the AR session *)

(** When the AR session ends, the current model is moved to the origin
    with the identity rotation; it keeps its identity, scale, mixer and
    graph and stays in the scene.  AR mode is off and the reticle hidden;
    nothing is loaded, removed or disposed. *)
Theorem session_end_resets_pose (s : State) :
  let s' := onARSessionEnd s in
  currentModel s'
  = (fun m => with_pose vec0 quat_identity (scale m) m) <$> currentModel s
  /\ current_id s' = current_id s
  /\ isARMode s' = false
  /\ reticle_visible (xr s') = false
  /\ scene s' = scene s
  /\ calls s' = calls s
  /\ requests s' = requests s
  /\ currentMode s' = currentMode s
  /\ loadingModels s' = loadingModels s.
Proof.
  unfold onARSessionEnd, switchToWebMode, map_currentModel, current_id.
  cbn. destruct (currentModel s) as [m|] eqn:Hm; cbn; rewrite ?Hm; cbn;
    unfold fmap, option_fmap, option_map; rewrite ?Hm; repeat split.
Qed.

(** [switchToWebMode] alone (the exit button) moves the model to the
    origin but keeps its orientation. *)
Theorem switch_to_web_keeps_orientation (s : State) (m : Object3D) :
  currentModel s = Some m ->
  currentModel (switchToWebMode s)
  = Some (with_pose vec0 (quaternion m) (scale m) m)
  /\ isARMode (switchToWebMode s) = false
  /\ reticle_visible (xr (switchToWebMode s)) = false
  /\ scene (switchToWebMode s) = scene s.
Proof.
  intros Hm. unfold switchToWebMode, map_currentModel. cbn. rewrite Hm.
  repeat split.
Qed.

Lemma switch_to_web_keeps_orientation_witness :
  isARMode (switchToWebMode Scenario.placed_in_ar) = false.
Proof.
  assert (Hm : currentModel Scenario.placed_in_ar
               = Some (placed {| vx := 1; vy := 0; vz := -2 |} quat_identity
                         (vec_uniform 0.3)
                         (clone 3 (fresh_object 0 (Scenario.robot 1)))
                         ["walk"%string]))
    by (vm_compute; reflexivity).
  exact (proj1 (proj2 (switch_to_web_keeps_orientation _ _ Hm))).
Defined.

(** *** Placing at the cursor *)

(** An accepted placement of a preloaded routine (the distance the
    handler computes is neither below 0.5 nor above 10): when the handler
    returns, a new clone of the template stands at the cursor's position
    and rotation with the scale of the model it replaces (the default
    scale when there was none); it is in the scene, the replaced model
    has been disposed, and no loader was called. *)
Theorem placement_attaches_at_cursor (s : State) (g : GLTF) :
  isPresenting (xr s) = true ->
  reticle_visible (xr s) = true ->
  (select_distance s <? 0.5)%float = false ->
  (10 <? select_distance s)%float = false ->
  is_loading s (currentMode s) = false ->
  preloadedModels s !! currentMode s = Some g ->
  exists m',
    currentModel (onSelect s) = Some m'
    /\ position m' = m_position (reticle_matrix (xr s))
    /\ quaternion m' = m_rotation (reticle_matrix (xr s))
    /\ scale m' = match currentModel s with
                  | Some m => scale m
                  | None => defaultScale
                  end
    /\ graph m' = graph (gltf_scene g)
    /\ In (oid m') (scene (onSelect s))
    /\ (forall m, currentModel s = Some m -> disposed (calls (onSelect s)) (oid m))
    /\ requests (onSelect s) = requests s
    /\ statusText (onSelect s) = TxtPlaced.
Proof.
  intros Hp Hv Hlo Hhi Hl Hg.
  rewrite (MainSpec.select_in_range s Hp Hv Hlo Hhi). unfold placement.
  rewrite (MainSpec.load_cached _ _ _ s g Hl Hg).
  eexists. split; [reflexivity|].
  destruct (MainSpec.placed_pose
              (m_position (reticle_matrix (xr s)))
              (m_rotation (reticle_matrix (xr s)))
              (match currentModel s with
               | Some m => scale m
               | None => defaultScale
               end)
              (clone (nextId s) (gltf_scene g)) (gltf_animations g))
    as (P1 & P2 & P3).
  split; [exact P1|]. split; [exact P2|]. split; [exact P3|].
  rewrite MainSpec.placed_graph, MainSpec.placed_oid.
  split; [reflexivity|].
  split; [cbn; unfold scene_add; rewrite in_app_iff; right; now left|].
  split; [|split; [cbn; apply MainSpec.vacated_requests | reflexivity]].
  intros m Hm. cbn. rewrite (MainSpec.vacated_calls_some s m Hm).
  exists (disposeModel m). right. now left.
Qed.

Lemma placement_attaches_at_cursor_witness :
  exists m',
    currentModel (onSelect (Scenario.pointing_at {| vx := 3; vy := 0; vz := -4 |}))
    = Some m'
    /\ position m' = {| vx := 3; vy := 0; vz := -4 |}.
Proof.
  pose (s := Scenario.pointing_at {| vx := 3; vy := 0; vz := -4 |}).
  assert (Hp : isPresenting (xr s) = true) by (vm_compute; reflexivity).
  assert (Hv : reticle_visible (xr s) = true) by (vm_compute; reflexivity).
  assert (Hlo : (select_distance s <? 0.5)%float = false)
    by (vm_compute; reflexivity).
  assert (Hhi : (10 <? select_distance s)%float = false)
    by (vm_compute; reflexivity).
  assert (Hl : is_loading s (currentMode s) = false) by (vm_compute; reflexivity).
  assert (Hg : preloadedModels s !! currentMode s
               = Some {| gltf_scene := fresh_object 0 (Scenario.robot 1);
                         gltf_animations := ["walk"%string] |})
    by (vm_compute; reflexivity).
  destruct (placement_attaches_at_cursor s _ Hp Hv Hlo Hhi Hl Hg)
    as (m' & H1 & H2 & _).
  exists m'. split; [exact H1|]. rewrite H2. vm_compute. reflexivity.
Defined.

(** *** Cycling *)

(** From any non-negative routine number, [cycleMode] lands on a
    registered routine (1, 2 or 3), so [MODELS] has a file for it; on the
    registered routines it is a cycle of length three. *)
Theorem cycle_lands_on_registered_routine (mode : Z) :
  0 <= mode ->
  (1 <= next_mode mode <= 3)
  /\ MODELS (next_mode mode) <> None
  /\ (1 <= mode <= 3 -> next_mode (next_mode (next_mode mode)) = mode).
Proof.
  intros H. unfold next_mode.
  pose proof (Z.rem_bound_pos mode 3 H ltac:(lia)) as Hr.
  split; [lia|]. split.
  - assert (Hc : Z.rem mode 3 + 1 = 1 \/ Z.rem mode 3 + 1 = 2
                 \/ Z.rem mode 3 + 1 = 3) by lia.
    destruct Hc as [-> | [-> | ->]]; discriminate.
  - intros Hm. assert (Hc : mode = 1 \/ mode = 2 \/ mode = 3) by lia.
    destruct Hc as [-> | [-> | ->]]; reflexivity.
Qed.

Lemma cycle_lands_on_registered_routine_witness : MODELS (next_mode 7) <> None.
Proof.
  exact (proj1 (proj2 (cycle_lands_on_registered_routine 7 ltac:(lia)))).
Defined.

(** *** Preloading, then attaching *)

(** When a preload of the current routine completes, the next request for
    it is served from the cache: no loader is called and nothing is
    awaited, and the attached model has the decoded graph, plays the first
    decoded clip if there is one, and stands where it was requested. *)
Theorem preloaded_model_is_served_from_cache
    (s s1 : State) (k : nat) (pl : Preload) (d : Decoded)
    (p : Vector3) (q : Quaternion) (sc : Vector3) :
  preloads s !! k = Some pl ->
  step s (PreloadLoaded k d) = Some s1 ->
  currentMode s = pl_mode pl ->
  is_loading s (pl_mode pl) = false ->
  let s2 := loadModelForCurrentMode p q sc s1 in
  requests s2 = requests s
  /\ (forall url, decode_calls url s2 = decode_calls url s)
  /\ exists c,
       currentModel s2 = Some c
       /\ graph c = d_graph d
       /\ mixer c = head (d_animations d)
       /\ position c = p /\ quaternion c = q /\ scale c = sc.
Proof.
  intros Hk. cbn [step]. unfold on_preload. rewrite Hk.
  destruct (preload_in_flight pl); [|discriminate]. intros [= <-] Hm Hl.
  assert (Hl1 : is_loading (on_preload_loaded k pl d s)
                  (currentMode (on_preload_loaded k pl d s)) = false)
    by (cbn; now rewrite Hm).
  assert (Hg1 : preloadedModels (on_preload_loaded k pl d s)
                !! currentMode (on_preload_loaded k pl d s)
                = Some (decoded_gltf d s))
    by (cbn; now rewrite Hm, lookup_insert_eq).
  rewrite (MainSpec.load_cached _ _ _ _ _ Hl1 Hg1).
  split; [cbn; now rewrite MainSpec.vacated_requests|]. split.
  - intros url. unfold decode_calls at 1.
    cbn [calls finally place set_statusClass set_statusText set_currentModel
         record set_scene set_loadingModels set_nextId].
    rewrite MainSpec.count_cons. cbn [is_load_of Nat.add].
    change (decode_calls url (vacated (on_preload_loaded k pl d s))
            = decode_calls url s).
    now rewrite MainSpec.vacated_decode_calls.
  - eexists. split; [reflexivity|].
    rewrite MainSpec.placed_graph.
    split; [reflexivity|]. split; [|apply MainSpec.placed_pose].
    unfold placed. cbn. now destruct (d_animations d).
Qed.

Lemma preloaded_model_is_served_from_cache_witness :
  requests
    (loadModelForCurrentMode vec0 quat_identity (vec_uniform 1)
       (Scenario.state_after (initial false)
          [PreloadModel 1; PreloadLoaded 0 (Scenario.robot 1)]))
  = requests (Scenario.state_after (initial false) [PreloadModel 1]).
Proof.
  assert (Hk : preloads (Scenario.state_after (initial false) [PreloadModel 1])
               !! 0%nat = Some {| pl_mode := 1; pl_op := InFlight |})
    by (vm_compute; reflexivity).
  assert (Hs : step (Scenario.state_after (initial false) [PreloadModel 1])
                 (PreloadLoaded 0 (Scenario.robot 1))
               = Some (Scenario.state_after (initial false)
                         [PreloadModel 1; PreloadLoaded 0 (Scenario.robot 1)]))
    by (vm_compute; reflexivity).
  assert (Hm : currentMode (Scenario.state_after (initial false) [PreloadModel 1])
               = pl_mode {| pl_mode := 1; pl_op := InFlight |})
    by (vm_compute; reflexivity).
  assert (Hl : is_loading (Scenario.state_after (initial false) [PreloadModel 1])
                 (pl_mode {| pl_mode := 1; pl_op := InFlight |}) = false)
    by (vm_compute; reflexivity).
  exact (proj1 (preloaded_model_is_served_from_cache _ _ _ _ _
                  vec0 quat_identity (vec_uniform 1) Hk Hs Hm Hl)).
Defined.

End MainBehaviour.

(** ** The resource disposer *)

Module DisposerSpec.

Lemma Node_nested_ind (P : Node -> Prop) :
  (forall cs, Forall P cs -> P (Group cs)) ->
  (forall g ms cs, Forall P cs -> P (Mesh g ms cs)) ->
  forall n, P n.
Proof.
  intros HG HM. fix IH 1. intros [cs|g ms cs].
  - apply HG. induction cs as [|c cs IHcs]; constructor; [apply IH | exact IHcs].
  - apply HM. induction cs as [|c cs IHcs]; constructor; [apply IH | exact IHcs].
Qed.

Lemma geometry_calls_app l k :
  geometry_calls (l ++ k) = (geometry_calls l + geometry_calls k)%nat.
Proof. unfold geometry_calls. now rewrite filter_app, length_app. Qed.

Lemma geometry_calls_material m : geometry_calls (dispose_material m) = 0%nat.
Proof. unfold dispose_material. now destruct (mat_map m). Qed.

Lemma geometry_calls_slot ms : geometry_calls (dispose_slot ms) = 0%nat.
Proof.
  destruct ms as [|m|l]; cbn [dispose_slot];
    [reflexivity | apply geometry_calls_material |].
  induction l as [|m l IH]; [reflexivity|].
  cbn [flat_map]. now rewrite geometry_calls_app, geometry_calls_material, IH.
Qed.

Lemma geometry_calls_children cs :
  Forall (fun n => geometry_calls (traverse_dispose n) = mesh_count n) cs ->
  geometry_calls (flat_map traverse_dispose cs) = list_sum (map mesh_count cs).
Proof.
  induction 1 as [|c cs Hc _ IH]; [reflexivity|].
  cbn [flat_map map list_sum foldr]. now rewrite geometry_calls_app, Hc, IH.
Qed.

Lemma geometry_calls_traverse n :
  geometry_calls (traverse_dispose n) = mesh_count n.
Proof.
  induction n as [cs IH|g ms cs IH] using Node_nested_ind.
  - cbn. now apply geometry_calls_children.
  - cbn [traverse_dispose mesh_count].
    change (GeometryDispose g :: dispose_slot ms ++ flat_map traverse_dispose cs)
      with ([GeometryDispose g] ++ dispose_slot ms ++ flat_map traverse_dispose cs).
    rewrite !geometry_calls_app, geometry_calls_slot,
      (geometry_calls_children cs IH).
    reflexivity.
Qed.

Lemma no_mesh_no_call n : mesh_count n = 0%nat -> traverse_dispose n = [].
Proof.
  induction n as [cs IH|g ms cs IH] using Node_nested_ind; [|discriminate].
  cbn [mesh_count traverse_dispose].
  induction IH as [|c cs Hc _ IHcs]; [reflexivity|].
  cbn [flat_map map list_sum foldr]. intros H.
  assert (H1 : mesh_count c = 0%nat) by lia.
  assert (H2 : list_sum (map mesh_count cs) = 0%nat) by (unfold list_sum; lia).
  rewrite (Hc H1), (IHcs H2). reflexivity.
Qed.

(** [disposeModel] calls [geometry.dispose()] once for every mesh of the
    model, and makes no call at all for a model without meshes. *)
Theorem one_geometry_release_per_mesh (model : Object3D) :
  geometry_calls (disposeModel model) = mesh_count (graph model)
  /\ (mesh_count (graph model) = 0%nat -> disposeModel model = []).
Proof.
  split; [apply geometry_calls_traverse | apply no_mesh_no_call].
Qed.

Lemma after_texture_app l k : forall b,
  after_texture b l -> after_texture false k -> after_texture b (l ++ k).
Proof.
  induction l as [|c l IH]; intros b Hl Hk.
  - cbn in Hl. now subst b.
  - destruct c; cbn in *.
    + destruct Hl. split; [assumption | now apply IH].
    + destruct Hl. split; [assumption | now apply IH].
    + now apply IH.
Qed.

Lemma after_texture_material m : after_texture false (dispose_material m).
Proof. unfold dispose_material. destruct (mat_map m); cbn; auto. Qed.

Lemma after_texture_flat_map {A} (f : A -> list ResCall) l :
  Forall (fun x => after_texture false (f x)) l ->
  after_texture false (flat_map f l).
Proof.
  induction 1 as [|x l Hx _ IH]; [reflexivity|].
  cbn. now apply after_texture_app.
Qed.

Lemma after_texture_slot ms : after_texture false (dispose_slot ms).
Proof.
  destruct ms as [|m|l]; cbn; [reflexivity | apply after_texture_material |].
  apply after_texture_flat_map, Forall_forall. intros m _.
  apply after_texture_material.
Qed.

Lemma after_texture_traverse n : after_texture false (traverse_dispose n).
Proof.
  induction n as [cs IH|g ms cs IH] using Node_nested_ind; cbn.
  - now apply after_texture_flat_map.
  - split; [reflexivity|].
    apply after_texture_app; [apply after_texture_slot|].
    now apply after_texture_flat_map.
Qed.

Lemma material_released mat :
  In (MaterialDispose (mat_id mat)) (dispose_material mat)
  /\ forall t, mat_map mat = Some t -> In (TextureDispose t) (dispose_material mat).
Proof.
  unfold dispose_material. destruct (mat_map mat) as [t0|]; cbn.
  - split; [tauto|]. intros t [= <-]. tauto.
  - split; [tauto | discriminate].
Qed.

Lemma materials_released n : forall mat,
  In mat (materials n) ->
  In (MaterialDispose (mat_id mat)) (traverse_dispose n)
  /\ forall t, mat_map mat = Some t -> In (TextureDispose t) (traverse_dispose n).
Proof.
  induction n as [cs IH|g ms cs IH] using Node_nested_ind; intros mat Hin.
  - cbn in *. apply in_flat_map in Hin as (c & Hc & Hm).
    rewrite Forall_forall in IH.
    destruct (IH c ltac:(now apply list_elem_of_In) mat Hm) as [H1 H2].
    split; [|intros t Ht]; apply in_flat_map; exists c; auto.
  - cbn in Hin. apply in_app_iff in Hin as [Hin|Hin].
    + assert (Hs : In (MaterialDispose (mat_id mat)) (dispose_slot ms)
                   /\ forall t, mat_map mat = Some t ->
                                In (TextureDispose t) (dispose_slot ms)).
      { destruct ms as [|m|l]; cbn in Hin.
        - destruct Hin.
        - destruct Hin as [<-|[]]. exact (material_released m).
        - destruct (material_released mat) as [H1 H2].
          split; [|intros t Ht]; apply in_flat_map; exists mat; auto. }
      destruct Hs as [H1 H2]. cbn.
      split; [|intros t Ht]; right; apply in_app_iff; left; auto.
    + apply in_flat_map in Hin as (c & Hc & Hm).
      rewrite Forall_forall in IH.
      destruct (IH c ltac:(now apply list_elem_of_In) mat Hm) as [H1 H2].
      cbn. split; [|intros t Ht]; right; apply in_app_iff; right;
        apply in_flat_map; exists c; auto.
Qed.

(** [disposeModel] releases every material of the model, single or in an
    array, and the texture map of every material that has one; a texture
    is always released immediately before a material. *)
Theorem materials_and_their_maps_are_released (model : Object3D) :
  textures_before_materials (disposeModel model)
  /\ forall mat, In mat (materials (graph model)) ->
       In (MaterialDispose (mat_id mat)) (disposeModel model)
       /\ forall t, mat_map mat = Some t ->
                    In (TextureDispose t) (disposeModel model).
Proof.
  split; [apply after_texture_traverse | apply materials_released].
Qed.

End DisposerSpec.

(** ** The debug log *)

Module DebugLogSpec.
Import DebugLog.

Lemma log_drop logs entry :
  (length logs <= 10)%nat ->
  log logs entry
  = drop (length (logs ++ [entry]) - 10) (logs ++ [entry]).
Proof.
  intros H. unfold log. rewrite length_app. cbn [length].
  destruct (10 <? length logs + 1)%nat eqn:E.
  - apply Nat.ltb_lt in E. replace (length logs + 1 - 10)%nat with 1%nat by lia.
    now destruct (logs ++ [entry]).
  - apply Nat.ltb_ge in E. now replace (length logs + 1 - 10)%nat with 0%nat by lia.
Qed.

Lemma log_length logs entry :
  (length logs <= 10)%nat -> (length (log logs entry) <= 10)%nat.
Proof.
  intros H. rewrite log_drop by assumption.
  rewrite length_drop, length_app. cbn. lia.
Qed.

Lemma logs_drop entries : forall logs,
  (length logs <= 10)%nat ->
  fold_left log entries logs
  = drop (length (logs ++ entries) - 10) (logs ++ entries)
  /\ (length (fold_left log entries logs) <= 10)%nat.
Proof.
  induction entries as [|e es IH]; intros logs H.
  - cbn. rewrite app_nil_r. replace (length logs - 10)%nat with 0%nat by lia.
    now split.
  - cbn [fold_left].
    destruct (IH (log logs e) (log_length logs e H)) as [Heq Hlen].
    split; [rewrite Heq | exact Hlen].
    + rewrite log_drop by assumption.
      replace (logs ++ e :: es) with ((logs ++ [e]) ++ es)
        by (now rewrite <- app_assoc).
      set (l := logs ++ [e]).
      assert (Hl : (length l <= 11)%nat)
        by (unfold l; rewrite length_app; cbn; lia).
      rewrite <- (drop_app_le l es (length l - 10)) by lia.
      rewrite drop_drop. f_equal.
      rewrite length_drop, !length_app. lia.
Qed.

(** The debug log never holds more than ten entries, and after any number
    of [log] calls it holds the most recent ones, oldest first. *)
Theorem log_keeps_the_last_ten (entries : list string) :
  fold_left log entries [] = drop (length entries - 10) entries
  /\ (length (fold_left log entries []) <= 10)%nat.
Proof.
  destruct (logs_drop entries [] ltac:(cbn; lia)) as [H1 H2].
  split; [exact H1 | exact H2].
Qed.

End DebugLogSpec.

(** ** Hit testing over a whole session *)

Module HitTestBehaviour.
Import HitTest.

Lemma requests_cons_same k cs :
  length (filter (fun c => c = RequestReferenceSpace k)
            (RequestReferenceSpace k :: cs))
  = S (length (filter (fun c => c = RequestReferenceSpace k) cs)).
Proof. now rewrite filter_cons, decide_True by reflexivity. Qed.

Lemma main_render_awaiting k h s :
  awaiting_source k s ->
  xr_calls (main_render (Some h) s) = RequestReferenceSpace k :: xr_calls s
  /\ inits (main_render (Some h) s)
     = inits s ++ [{| in_session := k; in_stage := AwaitReferenceSpace |}]
  /\ awaiting_source k (main_render (Some h) s).
Proof.
  intros (Hs & Hp & Ha & Hr). unfold awaiting_source, main_render, handleARFrame.
  rewrite Hp, Ha, Hr, Hs. cbn.
  destruct (hitTestSource s), h; cbn; repeat split; assumption.
Qed.

(** main.js, [render] / [handleARFrame] / [initializeHitTesting]: as long
    as the hit-test source of the session has not been obtained, every
    rendered frame starts one more initialisation and requests the viewer
    reference space once more. *)
Theorem main_each_pending_frame_starts_an_initialisation
    (hs : list Hits) : forall (s : State) (k : nat),
  awaiting_source k s ->
  reference_space_requests k (render_frames main_render hs s)
  = (length hs + reference_space_requests k s)%nat
  /\ length (inits (render_frames main_render hs s))
     = (length hs + length (inits s))%nat
  /\ awaiting_source k (render_frames main_render hs s).
Proof.
  induction hs as [|h hs IH]; intros s k Hs;
    [split; [reflexivity | split; [reflexivity | exact Hs]]|].
  destruct (main_render_awaiting k h s Hs) as (Hc & Hi & Hs').
  destruct (IH _ k Hs') as (IH1 & IH2 & IH3).
  unfold render_frames in *. cbn [fold_left length].
  rewrite IH1, IH2. split; [|split; [|exact IH3]].
  - unfold reference_space_requests. rewrite Hc, requests_cons_same. lia.
  - rewrite Hi, length_app. cbn. lia.
Qed.

Lemma main_each_pending_frame_starts_an_initialisation_witness :
  reference_space_requests 1
    (render_frames main_render [NoHit; NoHit; NoHit]
       (Scenario.hit_test_after main_step [SessionStart 1]))
  = 3%nat.
Proof.
  assert (H : awaiting_source 1
                (Scenario.hit_test_after main_step [SessionStart 1]))
    by (vm_compute; repeat split).
  exact (proj1 (main_each_pending_frame_starts_an_initialisation
                  [NoHit; NoHit; NoHit] _ 1 H)).
Defined.

Lemma app_render_requested f s :
  hitTestSourceRequested s = true ->
  xr_calls (app_render f s) = xr_calls s
  /\ hitTestSourceRequested (app_render f s) = true
  /\ end_listeners (app_render f s) = end_listeners s
  /\ inits (app_render f s) = inits s
  /\ hitTestSource (app_render f s) = hitTestSource s
  /\ session (app_render f s) = session s.
Proof.
  intros Hr. unfold app_render.
  destruct f as [h|]; [|now repeat split].
  destruct (session s) eqn:Hs; [|now repeat split].
  rewrite Hr.
  destruct (hitTestSource s) eqn:Hsrc, h; cbn; repeat split; assumption.
Qed.

Lemma app_frames_requested hs : forall s,
  hitTestSourceRequested s = true ->
  xr_calls (render_frames app_render hs s) = xr_calls s
  /\ hitTestSourceRequested (render_frames app_render hs s) = true
  /\ end_listeners (render_frames app_render hs s) = end_listeners s
  /\ inits (render_frames app_render hs s) = inits s
  /\ hitTestSource (render_frames app_render hs s) = hitTestSource s
  /\ session (render_frames app_render hs s) = session s.
Proof.
  induction hs as [|h hs IH]; intros s Hr; [now repeat split|].
  destruct (app_render_requested (Some h) s Hr) as (H1 & H2 & H3 & H4 & H5 & H6).
  destruct (IH _ H2) as (I1 & I2 & I3 & I4 & I5 & I6).
  unfold render_frames in *. cbn [fold_left].
  rewrite I1, I2, I3, I4, I5, I6. now repeat split.
Qed.

Lemma app_render_first h s k :
  session s = Some k ->
  hitTestSourceRequested s = false ->
  xr_calls (app_render (Some h) s) = RequestReferenceSpace k :: xr_calls s
  /\ hitTestSourceRequested (app_render (Some h) s) = true
  /\ end_listeners (app_render (Some h) s) = end_listeners s ++ [k]
  /\ inits (app_render (Some h) s)
     = inits s ++ [{| in_session := k; in_stage := AwaitReferenceSpace |}].
Proof.
  intros Hs Hr. unfold app_render. rewrite Hs, Hr. cbn.
  destruct (hitTestSource s) eqn:Hsrc, h; cbn; now repeat split.
Qed.

(** app.js, [render]: however many frames are rendered, the first one of
    a session requests the viewer reference space and registers the 'end'
    listener, and the following ones request nothing. *)
Theorem app_frames_request_once (hs : list Hits) (s : State) (k : nat) :
  session s = Some k ->
  hitTestSourceRequested s = false ->
  hs <> [] ->
  xr_calls (render_frames app_render hs s)
  = RequestReferenceSpace k :: xr_calls s
  /\ hitTestSourceRequested (render_frames app_render hs s) = true
  /\ end_listeners (render_frames app_render hs s) = end_listeners s ++ [k]
  /\ length (inits (render_frames app_render hs s)) = S (length (inits s)).
Proof.
  intros Hs Hr Hne. destruct hs as [|h hs]; [contradiction|].
  destruct (app_render_first h s k Hs Hr) as (H1 & H2 & H3 & H4).
  destruct (app_frames_requested hs _ H2) as (I1 & I2 & I3 & I4 & _).
  unfold render_frames in *. cbn [fold_left].
  rewrite I1, I2, I3, I4, H1, H3, H4, length_app. cbn.
  repeat split. lia.
Qed.

Lemma app_frames_request_once_witness :
  xr_calls (render_frames app_render [NoHit; NoHit; NoHit]
              (Scenario.hit_test_after app_step [SessionStart 1]))
  = [RequestReferenceSpace 1].
Proof.
  assert (H1 : session (Scenario.hit_test_after app_step [SessionStart 1])
               = Some 1%nat) by (vm_compute; reflexivity).
  assert (H2 : hitTestSourceRequested
                 (Scenario.hit_test_after app_step [SessionStart 1]) = false)
    by (vm_compute; reflexivity).
  assert (H3 : [NoHit; NoHit; NoHit] <> []) by discriminate.
  exact (proj1 (app_frames_request_once [NoHit; NoHit; NoHit] _ 1 H1 H2 H3)).
Defined.

Section Listeners.
Variable cleanup : State -> State.
Hypothesis cleanup_session : forall s, session (cleanup s) = session s.
Hypothesis cleanup_requested : forall s, hitTestSourceRequested (cleanup s) = false.
Hypothesis cleanup_source : forall s, hitTestSource (cleanup s) = None.

Lemma run_listeners_resets k ls : forall s,
  In k ls
  \/ (hitTestSourceRequested s = false /\ hitTestSource s = None) ->
  hitTestSourceRequested (run_listeners cleanup k ls s) = false
  /\ hitTestSource (run_listeners cleanup k ls s) = None.
Proof.
  induction ls as [|l ls IH]; intros s H.
  - destruct H as [[]|H]. exact H.
  - cbn [run_listeners]. apply IH.
    destruct (l =? k)%nat eqn:E.
    + right. split; [apply cleanup_requested | apply cleanup_source].
    + apply Nat.eqb_neq in E.
      destruct H as [[H|H]|H]; [contradiction | now left | now right].
Qed.

End Listeners.

Lemma listening_resets cleanup k s :
  (forall s, hitTestSourceRequested (cleanup s) = false) ->
  (forall s, hitTestSource (cleanup s) = None) ->
  (hitTestSourceRequested s = true \/ hitTestSource s <> None ->
   In k (end_listeners s)) ->
  hitTestSourceRequested (run_listeners cleanup k (end_listeners s) s) = false
  /\ hitTestSource (run_listeners cleanup k (end_listeners s) s) = None.
Proof.
  intros Hc1 Hc2 H. apply run_listeners_resets; [assumption..|].
  destruct (hitTestSourceRequested s) eqn:Hr; [left; apply H; now left|].
  destruct (hitTestSource s) eqn:Hsrc; [left; apply H; now right|].
  now right.
Qed.







Lemma app_listening_opened k s :
  session_opened k s -> app_listening k s.
Proof. intros (Hs & Hr & Hsrc & Hi). split; [exact Hs|]. now right. Qed.

Lemma settled_not_awaited i st (P : Init -> State -> State) s :
  Forall settled (inits s) -> on_init i st P s = None.
Proof.
  intros Hi. unfold on_init. destruct (inits s !! i) as [it|] eqn:Hit; [|reflexivity].
  pose proof (Forall_lookup_1 _ _ _ _ Hi Hit) as E. unfold settled in E.
  unfold awaiting. rewrite E. now destruct st.
Qed.

Lemma app_listening_init k s i st (P : Init -> State -> State) s' :
  app_listening k s ->
  on_init i st P s = Some s' ->
  (forall it, session (P it s) = session s
              /\ hitTestSourceRequested (P it s) = hitTestSourceRequested s
              /\ end_listeners (P it s) = end_listeners s) ->
  app_listening k s'.
Proof.
  intros (Hs & [[Hr Hl]|(Hr & Hsrc & Hi)]) Hstep HP.
  - unfold on_init in Hstep.
    destruct (inits s !! i) as [it|]; [|discriminate].
    destruct (awaiting st it); [|discriminate].
    injection Hstep as <-. destruct (HP it) as (H1 & H2 & H3).
    split; [now rewrite H1|]. left. now rewrite H2, H3.
  - now rewrite (settled_not_awaited i st P s Hi) in Hstep.
Qed.

Lemma app_listening_step k s e s' :
  app_listening k s ->
  match e with SessionStart _ | SessionEnd => False | _ => True end ->
  app_step s e = Some s' ->
  app_listening k s'.
Proof.
  intros Hinv He Hstep. pose proof Hinv as (Hs & Hcase).
  destruct e as [f| | |i|i|i src|i]; try contradiction; cbn [app_step] in Hstep;
    try (eapply app_listening_init; [exact Hinv | exact Hstep |];
         intros it; now repeat split).
  injection Hstep as <-. destruct f as [h|]; [|exact Hinv].
  destruct Hcase as [[Hr Hl]|(Hr & Hsrc & Hi)].
  - destruct (app_render_requested (Some h) s Hr) as (_ & H2 & H3 & _ & _ & H6).
    split; [now rewrite H6|]. left. now rewrite H2, H3.
  - destruct (app_render_first h s k Hs Hr) as (_ & H2 & H3 & _).
    split.
    + unfold app_render. rewrite Hs, Hr. cbn. rewrite Hsrc. exact Hs.
    + left. split; [exact H2|]. rewrite H3. apply in_app_iff. right. now left.
Qed.

Lemma app_listening_run k es : forall s s',
  app_listening k s ->
  within_session es ->
  run app_step s es = Some s' ->
  app_listening k s'.
Proof.
  induction es as [|e es IH]; intros s s' Hinv Hes Hrun.
  - now injection Hrun as <-.
  - cbn [run] in Hrun. destruct (app_step s e) as [s1|] eqn:Hstep; [|discriminate].
    apply Forall_cons in Hes as [He Hes].
    exact (IH s1 s' (app_listening_step k s e s1 Hinv He Hstep) Hes Hrun).
Qed.

(** app.js, [render] and its 'end' listener: whatever happens during a
    session, when it ends the flag is cleared and the source dropped, so
    that the first frame of the next session requests the reference space
    again. *)
Theorem app_session_end_resets_hit_testing
    (k : nat) (es : list Event) (s s' : State) :
  session_opened k s ->
  within_session es ->
  run app_step s es = Some s' ->
  hitTestSourceRequested (app_session_end s') = false
  /\ hitTestSource (app_session_end s') = None
  /\ session (app_session_end s') = None
  /\ forall k' h,
       xr_calls (app_render (Some h)
                   (set_session (Some k') true true (app_session_end s')))
       = RequestReferenceSpace k' :: xr_calls s'.
Proof.
  intros Ho Hes Hrun.
  destruct (app_listening_run k es s s' (app_listening_opened k s Ho) Hes Hrun)
    as (Hs & Hcase).
  assert (Hl : hitTestSourceRequested s' = true \/ hitTestSource s' <> None ->
               In k (end_listeners s')).
  { destruct Hcase as [[_ Hl]|(Hr & Hsrc & _)]; [intros _; exact Hl|].
    rewrite Hr, Hsrc. intros [H|H]; [discriminate | contradiction]. }
  destruct (listening_resets app_cleanup k s' (fun _ => eq_refl)
              (fun _ => eq_refl) Hl) as [Hr Hsrc].
  assert (Hx : forall ls t, xr_calls (run_listeners app_cleanup k ls t) = xr_calls t).
  { induction ls as [|l ls IH]; intros t; [reflexivity|].
    cbn [run_listeners]. rewrite IH. now destruct (l =? k)%nat. }
  unfold app_session_end. rewrite Hs. cbn.
  repeat split; try assumption.
  intros k' h. unfold app_render. cbn. rewrite Hr. cbn.
  rewrite Hsrc. cbn. now rewrite Hx.
Qed.

Lemma app_session_end_resets_hit_testing_witness :
  hitTestSourceRequested
    (app_session_end
       (Scenario.hit_test_after app_step
          [SessionStart 1; Frame (Some NoHit); ReferenceSpaceResolved 0;
           HitTestSourceResolved 0 7; Frame (Some NoHit)]))
  = false.
Proof.
  assert (Ho : session_opened 1
                 (Scenario.hit_test_after app_step [SessionStart 1]))
    by (vm_compute; repeat split; constructor).
  assert (Hes : within_session
                  [Frame (Some NoHit); ReferenceSpaceResolved 0;
                   HitTestSourceResolved 0 7; Frame (Some NoHit)])
    by (repeat constructor).
  assert (Hrun : run app_step
                   (Scenario.hit_test_after app_step [SessionStart 1])
                   [Frame (Some NoHit); ReferenceSpaceResolved 0;
                    HitTestSourceResolved 0 7; Frame (Some NoHit)]
                 = Some (Scenario.hit_test_after app_step
                           [SessionStart 1; Frame (Some NoHit);
                            ReferenceSpaceResolved 0;
                            HitTestSourceResolved 0 7; Frame (Some NoHit)]))
    by (vm_compute; reflexivity).
  exact (proj1 (app_session_end_resets_hit_testing 1 _ _ _ Ho Hes Hrun)).
Defined.

(** main.js, [render] / [handleARFrame] / [processHitTestResults]: in an
    AR frame the reticle is shown exactly when the first hit has a pose,
    and then sits at that pose; without a hit-test source the frame
    leaves the reticle alone. *)
Theorem reticle_shows_exactly_on_a_posed_hit (h : Hits) (s : State) :
  isPresenting s = true ->
  isARMode s = true ->
  match hitTestSource s with
  | Some _ =>
      (reticle_visible (main_render (Some h) s) = true
       <-> exists m, h = HitPose m)
      /\ forall m, h = HitPose m ->
                   reticle_matrix (main_render (Some h) s) = m
  | None =>
      reticle_visible (main_render (Some h) s) = reticle_visible s
      /\ reticle_matrix (main_render (Some h) s) = reticle_matrix s
  end.
Proof.
  intros Hp Ha. unfold main_render, handleARFrame. rewrite Hp, Ha. cbn.
  destruct (hitTestSource s) as [src|] eqn:Hsrc.
  - destruct (hitTestSourceRequested s), (session s); cbn; rewrite ?Hsrc;
      destruct h as [| | |m0]; cbn;
      first [ split; [split; [discriminate | intros [m1 Hm]; discriminate]
                     | intros m1 Hm; discriminate]
            | split; [split; [intros _; now exists m0 | reflexivity]
                     | intros m1 Hm; now injection Hm] ].
  - destruct (hitTestSourceRequested s), (session s); cbn; rewrite ?Hsrc;
      now split.
Qed.

Lemma reticle_shows_exactly_on_a_posed_hit_witness :
  reticle_visible
    (main_render (Some HitWithoutPose)
       (Scenario.hit_test_after main_step
          [SessionStart 1; Frame (Some NoHit); ReferenceSpaceResolved 0;
           HitTestSourceResolved 0 7]))
  = true
  <-> exists m, HitWithoutPose = HitPose m.
Proof.
  assert (Hp : isPresenting
                 (Scenario.hit_test_after main_step
                    [SessionStart 1; Frame (Some NoHit);
                     ReferenceSpaceResolved 0; HitTestSourceResolved 0 7])
               = true) by (vm_compute; reflexivity).
  assert (Ha : isARMode
                 (Scenario.hit_test_after main_step
                    [SessionStart 1; Frame (Some NoHit);
                     ReferenceSpaceResolved 0; HitTestSourceResolved 0 7])
               = true) by (vm_compute; reflexivity).
  exact (proj1 (reticle_shows_exactly_on_a_posed_hit HitWithoutPose _ Hp Ha)).
Defined.

(** main.js, the [catch] block of [initializeHitTesting]: a rejected
    request clears the flag, even when another initialisation has
    already succeeded, so the next AR frame starts a new one. *)
Theorem main_rejection_is_retried (s s1 : State) (i k : nat) (h : Hits) :
  session s = Some k ->
  isPresenting s = true ->
  isARMode s = true ->
  main_step s (ReferenceSpaceRejected i) = Some s1
  \/ main_step s (HitTestSourceRejected i) = Some s1 ->
  hitTestSourceRequested s1 = false
  /\ hitTestSource s1 = hitTestSource s
  /\ xr_calls (main_render (Some h) s1) = RequestReferenceSpace k :: xr_calls s.
Proof.
  intros Hs Hp Ha Hstep.
  assert (E : exists it, s1 = main_rejected i it s).
  { destruct Hstep as [Hstep|Hstep]; cbn [main_step] in Hstep;
      unfold on_init in Hstep;
      destruct (inits s !! i) as [it|]; try discriminate;
      destruct (awaiting _ it); try discriminate;
      injection Hstep as <-; now exists it. }
  destruct E as [it ->]. unfold main_render, handleARFrame. cbn.
  rewrite Hp, Ha, Hs. cbn.
  destruct (hitTestSource s), h; now repeat split.
Qed.

Lemma main_rejection_is_retried_witness :
  hitTestSourceRequested
    (Scenario.hit_test_after main_step
       [SessionStart 1; Frame (Some NoHit); ReferenceSpaceRejected 0])
  = false.
Proof.
  assert (Hs : session (Scenario.hit_test_after main_step
                          [SessionStart 1; Frame (Some NoHit)]) = Some 1%nat)
    by (vm_compute; reflexivity).
  assert (Hp : isPresenting (Scenario.hit_test_after main_step
                               [SessionStart 1; Frame (Some NoHit)]) = true)
    by (vm_compute; reflexivity).
  assert (Ha : isARMode (Scenario.hit_test_after main_step
                           [SessionStart 1; Frame (Some NoHit)]) = true)
    by (vm_compute; reflexivity).
  assert (Hstep : main_step
                    (Scenario.hit_test_after main_step
                       [SessionStart 1; Frame (Some NoHit)])
                    (ReferenceSpaceRejected 0)
                  = Some (Scenario.hit_test_after main_step
                            [SessionStart 1; Frame (Some NoHit);
                             ReferenceSpaceRejected 0]))
    by (vm_compute; reflexivity).
  exact (proj1 (main_rejection_is_retried _ _ 0 1 NoHit Hs Hp Ha
                  (or_introl Hstep))).
Defined.

(** app.js, [render]: a rejected request leaves the flag set, so no
    later frame of the session asks for the reference space again and
    the hit-test source stays as it was. *)
Theorem app_rejection_is_final (s s1 : State) (i : nat) (hs : list Hits) :
  hitTestSourceRequested s = true ->
  app_step s (ReferenceSpaceRejected i) = Some s1
  \/ app_step s (HitTestSourceRejected i) = Some s1 ->
  xr_calls (render_frames app_render hs s1) = xr_calls s
  /\ hitTestSourceRequested (render_frames app_render hs s1) = true
  /\ hitTestSource (render_frames app_render hs s1) = hitTestSource s.
Proof.
  intros Hr Hstep.
  assert (E : exists it, s1 = app_rejected i it s).
  { destruct Hstep as [Hstep|Hstep]; cbn [app_step] in Hstep;
      unfold on_init in Hstep;
      destruct (inits s !! i) as [it|]; try discriminate;
      destruct (awaiting _ it); try discriminate;
      injection Hstep as <-; now exists it. }
  destruct E as [it ->].
  destruct (app_frames_requested hs (app_rejected i it s) Hr)
    as (H1 & H2 & _ & _ & H5 & _).
  rewrite H1, H2, H5. now repeat split.
Qed.

Lemma app_rejection_is_final_witness :
  xr_calls (render_frames app_render [NoHit; NoHit]
              (Scenario.hit_test_after app_step
                 [SessionStart 1; Frame (Some NoHit); ReferenceSpaceRejected 0]))
  = xr_calls (Scenario.hit_test_after app_step
                [SessionStart 1; Frame (Some NoHit)]).
Proof.
  assert (Hr : hitTestSourceRequested
                 (Scenario.hit_test_after app_step
                    [SessionStart 1; Frame (Some NoHit)]) = true)
    by (vm_compute; reflexivity).
  assert (Hstep : app_step
                    (Scenario.hit_test_after app_step
                       [SessionStart 1; Frame (Some NoHit)])
                    (ReferenceSpaceRejected 0)
                  = Some (Scenario.hit_test_after app_step
                            [SessionStart 1; Frame (Some NoHit);
                             ReferenceSpaceRejected 0]))
    by (vm_compute; reflexivity).
  exact (proj1 (app_rejection_is_final _ _ 0 [NoHit; NoHit] Hr
                  (or_introl Hstep))).
Defined.

End HitTestBehaviour.

(** ** app.js over any sequence of events *)

Module AppBehaviour.
Import App.

Lemma app_sound_settle r ld s : Sound s -> Sound (settle r ld s).
Proof. intros [A B C D]. now split. Qed.

Lemma app_sound_loadModel url p q s : Sound s -> Sound (loadModel url p q s).
Proof.
  intros [A B C D]. unfold loadModel.
  destruct (currentModel s) as [m|] eqn:Hm; split; cbn.
  - discriminate.
  - now apply NoDup_filter.
  - intros i Hi. apply C. eapply MainSpec.in_scene_remove, Hi.
  - repeat constructor. exact D.
  - unfold current_id. rewrite Hm. discriminate.
  - exact B.
  - exact C.
  - repeat constructor. exact D.
Qed.

Lemma app_sound_on_loaded ld d s :
  Sound s ->
  Sound (on_loaded ld {| gltf_scene := fresh_object (nextId s) d;
                         gltf_animations := d_animations d |}
           (set_nextId (S (nextId s)) s)).
Proof.
  intros [A B C D]. split.
  - intros i Hi.
    assert (E : i = nextId s).
    { revert Hi. unfold on_loaded, current_id. cbn.
      destruct (ld_position ld); [|destruct (reticle_visible s)]; cbn;
        now intros [= <-]. }
    subst i. cbn. unfold scene_add. rewrite in_app_iff. right. now left.
  - cbn. unfold scene_add. apply NoDup_app. split; [now apply NoDup_filter|].
    split; [|apply NoDup_singleton].
    intros x Hx. apply list_elem_of_filter in Hx as [Hx _].
    rewrite list_elem_of_In. intros [Heq|[]]. now apply Hx.
  - cbn. intros i Hi.
    destruct (MainSpec.in_scene_add _ _ _ Hi) as [H|Heq]; [|lia].
    specialize (C i H). lia.
  - cbn. constructor; [exact I | exact D].
Qed.

Lemma app_sound_move s : Sound s -> Sound (move_to_reticle s).
Proof.
  intros Hs. unfold move_to_reticle.
  destruct (reticle_visible s); [|assumption].
  destruct (currentModel s) as [m|] eqn:Hm; [|now apply app_sound_loadModel].
  destruct Hs as [A B C D]. split; try assumption.
  intros i Hi. apply A. unfold current_id in *. rewrite Hm. exact Hi.
Qed.

Lemma app_sound_select hit s : Sound s -> Sound (onSelect hit s).
Proof.
  intros Hs. unfold onSelect.
  destruct (currentModel s) as [m|], hit as [k|], (reticle_visible s);
    try destruct (visible m);
    try assumption;
    first [now apply app_sound_loadModel | now apply app_sound_move].
Qed.

Lemma app_sound_step s e s' : Sound s -> step s e = Some s' -> Sound s'.
Proof.
  intros Hs Hstep. destruct e as [url p q|hit|v m|r d|r]; cbn [step] in Hstep.
  - injection Hstep as <-. now apply app_sound_loadModel.
  - injection Hstep as <-. now apply app_sound_select.
  - injection Hstep as <-. destruct Hs as [A B C D]. now split.
  - unfold on_load in Hstep.
    destruct (loads s !! r) as [ld|]; [|discriminate].
    destruct (ld_outstanding ld); [|discriminate].
    injection Hstep as <-.
    exact (app_sound_on_loaded ld d (settle r ld s) (app_sound_settle r ld s Hs)).
  - unfold on_load in Hstep.
    destruct (loads s !! r) as [ld|]; [|discriminate].
    destruct (ld_outstanding ld); [|discriminate].
    injection Hstep as <-. now apply app_sound_settle.
Qed.

Lemma app_sound_initial : Sound initial.
Proof.
  split; cbn; [discriminate | apply NoDup_nil_2 | intros i [] | constructor].
Qed.

Lemma app_sound_run es : forall s s', Sound s -> run s es = Some s' -> Sound s'.
Proof.
  induction es as [|e es IH]; intros s s' Hs Hrun.
  - now injection Hrun as <-.
  - cbn [run] in Hrun. destruct (step s e) as [s1|] eqn:Hstep; [|discriminate].
    exact (IH s1 s' (app_sound_step s e s1 Hs Hstep) Hrun).
Qed.

(** app.js, [loadModel] and its callbacks: whatever the order of
    requests, arrivals and failures, the current model is in the scene,
    no model is in the scene twice, and no model is ever disposed: the
    only calls made are [scene.add], [scene.remove] and [loader.load]. *)
Theorem app_current_model_is_attached_and_never_disposed
    (es : list Event) (s : State) :
  run initial es = Some s ->
  NoDup (scene s)
  /\ (forall i, current_id s = Some i -> In i (scene s))
  /\ (forall i rs, ~ In (DisposeModel i rs) (calls s))
  /\ (forall u, ~ In (FallbackLoad u) (calls s)).
Proof.
  intros Hrun. destruct (app_sound_run es initial s app_sound_initial Hrun)
    as [A B C D].
  split; [exact B|]. split; [exact A|].
  rewrite Forall_forall in D.
  split; [intros i rs Hin | intros u Hin];
    apply list_elem_of_In in Hin; exact (D _ Hin).
Qed.

Lemma app_current_model_is_attached_and_never_disposed_witness :
  NoDup (scene (Scenario.app_after Scenario.app_racing)).
Proof.
  assert (H : run initial Scenario.app_racing
              = Some (Scenario.app_after Scenario.app_racing))
    by (vm_compute; reflexivity).
  exact (proj1 (app_current_model_is_attached_and_never_disposed _ _ H)).
Defined.

Lemma app_orphan_loadModel i url p q s :
  orphan i s -> orphan i (loadModel url p q s).
Proof.
  intros [Hin Hne]. unfold loadModel, orphan.
  destruct (currentModel s) as [m|] eqn:Hm; cbn.
  - split; [|discriminate].
    unfold scene_remove. apply list_elem_of_In, list_elem_of_filter.
    split; [|now apply list_elem_of_In].
    intros ->. apply Hne. unfold current_id. now rewrite Hm.
  - split; [exact Hin|]. unfold current_id. now rewrite Hm.
Qed.

Lemma app_orphan_move i s : orphan i s -> orphan i (move_to_reticle s).
Proof.
  intros Ho. unfold move_to_reticle.
  destruct (reticle_visible s); [|assumption].
  destruct (currentModel s) as [m|] eqn:Hm; [|now apply app_orphan_loadModel].
  destruct Ho as [Hin Hne]. split; [exact Hin|]. intros E. apply Hne.
  unfold current_id in *. rewrite Hm. exact E.
Qed.

Lemma app_orphan_select i hit s : orphan i s -> orphan i (onSelect hit s).
Proof.
  intros Ho. unfold onSelect.
  destruct (currentModel s) as [m|], hit as [k|], (reticle_visible s);
    try destruct (visible m);
    try assumption;
    first [now apply app_orphan_loadModel | now apply app_orphan_move].
Qed.

Lemma app_orphan_step i s e s' :
  Sound s -> orphan i s -> step s e = Some s' -> orphan i s'.
Proof.
  intros [A B C D] [Hin Hne] Hstep.
  destruct e as [url p q|hit|v m|r d|r]; cbn [step] in Hstep.
  - injection Hstep as <-. now apply app_orphan_loadModel.
  - injection Hstep as <-. now apply app_orphan_select.
  - injection Hstep as <-. now split.
  - unfold on_load in Hstep.
    destruct (loads s !! r) as [ld|]; [|discriminate].
    destruct (ld_outstanding ld); [|discriminate].
    injection Hstep as <-. pose proof (C i Hin) as Hlt. split.
    + cbn. unfold scene_add, scene_remove. rewrite in_app_iff. left.
      apply list_elem_of_In, list_elem_of_filter.
      split; [lia | now apply list_elem_of_In].
    + unfold on_loaded, current_id. cbn.
      destruct (ld_position ld); [|destruct (reticle_visible s)]; cbn;
        intros [= E]; lia.
  - unfold on_load in Hstep.
    destruct (loads s !! r) as [ld|]; [|discriminate].
    destruct (ld_outstanding ld); [|discriminate].
    injection Hstep as <-. now split.
Qed.

(** app.js, [loadModel]: only the current model is ever removed from the
    scene.  A model left in the scene by an overtaken load stays there
    whatever is loaded, moved or selected afterwards. *)
Theorem app_orphaned_model_is_never_removed
    (i : nat) (es1 es2 : list Event) (s1 s2 : State) :
  run initial es1 = Some s1 ->
  orphan i s1 ->
  run s1 es2 = Some s2 ->
  orphan i s2.
Proof.
  intros H1 Ho H2.
  pose proof (app_sound_run es1 initial s1 app_sound_initial H1) as Hs.
  clear H1. revert s1 Hs Ho H2.
  induction es2 as [|e es IH]; intros s1 Hs Ho H2.
  - now injection H2 as <-.
  - cbn [run] in H2. destruct (step s1 e) as [s'|] eqn:Hstep; [|discriminate].
    exact (IH s' (app_sound_step _ _ _ Hs Hstep)
             (app_orphan_step i _ _ _ Hs Ho Hstep) H2).
Qed.

Lemma app_orphaned_model_is_never_removed_witness :
  orphan 0
    (Scenario.app_after
       (Scenario.app_racing
          ++ [LoadModel "./model (3)/movimiento3.glb" None None;
              Loaded 2 (Scenario.robot 3)])).
Proof.
  assert (H1 : run initial Scenario.app_racing
               = Some (Scenario.app_after Scenario.app_racing))
    by (vm_compute; reflexivity).
  assert (Ho : orphan 0 (Scenario.app_after Scenario.app_racing)).
  { split.
    - assert (E : scene (Scenario.app_after Scenario.app_racing)
                  = [0%nat; 1%nat]) by (vm_compute; reflexivity).
      rewrite E. now left.
    - assert (E : current_id (Scenario.app_after Scenario.app_racing)
                  = Some 1%nat) by (vm_compute; reflexivity).
      rewrite E. discriminate. }
  assert (H2 : run (Scenario.app_after Scenario.app_racing)
                 [LoadModel "./model (3)/movimiento3.glb" None None;
                  Loaded 2 (Scenario.robot 3)]
               = Some (Scenario.app_after
                         (Scenario.app_racing
                            ++ [LoadModel "./model (3)/movimiento3.glb" None None;
                                Loaded 2 (Scenario.robot 3)])))
    by (vm_compute; reflexivity).
  exact (app_orphaned_model_is_never_removed 0 _ _ _ _ H1 Ho H2).
Defined.

End AppBehaviour.

(** ** main.js: models left behind by an overtaken load *)

Module MainOrphans.
Import Main.

Lemma stranded_same i s s' :
  scene s' = scene s ->
  currentModel s' = currentModel s ->
  (nextId s <= nextId s')%nat ->
  stranded i s -> stranded i s'.
Proof.
  intros E1 E2 E3 [[H1 H2] H3]. unfold stranded, orphan, current_id in *.
  rewrite E1, E2. repeat split; [exact H1 | exact H2 | lia].
Qed.

Lemma stranded_remove_previous i s : stranded i s -> stranded i (remove_previous s).
Proof.
  intros [[H1 H2] H3]. unfold remove_previous.
  destruct (currentModel s) as [m|] eqn:Hm; [|now repeat split].
  repeat split; cbn; [|discriminate | exact H3].
  unfold scene_remove. apply list_elem_of_In, list_elem_of_filter.
  split; [|now apply list_elem_of_In].
  intros ->. apply H2. unfold current_id. now rewrite Hm.
Qed.

Lemma stranded_vacated i s : stranded i s -> stranded i (vacated s).
Proof.
  intros H. apply (stranded_same i (remove_previous s));
    [reflexivity | reflexivity | exact (le_n _) |].
  now apply stranded_remove_previous.
Qed.

Lemma stranded_place i p q sc o an s :
  stranded i s -> (i < oid o)%nat -> stranded i (place p q sc o an s).
Proof.
  intros [[H1 H2] H3] Hlt. repeat split; cbn.
  - unfold scene_add, scene_remove. rewrite in_app_iff. left.
    apply list_elem_of_In, list_elem_of_filter.
    split; [lia | now apply list_elem_of_In].
  - unfold current_id. cbn. rewrite MainSpec.placed_oid. intros [= E]. lia.
  - exact H3.
Qed.

Lemma stranded_finally i s : stranded i s -> stranded i (finally s).
Proof. intros H. exact H. Qed.

Lemma stranded_put i r rq s : stranded i s -> stranded i (put_request r rq s).
Proof. intros H. exact H. Qed.

Lemma stranded_bump i s : stranded i s -> stranded i (set_nextId (S (nextId s)) s).
Proof. intros [H1 H3]. split; [exact H1 | cbn; lia]. Qed.

Lemma stranded_load i p q sc s :
  stranded i s -> stranded i (loadModelForCurrentMode p q sc s).
Proof.
  intros H. pose proof (proj2 H) as Hlt.
  destruct (MainSpec.load_outcome p q sc s) as [Hl|g Hl Hg|Hl Hg];
    [assumption|..]; pose proof (stranded_vacated i s H) as Hv.
  - apply stranded_finally, stranded_place; [|exact Hlt].
    destruct Hv as [Ho Hn]. split; [exact Ho | cbn; lia].
  - apply (stranded_same i (vacated s));
      [reflexivity | reflexivity | exact (le_n _) | exact Hv].
Qed.

Lemma stranded_resolve i r rq d s :
  stranded i s ->
  stranded i (resolve r rq (decoded_gltf d s) (set_nextId (S (nextId s)) s)).
Proof.
  intros H. pose proof (proj2 H) as Hlt. unfold resolve.
  destruct (rq_promise rq).
  - unfold resume_loaded. apply stranded_finally, stranded_place; [|exact Hlt].
    apply stranded_put, stranded_bump, H.
  - apply stranded_put, stranded_bump, H.
  - apply stranded_put, stranded_bump, H.
Qed.

Lemma stranded_reject i r rq e s : stranded i s -> stranded i (reject r rq e s).
Proof.
  intros H. unfold reject. destruct (rq_promise rq); exact H.
Qed.

Lemma stranded_map_currentModel i f s :
  (forall m, oid (f m) = oid m) ->
  stranded i s -> stranded i (map_currentModel f s).
Proof.
  intros Hf [[H1 H2] H3]. unfold map_currentModel.
  destruct (currentModel s) as [m|] eqn:Hm; [|now repeat split].
  repeat split; [exact H1 | | exact H3].
  unfold current_id in *. rewrite Hm in H2. cbn in *. now rewrite Hf.
Qed.

Lemma stranded_step i s e s' :
  stranded i s -> step s e = Some s' -> stranded i s'.
Proof.
  intros Hs.
  destruct e; cbn [step]; unfold on_request, on_preload;
    try (destruct (requests s !! r) as [rq|] eqn:Hr; [|discriminate]);
    try (destruct (preloads s !! k) as [pl|] eqn:Hk; [|discriminate]);
    try match goal with |- context [if ?b then _ else _] =>
          destruct b eqn:Hb; [|discriminate] end;
    intros [= <-].
  - (* Attach *) now apply stranded_load.
  - (* InitializeWebMode *)
    unfold initializeWebMode.
    refine (stranded_same i _ _ eq_refl eq_refl (le_n _) _).
    apply stranded_load. exact Hs.
  - (* KeyRoutine *)
    unfold onKeyRoutine, changeRoutine.
    destruct (_ && _); [|assumption].
    destruct (mode =? currentMode s); [assumption|].
    apply stranded_load. exact Hs.
  - (* ButtonRoutine *)
    unfold onButtonRoutine.
    destruct (mode =? 0); [assumption|]. cbn.
    destruct (isARMode s), (currentModel s) eqn:Hm; apply stranded_load;
      refine (stranded_same i s _ _ _ (le_n _) Hs); reflexivity.
  - (* Select *)
    unfold onSelect.
    destruct (negb _); [assumption|].
    destruct (reticle_visible _).
    + destruct (distance_lt _ _ _); [exact Hs|].
      destruct (distance_gt _ _ _); [exact Hs|].
      refine (stranded_same i _ _ eq_refl eq_refl (le_n _) _).
      now apply stranded_load.
    + destruct (currentModel s) as [m|] eqn:Hm; [|exact Hs].
      unfold cycleMode. cbn. rewrite Hm. apply stranded_load.
      refine (stranded_same i s _ _ _ (le_n _) Hs); reflexivity.
  - (* PreloadModel *)
    unfold preloadModel. destruct (preloadedModels s !! mode); exact Hs.
  - (* SessionStart *) exact Hs.
  - (* SessionEnd *)
    unfold onARSessionEnd, switchToWebMode.
    apply stranded_map_currentModel; [reflexivity|].
    refine (stranded_same i (map_currentModel _ _) _ eq_refl eq_refl (le_n _) _).
    apply stranded_map_currentModel; [reflexivity|]. exact Hs.
  - (* Environment *) exact Hs.
  - (* PrimaryLoaded *) unfold on_primary_loaded. now apply stranded_resolve.
  - (* PrimaryProgress *) unfold on_progress. destruct percent; exact Hs.
  - (* PrimaryFailed *) exact Hs.
  - (* FallbackLoaded *) unfold on_fallback_loaded. now apply stranded_resolve.
  - (* FallbackProgress *) unfold on_progress. destruct percent; exact Hs.
  - (* FallbackFailed *) unfold on_fallback_failed. now apply stranded_reject.
  - (* Timeout *) unfold on_timeout. now apply stranded_reject.
  - (* PreloadLoaded *)
    unfold on_preload_loaded.
    apply (stranded_same i s); [reflexivity | reflexivity | cbn; lia | exact Hs].
  - (* PreloadFailed *) exact Hs.
Qed.

Lemma stranded_run i es : forall s s',
  stranded i s -> run s es = Some s' -> stranded i s'.
Proof.
  induction es as [|e es IH]; intros s s' Hs.
  - now intros [= <-].
  - change (run s (e :: es))
      with (match step s e with Some s1 => run s1 es | None => None end).
    destruct (step s e) as [s1|] eqn:E; [|discriminate].
    apply IH. eapply stranded_step; eassumption.
Qed.

(** main.js, [loadModelForCurrentMode]: only the current model is ever
    removed from the scene and disposed.  A model left in the scene by an
    overtaken load stays there, never current and never disposed,
    whatever is selected, loaded or placed afterwards. *)
Theorem stranded_model_is_never_removed
    (desktop : bool) (i : nat) (es1 es2 : list Event) (s1 s2 : State) :
  run (initial desktop) es1 = Some s1 ->
  orphan i s1 ->
  run s1 es2 = Some s2 ->
  orphan i s2
  /\ forall rs, ~ In (DisposeModel i rs) (calls s2).
Proof.
  intros H1 Ho H2.
  pose proof (MainInvariants.reachable_sound _ _ _ H1) as S1.
  pose proof (MainInvariants.sound_run _ _ _ S1 H2) as S2.
  assert (Hst : stranded i s1) by (split; [exact Ho | apply S1, Ho]).
  destruct (stranded_run i es2 s1 s2 Hst H2) as [Ho2 _].
  split; [exact Ho2|].
  intros rs Hin. destruct (snd_disposed s2 S2 i rs Hin) as [_ Hn].
  apply Hn, Ho2.
Qed.

Lemma stranded_model_is_never_removed_witness :
  orphan 0
    (Scenario.state_after (initial true)
       (Scenario.racing_loads
          ++ [KeyRoutine 3; PrimaryLoaded 2 (Scenario.robot 3)])).
Proof.
  assert (H1 : run (initial true) Scenario.racing_loads
               = Some (Scenario.state_after (initial true) Scenario.racing_loads))
    by (vm_compute; reflexivity).
  assert (Ho : orphan 0 (Scenario.state_after (initial true) Scenario.racing_loads)).
  { split.
    - assert (E : scene (Scenario.state_after (initial true) Scenario.racing_loads)
                  = [0%nat; 1%nat]) by (vm_compute; reflexivity).
      rewrite E. now left.
    - assert (E : current_id
                    (Scenario.state_after (initial true) Scenario.racing_loads)
                  = Some 1%nat) by (vm_compute; reflexivity).
      rewrite E. discriminate. }
  assert (H2 : run (Scenario.state_after (initial true) Scenario.racing_loads)
                 [KeyRoutine 3; PrimaryLoaded 2 (Scenario.robot 3)]
               = Some (Scenario.state_after (initial true)
                         (Scenario.racing_loads
                            ++ [KeyRoutine 3;
                                PrimaryLoaded 2 (Scenario.robot 3)])))
    by (vm_compute; reflexivity).
  exact (proj1 (stranded_model_is_never_removed true 0 _ _ _ _ H1 Ho H2)).
Defined.

End MainOrphans.

(** ** Arrivals that find a model in place, and the preloaded templates *)

Module MainArrivals.
Import Main.

Lemma clearTimeout_promise rq : rq_promise (clearTimeout rq) = rq_promise rq.
Proof. unfold clearTimeout. now destruct (rq_timer rq). Qed.

Lemma arrival_strands i r rq d s :
  Sound s ->
  current_id s = Some i ->
  rq_promise rq = Pending ->
  orphan i (resolve r rq (decoded_gltf d s) (set_nextId (S (nextId s)) s))
  /\ current_id (resolve r rq (decoded_gltf d s) (set_nextId (S (nextId s)) s))
     = Some (nextId s).
Proof.
  intros Hs Hc Hp. unfold resolve. rewrite Hp. unfold resume_loaded.
  pose proof (snd_attached s Hs i Hc) as Hin.
  pose proof (snd_below s Hs i Hin) as Hlt.
  assert (E : current_id
                (finally
                   (place (rq_position rq) (rq_quaternion rq) (rq_scale rq)
                      (gltf_scene (decoded_gltf d s))
                      (gltf_animations (decoded_gltf d s))
                      (put_request r (set_promise Fulfilled rq)
                         (set_nextId (S (nextId s)) s))))
              = Some (nextId s)).
  { unfold current_id. cbn. now rewrite MainSpec.placed_oid. }
  split; [split|exact E].
  - cbn. unfold scene_add, scene_remove. rewrite in_app_iff. left.
    apply list_elem_of_In, list_elem_of_filter.
    split; [lia | now apply list_elem_of_In].
  - rewrite E. intros [= E']. lia.
Qed.

(** main.js, the continuation of [loadModelForCurrentMode] after its
    [await]: a model that arrives while another one is current is added
    beside it and takes its place as current model; the model that was
    current stays in the scene, no longer reachable from [currentModel]. *)
Theorem late_arrival_strands_current_model
    (desktop : bool) (es : list Event) (s s' : State)
    (i r : nat) (d : Decoded) :
  run (initial desktop) es = Some s ->
  current_id s = Some i ->
  promise_pending r s ->
  step s (PrimaryLoaded r d) = Some s' \/ step s (FallbackLoaded r d) = Some s' ->
  orphan i s' /\ current_id s' = Some (nextId s).
Proof.
  intros Hrun Hc Hp Hstep.
  pose proof (MainInvariants.reachable_sound _ _ _ Hrun) as Hs.
  unfold promise_pending in Hp.
  destruct (requests s !! r) as [rq|] eqn:Hr; [|discriminate].
  injection Hp as Hp.
  destruct Hstep as [Hstep|Hstep]; cbn [step] in Hstep;
    unfold on_request in Hstep; rewrite Hr in Hstep;
    match type of Hstep with (if ?b then _ else _) = _ =>
      destruct b; [|discriminate] end;
    injection Hstep as <-.
  - unfold on_primary_loaded. apply arrival_strands; [exact Hs | exact Hc|].
    now rewrite clearTimeout_promise.
  - unfold on_fallback_loaded. apply arrival_strands; [exact Hs | exact Hc|].
    now rewrite clearTimeout_promise.
Qed.

Lemma late_arrival_strands_current_model_witness :
  orphan 0 (Scenario.state_after (initial true) Scenario.racing_loads).
Proof.
  assert (Hrun : run (initial true)
                   (Scenario.impatient ++ [PrimaryLoaded 1 (Scenario.robot 2)])
                 = Some (Scenario.state_after (initial true)
                           (Scenario.impatient
                              ++ [PrimaryLoaded 1 (Scenario.robot 2)])))
    by (vm_compute; reflexivity).
  assert (Hc : current_id
                 (Scenario.state_after (initial true)
                    (Scenario.impatient ++ [PrimaryLoaded 1 (Scenario.robot 2)]))
               = Some 0%nat) by (vm_compute; reflexivity).
  assert (Hp : promise_pending 0
                 (Scenario.state_after (initial true)
                    (Scenario.impatient ++ [PrimaryLoaded 1 (Scenario.robot 2)])))
    by (vm_compute; reflexivity).
  assert (Hstep : step
                    (Scenario.state_after (initial true)
                       (Scenario.impatient
                          ++ [PrimaryLoaded 1 (Scenario.robot 2)]))
                    (PrimaryLoaded 0 (Scenario.robot 1))
                  = Some (Scenario.state_after (initial true)
                            Scenario.racing_loads))
    by (vm_compute; reflexivity).
  exact (proj1 (late_arrival_strands_current_model true _ _ _ 0 0
                  (Scenario.robot 1) Hrun Hc Hp (or_introl Hstep))).
Defined.

(** *** The preloaded templates stay out of the scene *)

Lemma apart_same s s' :
  preloadedModels s' = preloadedModels s ->
  (forall j, In j (scene s') -> In j (scene s)) ->
  (nextId s <= nextId s')%nat ->
  templates_apart s -> templates_apart s'.
Proof.
  intros E1 E2 E3 H mode g Hg. rewrite E1 in Hg.
  destruct (H mode g Hg) as [H1 H2]. split; [lia|].
  intros Hin. apply H2, E2, Hin.
Qed.

Lemma apart_vacated s : templates_apart s -> templates_apart (vacated s).
Proof.
  apply apart_same.
  - apply MainSpec.vacated_preloadedModels.
  - apply MainSpec.vacated_scene.
  - now rewrite MainSpec.vacated_nextId.
Qed.

Lemma apart_place p q sc o an s t :
  templates_apart s ->
  preloadedModels t = preloadedModels s ->
  (forall j, In j (scene t) -> In j (scene s)) ->
  (nextId s < nextId t)%nat ->
  oid o = nextId s ->
  templates_apart (place p q sc o an t).
Proof.
  intros H E1 E2 E3 Ho mode g Hg.
  change (preloadedModels t !! mode = Some g) in Hg. rewrite E1 in Hg.
  destruct (H mode g Hg) as [H1 H2]. split; [cbn; lia|].
  cbn. intros Hin.
  destruct (MainSpec.in_scene_add _ _ _ Hin) as [Hj|Heq]; [|lia].
  apply H2, E2, Hj.
Qed.

Lemma apart_finally s : templates_apart s -> templates_apart (finally s).
Proof. intros H. exact H. Qed.

Lemma apart_load p q sc s :
  templates_apart s -> templates_apart (loadModelForCurrentMode p q sc s).
Proof.
  intros H.
  destruct (MainSpec.load_outcome p q sc s) as [Hl|g Hl Hg|Hl Hg];
    [assumption|..]; pose proof (apart_vacated s H) as Hv.
  - apply apart_finally.
    apply (apart_place _ _ _ _ _ (vacated s)); [exact Hv | reflexivity
      | tauto | | ].
    + cbn. rewrite MainSpec.vacated_nextId. lia.
    + cbn. now rewrite MainSpec.vacated_nextId.
  - exact (apart_same (vacated s) _ eq_refl (fun _ Hj => Hj) (le_n _) Hv).
Qed.

Lemma apart_resolve r rq d s :
  templates_apart s ->
  templates_apart (resolve r rq (decoded_gltf d s) (set_nextId (S (nextId s)) s)).
Proof.
  intros H. unfold resolve.
  destruct (rq_promise rq).
  - unfold resume_loaded. apply apart_finally.
    apply (apart_place _ _ _ _ _ s); [exact H | reflexivity | tauto
      | cbn; lia | reflexivity].
  - apply (apart_same s); [reflexivity | tauto | cbn; lia | exact H].
  - apply (apart_same s); [reflexivity | tauto | cbn; lia | exact H].
Qed.

Lemma apart_reject r rq e s :
  templates_apart s -> templates_apart (reject r rq e s).
Proof.
  intros H. unfold reject. destruct (rq_promise rq); exact H.
Qed.

Lemma apart_map_currentModel f s :
  templates_apart s -> templates_apart (map_currentModel f s).
Proof.
  intros H. unfold map_currentModel. now destruct (currentModel s).
Qed.

Lemma apart_step s e s' :
  Sound s -> templates_apart s -> step s e = Some s' -> templates_apart s'.
Proof.
  intros Hsound Hs.
  destruct e; cbn [step]; unfold on_request, on_preload;
    try (destruct (requests s !! r) as [rq|] eqn:Hr; [|discriminate]);
    try (destruct (preloads s !! k) as [pl|] eqn:Hk; [|discriminate]);
    try match goal with |- context [if ?b then _ else _] =>
          destruct b eqn:Hb; [|discriminate] end;
    intros [= <-].
  - (* Attach *) now apply apart_load.
  - (* InitializeWebMode *)
    unfold initializeWebMode.
    refine (apart_same (loadModelForCurrentMode _ _ _ _) _ eq_refl
              (fun _ Hj => Hj) (le_n _) _).
    apply apart_load. exact Hs.
  - (* KeyRoutine *)
    unfold onKeyRoutine, changeRoutine.
    destruct (_ && _); [|assumption].
    destruct (mode =? currentMode s); [assumption|].
    apply apart_load. exact Hs.
  - (* ButtonRoutine *)
    unfold onButtonRoutine.
    destruct (mode =? 0); [assumption|]. cbn.
    destruct (isARMode s), (currentModel s); apply apart_load; exact Hs.
  - (* Select *)
    unfold onSelect.
    destruct (negb _); [assumption|].
    destruct (reticle_visible _).
    + destruct (distance_lt _ _ _); [exact Hs|].
      destruct (distance_gt _ _ _); [exact Hs|].
      refine (apart_same (loadModelForCurrentMode _ _ _ _) _ eq_refl
                (fun _ Hj => Hj) (le_n _) _).
      now apply apart_load.
    + destruct (currentModel s) as [m|] eqn:Hm; [|exact Hs].
      unfold cycleMode. cbn. rewrite Hm. apply apart_load. exact Hs.
  - (* PreloadModel *)
    unfold preloadModel. destruct (preloadedModels s !! mode); exact Hs.
  - (* SessionStart *) exact Hs.
  - (* SessionEnd *)
    unfold onARSessionEnd, switchToWebMode.
    apply apart_map_currentModel.
    refine (apart_same (map_currentModel _ _) _ eq_refl (fun _ Hj => Hj)
              (le_n _) _).
    apply apart_map_currentModel. exact Hs.
  - (* Environment *) exact Hs.
  - (* PrimaryLoaded *) unfold on_primary_loaded. now apply apart_resolve.
  - (* PrimaryProgress *) unfold on_progress. destruct percent; exact Hs.
  - (* PrimaryFailed *) exact Hs.
  - (* FallbackLoaded *) unfold on_fallback_loaded. now apply apart_resolve.
  - (* FallbackProgress *) unfold on_progress. destruct percent; exact Hs.
  - (* FallbackFailed *) unfold on_fallback_failed. now apply apart_reject.
  - (* Timeout *) unfold on_timeout. now apply apart_reject.
  - (* PreloadLoaded *)
    unfold on_preload_loaded. intros mode g Hg. cbn in Hg.
    apply lookup_insert_Some in Hg as [[_ <-]|[_ Hg]]; cbn.
    + split; [lia|]. intros Hin. pose proof (snd_below s Hsound _ Hin). lia.
    + destruct (Hs mode g Hg) as [H1 H2]. split; [lia | exact H2].
  - (* PreloadFailed *) exact Hs.
Qed.

Lemma apart_run es : forall s s',
  Sound s -> templates_apart s -> run s es = Some s' -> templates_apart s'.
Proof.
  induction es as [|e es IH]; intros s s' Hsound Hs.
  - now intros [= <-].
  - change (run s (e :: es))
      with (match step s e with Some s1 => run s1 es | None => None end).
    destruct (step s e) as [s1|] eqn:E; [|discriminate].
    apply IH; [eapply MainInvariants.sound_step | eapply apart_step]; eassumption.
Qed.

(** main.js, [preloadModel] and [loadModelForCurrentMode]: the object
    kept in [preloadedModels] is never itself added to the scene and is
    never the current model; what the scene shows of a preloaded routine
    is always a clone. *)
Theorem preloaded_template_is_never_attached
    (desktop : bool) (es : list Event) (s : State) (mode : Z) (g : GLTF) :
  run (initial desktop) es = Some s ->
  preloadedModels s !! mode = Some g ->
  ~ In (oid (gltf_scene g)) (scene s)
  /\ current_id s <> Some (oid (gltf_scene g)).
Proof.
  intros Hrun Hg.
  assert (H0 : templates_apart (initial desktop)).
  { intros m g0 H. cbn in H. now rewrite lookup_empty in H. }
  destruct (apart_run es _ s (MainInvariants.sound_initial desktop) H0 Hrun
              mode g Hg) as [_ Hn].
  split; [exact Hn|]. intros Hc. apply Hn.
  exact (snd_attached s (MainInvariants.reachable_sound _ _ _ Hrun) _ Hc).
Qed.

Lemma preloaded_template_is_never_attached_witness :
  ~ In 0%nat
      (scene (Scenario.state_after (initial false)
                [PreloadModel 1; PreloadLoaded 0 (Scenario.robot 1);
                 InitializeWebMode])).
Proof.
  assert (Hrun : run (initial false)
                   [PreloadModel 1; PreloadLoaded 0 (Scenario.robot 1);
                    InitializeWebMode]
                 = Some (Scenario.state_after (initial false)
                           [PreloadModel 1; PreloadLoaded 0 (Scenario.robot 1);
                            InitializeWebMode]))
    by (vm_compute; reflexivity).
  assert (Hg : preloadedModels
                 (Scenario.state_after (initial false)
                    [PreloadModel 1; PreloadLoaded 0 (Scenario.robot 1);
                     InitializeWebMode]) !! 1
               = Some {| gltf_scene := fresh_object 0 (Scenario.robot 1);
                         gltf_animations := d_animations (Scenario.robot 1) |})
    by (vm_compute; reflexivity).
  exact (proj1 (preloaded_template_is_never_attached false _ _ 1 _ Hrun Hg)).
Defined.

End MainArrivals.

(** ** app.js: arrivals *)

Module AppArrivals.
Import App.

(** app.js, the [onLoad] callback of [loadModel]: a model that arrives
    while another one is current is added beside it and takes its place;
    the model that was current stays in the scene.  The arriving model is
    shown exactly when a position was passed or the reticle is visible,
    and otherwise waits hidden one metre ahead of the origin. *)
Theorem app_late_arrival_strands_current_model
    (es : list Event) (s s' : State) (i r : nat) (d : Decoded) :
  run initial es = Some s ->
  current_id s = Some i ->
  step s (Loaded r d) = Some s' ->
  orphan i s'
  /\ current_id s' = Some (nextId s)
  /\ exists ld m,
       loads s !! r = Some ld
       /\ currentModel s' = Some m
       /\ (visible m = true
           <-> ld_position ld <> None \/ reticle_visible s = true)
       /\ (visible m = false ->
           position (obj m) = {| vx := 0; vy := 0; vz := -1 |}).
Proof.
  intros Hrun Hc Hstep.
  pose proof (AppBehaviour.app_sound_run es initial s
                AppBehaviour.app_sound_initial Hrun) as Hs.
  pose proof (snd_attached s Hs i Hc) as Hin.
  pose proof (snd_below s Hs i Hin) as Hlt.
  cbn [step] in Hstep. unfold on_load in Hstep.
  destruct (loads s !! r) as [ld|] eqn:Hr; [|discriminate].
  destruct (ld_outstanding ld); [|discriminate].
  injection Hstep as <-.
  assert (E : current_id
                (on_loaded ld
                   {| gltf_scene := fresh_object (nextId (settle r ld s)) d;
                      gltf_animations := d_animations d |}
                   (set_nextId (S (nextId (settle r ld s))) (settle r ld s)))
              = Some (nextId s)).
  { unfold on_loaded, current_id. cbn.
    destruct (ld_position ld); [|destruct (reticle_visible s)]; reflexivity. }
  split; [split|split; [exact E|]].
  - cbn. unfold scene_add, scene_remove. rewrite in_app_iff. left.
    apply list_elem_of_In, list_elem_of_filter.
    split; [lia | now apply list_elem_of_In].
  - intros E'. pose proof (eq_trans (eq_sym E) E') as X.
    injection X as X. lia.
  - exists ld. unfold on_loaded. cbn.
    destruct (ld_position ld) as [p|]; [|destruct (reticle_visible s)];
      eexists; (split; [reflexivity|]); (split; [reflexivity|]); cbn.
    + split; [split; [intros _; left; discriminate | reflexivity] | discriminate].
    + split; [split; [intros _; now right | reflexivity] | discriminate].
    + split; [split; [discriminate | intros [H|H]; [contradiction | discriminate]]
             | reflexivity].
Qed.

Lemma app_late_arrival_strands_current_model_witness :
  orphan 0 (Scenario.app_after Scenario.app_racing).
Proof.
  assert (Hrun : run initial
                   [LoadModel "./model/modelo-final.glb" None None;
                    LoadModel "./model (2)/movimiento2.glb" None None;
                    Loaded 0 (Scenario.robot 1)]
                 = Some (Scenario.app_after
                           [LoadModel "./model/modelo-final.glb" None None;
                            LoadModel "./model (2)/movimiento2.glb" None None;
                            Loaded 0 (Scenario.robot 1)]))
    by (vm_compute; reflexivity).
  assert (Hc : current_id
                 (Scenario.app_after
                    [LoadModel "./model/modelo-final.glb" None None;
                     LoadModel "./model (2)/movimiento2.glb" None None;
                     Loaded 0 (Scenario.robot 1)])
               = Some 0%nat) by (vm_compute; reflexivity).
  assert (Hstep : step
                    (Scenario.app_after
                       [LoadModel "./model/modelo-final.glb" None None;
                        LoadModel "./model (2)/movimiento2.glb" None None;
                        Loaded 0 (Scenario.robot 1)])
                    (Loaded 1 (Scenario.robot 2))
                  = Some (Scenario.app_after Scenario.app_racing))
    by (vm_compute; reflexivity).
  exact (proj1 (app_late_arrival_strands_current_model _ _ _ 0 1
                  (Scenario.robot 2) Hrun Hc Hstep)).
Defined.

End AppArrivals.
